(** * A static-site builder and its change watcher, verified

    Shallow embedding of [build.py] (the Site Builder) and
    [watch_build.py] (the Change Watcher).

    - Python [str] values are lists of Unicode code points ([list N]).
    - [pathlib.Path] values are lists of path segments, relative to the
      project root [ROOT]; the semantics of [pathlib] follows CPython
      3.10/3.11 on POSIX (the script requires Python >= 3.10).
    - The file system is a finite map from paths to entries.
    - Exceptions are values of [exn]; a computation that can raise returns
      a [result]; one that also changes the file system is a state
      transformer returning a [result] and the file system it leaves. *)

From Stdlib Require Import NArith ZArith String Ascii.
From stdpp Require Import gmap list sorting lexico.

Abbreviation pystr := (list N).
Abbreviation path := (list (list N)).

(** ** Python strings *)

(** An ASCII literal as a Python string. *)
Definition py (s : string) : pystr := N_of_ascii <$> list_ascii_of_string s.
Arguments py s%_string.

(** [Py_UNICODE_ISSPACE]: the code points [str.strip] removes and the
    pattern [\s] matches on [str] subjects. *)
Definition is_space (c : N) : bool :=
  ((0x09 <=? c) && (c <=? 0x0D) || (0x1C <=? c) && (c <=? 0x20)
   || (c =? 0x85) || (c =? 0xA0) || (c =? 0x1680)
   || (0x2000 <=? c) && (c <=? 0x200A)
   || (c =? 0x2028) || (c =? 0x2029) || (c =? 0x202F) || (c =? 0x205F)
   || (c =? 0x3000))%N.

Fixpoint lstrip (s : pystr) : pystr :=
  match s with
  | c :: s' => if is_space c then lstrip s' else s
  | [] => []
  end.

Definition rstrip (s : pystr) : pystr := reverse (lstrip (reverse s)).

(** [s.strip()] *)
Definition strip (s : pystr) : pystr := rstrip (lstrip s).

(** [s.split(sep, 1)] for a one-character separator: cut at the first
    occurrence of [sep], if any. *)
Fixpoint split1 (sep : N) (s : pystr) : list pystr :=
  match s with
  | [] => [[]]
  | c :: s' =>
      if (c =? sep)%N then [[]; s']
      else match split1 sep s' with
           | h :: t => (c :: h) :: t
           | [] => [[c]]
           end
  end.

(** [l[0]] *)
Definition item0 (l : list pystr) : pystr := default [] (head l).

(** [s.replace(old, new)] for one-character [old] and [new]. *)
Definition replace (old new : N) (s : pystr) : pystr :=
  (λ c, if (c =? old)%N then new else c) <$> s.

(** [sep.join(parts)] *)
Fixpoint join (sep : pystr) (parts : list pystr) : pystr :=
  match parts with
  | [] => []
  | [p] => p
  | p :: ps => p ++ sep ++ join sep ps
  end.

(** [s.rfind(c)]: the index of the last occurrence of [c]; Python's [-1]
    is [None]. *)
Fixpoint rfind (c : N) (s : pystr) : option nat :=
  match s with
  | [] => None
  | x :: s' =>
      match rfind c s' with
      | Some i => Some (S i)
      | None => if (x =? c)%N then Some 0 else None
      end
  end.

(** The part of the Unicode character database that [str.title] reads
    (it belongs to the Python runtime, not to this repository). *)
Record unicode_db := {
  (** [_PyUnicode_IsCased] *)
  is_cased : N → bool;
  (** [_PyUnicode_ToTitleFull] *)
  to_title_full : N → pystr;
  (** [lower_ucs4 data i]: the lower-case mapping of [data[i]] in its
      context (the context matters for a capital sigma only). *)
  lower_ucs4 : pystr → nat → N → pystr
}.

(** [str.title], as [do_title] of CPython's [unicodeobject.c]: a character
    that follows a cased one is lower-cased, any other one title-cased. *)
Fixpoint do_title (db : unicode_db) (data : pystr) (i : nat)
    (previous_is_cased : bool) (rest : pystr) : pystr :=
  match rest with
  | [] => []
  | c :: rest' =>
      (if previous_is_cased then lower_ucs4 db data i c else to_title_full db c)
      ++ do_title db data (S i) (is_cased db c) rest'
  end.

Definition title (db : unicode_db) (s : pystr) : pystr := do_title db s 0 false s.

(** The database on the Basic Latin block, where it is the ASCII table;
    a code point outside of it is left as it is. *)
Definition ascii_is_upper (c : N) : bool := ((0x41 <=? c) && (c <=? 0x5A))%N.
Definition ascii_is_lower (c : N) : bool := ((0x61 <=? c) && (c <=? 0x7A))%N.
Definition ascii_db : unicode_db := {|
  is_cased c := ascii_is_upper c || ascii_is_lower c;
  to_title_full c := [if ascii_is_lower c then (c - 32)%N else c];
  lower_ucs4 _ _ c := [if ascii_is_upper c then (c + 32)%N else c]
|}.

(** A database that is the ASCII table on the Basic Latin block, as the
    Unicode one is. *)
Definition extends_ascii (db : unicode_db) : Prop :=
  ∀ c, (c < 128)%N →
    is_cased db c = is_cased ascii_db c
    ∧ to_title_full db c = to_title_full ascii_db c
    ∧ ∀ data i, lower_ucs4 db data i c = lower_ucs4 ascii_db data i c.

(** ** Regular expressions

    The fragment of [re] that the title pattern is written in. Matching is
    by backtracking, as in [sre]: a greedy repetition takes the longest
    run first and gives characters back, a lazy one takes the shortest
    and extends. *)
Inductive charclass :=
| CSpace   (** [\s] *)
| CAny.    (** [.] under [re.DOTALL] *)

Definition in_class (k : charclass) (c : N) : bool :=
  match k with CSpace => is_space c | CAny => true end.

Inductive regex_item :=
| Lit (s : pystr)                 (** literal characters *)
| Star (k : charclass)            (** [k*] *)
| Plus (k : charclass)            (** [k+] *)
| GroupLazyStar (k : charclass).  (** [(k*?)], a capturing group *)

(** [strip_prefix l s]: [s] without its prefix [l], if it starts with it. *)
Fixpoint strip_prefix (l s : pystr) : option pystr :=
  match l, s with
  | [], _ => Some s
  | a :: l', b :: s' => if (a =? b)%N then strip_prefix l' s' else None
  | _ :: _, [] => None
  end.

(** Greedy [k*] followed by the continuation [kont]. *)
Fixpoint greedy_star {A} (k : charclass) (kont : pystr → option A)
    (s : pystr) : option A :=
  match s with
  | c :: s' =>
      if in_class k c then
        match greedy_star k kont s' with
        | Some r => Some r
        | None => kont s
        end
      else kont s
  | [] => kont s
  end.

(** Lazy [(k*?)] followed by [kont]; [acc] is the text captured so far, in
    reverse. *)
Fixpoint lazy_star {A} (k : charclass) (kont : pystr → option A)
    (acc s : pystr) : option (pystr * A) :=
  match kont s with
  | Some r => Some (reverse acc, r)
  | None =>
      match s with
      | c :: s' => if in_class k c then lazy_star k kont (c :: acc) s' else None
      | [] => None
      end
  end.

(** [match_here items s]: match the sequence [items] at the start of [s];
    the result is the text of the groups, in order. *)
Fixpoint match_here (items : list regex_item) : pystr → option (list pystr) :=
  match items with
  | [] => λ _, Some []
  | Lit l :: items' => λ s, strip_prefix l s ≫= match_here items'
  | Star k :: items' => greedy_star k (match_here items')
  | Plus k :: items' => λ s,
      match s with
      | c :: s' => if in_class k c then greedy_star k (match_here items') s' else None
      | [] => None
      end
  | GroupLazyStar k :: items' => λ s,
      match lazy_star k (match_here items') [] s with
      | Some (g, gs) => Some (g :: gs)
      | None => None
      end
  end.

(** [re.search(pattern, s)]: the match at the leftmost position that has
    one. *)
Fixpoint re_search (items : list regex_item) (s : pystr) : option (list pystr) :=
  match match_here items s with
  | Some gs => Some gs
  | None => match s with
            | _ :: s' => re_search items s'
            | [] => None
            end
  end.

(** [match.group(1)] *)
Definition group1 (gs : list pystr) : pystr := default [] (head gs).

(** [r"{%\s*block\s+title\s*%}(.*?){%\s*endblock\s*%}"] *)
Definition title_pattern : list regex_item :=
  [ Lit (py "{%"); Star CSpace; Lit (py "block"); Plus CSpace;
    Lit (py "title"); Star CSpace; Lit (py "%}");
    GroupLazyStar CAny;
    Lit (py "{%"); Star CSpace; Lit (py "endblock"); Star CSpace;
    Lit (py "%}") ].


(** ** Exceptions *)

Inductive exn :=
| FileNotFoundError (msg : pystr)
| RuntimeError (msg : pystr)
| ValueError (msg : pystr)
| NotADirectoryError (p : path)
| IsADirectoryError (p : path)
| FileExistsError (p : path)
| UnicodeDecodeError (p : path)
| ShutilError (errors : list (path * path))
(** Whatever the template engine raises, with its message. *)
| TemplateError (msg : pystr).

Inductive result (A : Type) :=
| Ok (a : A)
| Raise (e : exn).
Arguments Ok {A} a.
Arguments Raise {A} e.

Global Instance result_ret : MRet result := λ A a, Ok a.
Global Instance result_bind : MBind result := λ A B f m,
  match m with Ok a => f a | Raise e => Raise e end.

(** ** pathlib *)

Definition slash : N := 47.
Definition dot : N := 46.
Definition hyphen : N := 45.
Definition space : N := 32.

(** [p.name] *)
Definition path_name (p : path) : pystr := default [] (last p).

(** [p.parent] *)
Definition parent (p : path) : path := removelast p.

(** [p.suffix] *)
Definition suffix (p : path) : pystr :=
  let name := path_name p in
  match rfind dot name with
  | Some i => if bool_decide (0 < i < length name - 1) then drop i name else []
  | None => []
  end.

(** [p.with_suffix(new)] *)
Definition with_suffix (p : path) (new : pystr) : result path :=
  if bool_decide (slash ∈ new) then Raise (ValueError (py "Invalid suffix"))
  else if bool_decide (new ≠ [] ∧ head new ≠ Some dot ∨ new = [dot])
  then Raise (ValueError (py "Invalid suffix"))
  else
    let name := path_name p in
    if bool_decide (name = []) then Raise (ValueError (py "empty name"))
    else
      let old_suffix := suffix p in
      let name' :=
        if bool_decide (old_suffix = []) then name ++ new
        else take (length name - length old_suffix) name ++ new in
      Ok (removelast p ++ [name']).

(** [p.relative_to(base)] *)
Fixpoint relative_to (p base : path) : result path :=
  match base, p with
  | [] , _ => Ok p
  | b :: base', x :: p' =>
      if bool_decide (b = x) then relative_to p' base'
      else Raise (ValueError (py "not in the subpath"))
  | _ :: _, [] => Raise (ValueError (py "not in the subpath"))
  end.

(** [p.as_posix()] of a relative path *)
Definition as_posix (p : path) : pystr :=
  match p with [] => [dot] | _ => join [slash] p end.

(** [sorted] on paths: Python compares the segment lists, and strings by
    code point; the sort is stable and asks for [<] only. *)
Definition path_lt : relation path := lexico.
Definition path_le : relation path := λ p q, ¬ path_lt q p.
Definition sorted (l : list path) : list path := merge_sort path_le l.

(** ** The file system *)

(** What a regular file holds: [Text s] is the UTF-8 encoding of [s];
    [Binary b] is a byte sequence that is not valid UTF-8. *)
Inductive content :=
| Text (s : pystr)
| Binary (b : list N).

Inductive entry :=
| File (c : content)
| Dir.

Global Instance content_eq_dec : EqDecision content.
Proof. solve_decision. Defined.
Global Instance entry_eq_dec : EqDecision entry.
Proof. solve_decision. Defined.

(** A file system state: the entries below [ROOT], by their path relative
    to it. [ROOT] itself is the directory the script lies in. *)
Abbreviation filesystem := (gmap path entry).

Definition ROOT : path := [].
Definition BUILD_DIR : path := ROOT ++ [py "build"].
Definition TEMPLATE_DIR : path := ROOT ++ [py "templates"].
Definition PAGES_DIR : path := ROOT ++ [py "pages"].
Definition STATIC_DIR : path := ROOT ++ [py "static"].

(** [p.exists()] *)
Definition path_exists (fs : filesystem) (p : path) : bool :=
  bool_decide (p = ROOT) || bool_decide (is_Some (fs !! p)).

(** [p.is_dir()] *)
Definition is_dir (fs : filesystem) (p : path) : bool :=
  bool_decide (p = ROOT) || bool_decide (fs !! p = Some Dir).

(** Text mode with universal newlines: [\r\n] and [\r] are read as [\n]. *)
Fixpoint universal_newlines (s : pystr) : pystr :=
  match s with
  | 13%N :: s' =>
      10%N :: match s' with
              | 10%N :: s'' => universal_newlines s''
              | _ => universal_newlines s'
              end
  | c :: s' => c :: universal_newlines s'
  | [] => []
  end.

(** [p.read_text(encoding="utf-8")] *)
Definition read_text (fs : filesystem) (p : path) : result pystr :=
  match fs !! p with
  | Some (File (Text s)) => Ok (universal_newlines s)
  | Some (File (Binary _)) => Raise (UnicodeDecodeError p)
  | Some Dir => Raise (IsADirectoryError p)
  | None => if bool_decide (p = ROOT) then Raise (IsADirectoryError p)
            else Raise (FileNotFoundError (as_posix p))
  end.

(** The directories between [base] and [base / rel] that a walk down from
    [base] goes through are directories. *)
Definition walkable (fs : filesystem) (base rel : path) : bool :=
  forallb (λ i, is_dir fs (base ++ take i rel)) (seq 0 (length rel)).

(** The path of an entry strictly below [base], relative to it. *)
Definition below (base p : path) : option path :=
  match relative_to p base with
  | Ok (x :: rel) => Some (x :: rel)
  | _ => None
  end.

(** [fnmatch] of a name against [*ext], case-sensitive as on POSIX. *)
Definition fnmatch_star (ext name : pystr) : bool :=
  bool_decide (ext `suffix_of` name).

(** [base.rglob("*" + ext)]: every entry below [base] whose name matches,
    in the order the directory scan gives them. *)
Definition rglob_match (fs : filesystem) (base : path) (ext : pystr)
    (p : path) : bool :=
  match below base p with
  | Some rel => walkable fs base rel && fnmatch_star ext (path_name p)
  | None => false
  end.

Definition rglob (fs : filesystem) (base : path) (ext : pystr) : list path :=
  if is_dir fs base
  then (map_to_list (filter (λ kv, rglob_match fs base ext kv.1) fs)).*1
  else [].

(** ** Computations on the file system *)

Definition M (A : Type) : Type := filesystem → result A * filesystem.

Global Instance M_ret : MRet M := λ A a fs, (Ok a, fs).
Global Instance M_bind : MBind M := λ A B f m fs,
  match m fs with
  | (Ok a, fs') => f a fs'
  | (Raise e, fs') => (Raise e, fs')
  end.

(** A computation that fails or returns without touching the file system. *)
Definition lift {A} (r : result A) : M A := λ fs, (r, fs).

(** A computation that only reads the file system. *)
Definition reads {A} (f : filesystem → result A) : M A := λ fs, (f fs, fs).

(** [for x in l: body(x)] *)
Fixpoint for_each {A} (body : A → M unit) (l : list A) : M unit :=
  match l with
  | [] => mret ()
  | x :: l' => body x ;; for_each body l'
  end.

(** [shutil.rmtree(p)] *)
Definition rmtree (p : path) : M unit := λ fs,
  match fs !! p with
  | Some Dir => (Ok (), filter (λ kv, ¬ p `prefix_of` kv.1) fs)
  | Some (File _) => (Raise (NotADirectoryError p), fs)
  | None => (Raise (FileNotFoundError (as_posix p)), fs)
  end.

(** [p.mkdir(parents=True, exist_ok=True)] and [os.makedirs(p,
    exist_ok=True)], for [p = made / todo]: the missing directories are
    made from the top down; a regular file in the way is an error. *)
Fixpoint mkdir_from (made todo : path) : M unit :=
  match todo with
  | [] => mret ()
  | seg :: todo' =>
      let p := made ++ [seg] in
      λ fs,
        match fs !! p with
        | Some Dir => mkdir_from p todo' fs
        | Some (File _) =>
            (Raise (match todo' with
                    | [] => FileExistsError p
                    | _ => NotADirectoryError (p ++ todo')
                    end), fs)
        | None => mkdir_from p todo' (<[p := Dir]> fs)
        end
  end.

Definition mkdir_parents (p : path) : M unit := mkdir_from ROOT p.

(** [p.write_text(data, encoding="utf-8")] *)
Definition write_text (p : path) (data : pystr) : M unit := λ fs,
  if is_dir fs p then (Raise (IsADirectoryError p), fs)
  else if is_dir fs (parent p) then (Ok (), <[p := File (Text data)]> fs)
  else if path_exists fs (parent p) then (Raise (NotADirectoryError p), fs)
  else (Raise (FileNotFoundError (as_posix p)), fs).

(** [shutil.copytree(src, dst, dirs_exist_ok=True)].

    [blocked fs dst rel]: a directory on the way from [dst] down to
    [dst / rel] could not be made, a regular file being there; the copy
    of that subtree is given up. *)
Definition blocked (fs : filesystem) (dst rel : path) : bool :=
  existsb (λ i, match fs !! (dst ++ take (S i) rel) with
                | Some (File _) => true
                | _ => false
                end) (seq 0 (length rel - 1)).

(** The copy of one entry of the source tree. [fs0] is the file system
    when the copy starts; the failures are collected in [errors] and the
    copy goes on. A regular file whose destination is a directory is
    copied into that directory, as [shutil.copy2] does. *)
Definition copy_entry (fs0 : filesystem) (src dst : path)
    (acc : list (path * path) * filesystem) (kv : path * entry)
    : list (path * path) * filesystem :=
  let '(errors, fs) := acc in
  match below src kv.1 with
  | None => acc
  | Some rel =>
      if negb (walkable fs0 src rel) || blocked fs0 dst rel then acc
      else
        match kv.2, fs0 !! (dst ++ rel) with
        | Dir, Some (File _) => (errors ++ [(src ++ rel, dst ++ rel)], fs)
        | Dir, _ => (errors, <[dst ++ rel := Dir]> fs)
        | File c, Some Dir =>
            let inside := dst ++ rel ++ [path_name rel] in
            match fs0 !! inside with
            | Some Dir => (errors ++ [(src ++ rel, dst ++ rel)], fs)
            | _ => (errors, <[inside := File c]> fs)
            end
        | File c, _ => (errors, <[dst ++ rel := File c]> fs)
        end
  end.

Definition copytree (src dst : path) : M unit := λ fs,
  match fs !! src with
  | Some Dir =>
      match mkdir_parents dst fs with
      | (Ok _, fs0) =>
          let '(errors, fs') :=
            foldl (copy_entry fs0 src dst) ([], fs0) (map_to_list fs0) in
          match errors with
          | [] => (Ok (), fs')
          | _ => (Raise (ShutilError errors), fs')
          end
      | (Raise e, fs0) => (Raise e, fs0)
      end
  | Some (File _) => (Raise (NotADirectoryError src), fs)
  | None => (Raise (FileNotFoundError (as_posix src)), fs)
  end.

(** ** The template engine

    Jinja2 is a dependency of the script, not part of it: the builder is
    modelled over any engine. *)

(** [jinja2.Environment], as far as [load_env] sets it up. *)
Record Environment := {
  (** [FileSystemLoader(searchpath)] *)
  loader_searchpath : list path;
  (** [select_autoescape(extensions)] *)
  autoescape : list pystr;
  trim_blocks : bool;
  lstrip_blocks : bool
}.

(** A navigation link: the dict with the keys ["id"], ["label"], ["href"]. *)
Record nav_link := {
  nl_id : pystr;
  nl_label : pystr;
  nl_href : pystr
}.

(** [shared_context] *)
Record shared_context := {
  nav_links : list nav_link;
  site_name : pystr;
  brand_icon : pystr;
  home_href : pystr;
  static_css_path : pystr;
  current_year : Z
}.

(** [page_context]: the shared context and the key ["active_nav"]. *)
Record page_context := {
  shared : shared_context;
  active_nav : pystr
}.

(** What the loader of an environment can see: the entries at and below
    the directories of its search path. *)
Definition loader_view (env : Environment) (fs : filesystem) : filesystem :=
  filter (λ kv, Exists (λ d, d `prefix_of` kv.1) (loader_searchpath env)) fs.

(** [get_template(name)] of an environment, then [render] of the template
    with the keys of the context: the HTML ([inr]), or the
    message of the exception raised ([inl]). *)
Definition template_engine : Type :=
  Environment → filesystem → pystr → page_context → pystr + pystr.

(** ** build.py *)

(** [load_env] *)
Definition load_env : Environment := {|
  loader_searchpath := [TEMPLATE_DIR; PAGES_DIR];
  autoescape := [py "html"; py "xml"];
  trim_blocks := true;
  lstrip_blocks := true
|}.

(** [clean_build_directory] *)
Definition clean_build_directory : M unit :=
  (λ fs, if path_exists fs BUILD_DIR then rmtree BUILD_DIR fs else (Ok (), fs)) ;;
  mkdir_parents BUILD_DIR.

(** [copy_static_files] *)
Definition copy_static_files : M unit := λ fs,
  if negb (path_exists fs STATIC_DIR) then (Ok (), fs)
  else
    let target_static_dir := BUILD_DIR ++ [path_name STATIC_DIR] in
    copytree STATIC_DIR target_static_dir fs.

(** [discover_pages]; the message names the pages root by its path from
    [ROOT]. *)
Definition discover_pages (fs : filesystem) : result (list path) :=
  if negb (path_exists fs PAGES_DIR)
  then Raise (FileNotFoundError (py "Missing pages directory: " ++ as_posix PAGES_DIR))
  else Ok (sorted (rglob fs PAGES_DIR (py ".html"))).

(** [NAV_ICONS] *)
Definition NAV_ICONS : gmap pystr pystr :=
  {[ py "about" := [0x1F464%N];
     py "projects" := [0x1F6E0%N; 0xFE0F%N];
     py "fun" := [0x1F3AE%N] ]}.

(** [page_slug] *)
Definition page_slug (relative_path : path) : result pystr :=
  slug_parts ← with_suffix relative_path [];
  Ok (join [hyphen] slug_parts).

(** [a or b] on an optional string: [None] and the empty string are
    false. *)
Definition py_or (a : option pystr) (b : pystr) : pystr :=
  match a with
  | Some (c :: s) => c :: s
  | _ => b
  end.

(** [extract_title_label] *)
Definition extract_title_label (fs : filesystem) (page_path : path)
    : result (option pystr) :=
  content ← read_text fs page_path;
  match re_search title_pattern content with
  | None => Ok None
  | Some m =>
      let title_content := strip (group1 m) in
      if bool_decide (title_content = []) then Ok None
      else Ok (Some (strip (item0 (split1 hyphen title_content))))
  end.

Section Builder.
(** The Unicode tables of the Python runtime and the template engine. *)
Variable db : unicode_db.
Variable jinja : template_engine.

(** [page_label] *)
Definition page_label (slug : pystr) : pystr :=
  title db (replace hyphen space slug).

(** The body of the first loop of [render_pages]: the navigation link
    of one page, appended to [nav_links] unless the page is an index. *)
Definition nav_step (fs : filesystem) (nav_links : list nav_link)
    (page : path) : result (list nav_link) :=
  rel_path ← relative_to page PAGES_DIR;
  slug ← page_slug rel_path;
  if bool_decide (path_name rel_path = py "index.html") then Ok nav_links
  else
    t ← extract_title_label fs page;
    let label := py_or t (page_label slug) in
    let icon := default [] (NAV_ICONS !! slug) in
    let label := if bool_decide (icon ≠ []) then icon ++ [space] ++ label
                 else label in
    Ok (nav_links ++
        [ {| nl_id := slug; nl_label := label; nl_href := as_posix rel_path |} ]).

(** The first loop of [render_pages]. *)
Fixpoint build_nav (fs : filesystem) (nav_links : list nav_link)
    (discovered : list path) : result (list nav_link) :=
  match discovered with
  | [] => Ok nav_links
  | page :: rest =>
      nav_links' ← nav_step fs nav_links page;
      build_nav fs nav_links' rest
  end.

(** The body of the second loop of [render_pages]. *)
Definition render_page (env : Environment) (ctx : shared_context)
    (page : path) : M unit :=
  rel_path ← lift (relative_to page PAGES_DIR);
  slug ← lift (page_slug rel_path);
  let page_context := {| shared := ctx; active_nav := slug |} in
  html ← reads (λ fs,
    match jinja env (loader_view env fs) (as_posix rel_path) page_context with
    | inr html => Ok html
    | inl msg => Raise (TemplateError msg)
    end);
  let output_path := BUILD_DIR ++ rel_path in
  mkdir_parents (parent output_path) ;;
  write_text output_path html.

(** [render_pages]; [now_year] is [datetime.now().year]. *)
Definition render_pages (env : Environment) (now_year : Z) : M unit :=
  discovered ← reads discover_pages;
  match discovered with
  | [] => lift (Raise (RuntimeError (py "No pages found to render.")))
  | _ =>
      nav_links ← reads (λ fs, build_nav fs [] discovered);
      let shared_context := {|
        nav_links := nav_links;
        site_name := py "Home";
        brand_icon := [0x1F3E0%N];
        home_href := py "index.html";
        static_css_path := path_name STATIC_DIR ++ py "/styles.css";
        current_year := now_year
      |} in
      for_each (render_page env shared_context) discovered
  end.

(** [main] *)
Definition main (now_year : Z) : M unit :=
  let env := load_env in
  clean_build_directory ;;
  copy_static_files ;;
  render_pages env now_year.
End Builder.

(** ** A small template engine

    Enough of Jinja2 to run the builder on examples: a template is found
    along the search path; its source is literal text and the expressions
    [{{ current_year }}] and [{{ active_nav }}]; any other tag is refused. *)

(** [s.split(sep)] for a one-character separator. *)
Fixpoint split_all (sep : N) (s : pystr) : list pystr :=
  match s with
  | [] => [[]]
  | c :: s' =>
      if (c =? sep)%N then [] :: split_all sep s'
      else match split_all sep s' with
           | h :: t => (c :: h) :: t
           | [] => [[c]]
           end
  end.

(** The decimal digits of a number, the most significant first. *)
Fixpoint digits (fuel : nat) (n : N) (acc : pystr) : pystr :=
  match fuel with
  | 0 => acc
  | S fuel' =>
      let acc' := (48 + n mod 10)%N :: acc in
      if (n <? 10)%N then acc' else digits fuel' (n / 10)%N acc'
  end.

Definition str_of_int (y : Z) : pystr :=
  (if (y <? 0)%Z then [hyphen] else [])
  ++ digits 64 (Z.to_N (Z.abs y)) [].

Definition starts_with (l s : pystr) : bool := bool_decide (is_Some (strip_prefix l s)).

(** [skip] characters of an expression just rendered are still to pass. *)
Fixpoint mini_render (ctx : page_context) (skip : nat) (s : pystr) : pystr + pystr :=
  match s with
  | [] => inr []
  | c :: s' =>
      match skip with
      | S k => mini_render ctx k s'
      | 0 =>
          let emit (out : pystr) (k : nat) :=
            match mini_render ctx k s' with
            | inr r => inr (out ++ r)
            | inl msg => inl msg
            end in
          if starts_with (py "{{ current_year }}") s
          then emit (str_of_int (current_year (shared ctx))) 17
          else if starts_with (py "{{ active_nav }}") s
          then emit (active_nav ctx) 15
          else if starts_with (py "{{") s || starts_with (py "{%") s
               || starts_with (py "{#") s
          then inl (py "unsupported tag")
          else emit [c] 0
      end
  end.

Definition mini_jinja : template_engine := λ env view name ctx,
  let rel := split_all slash name in
  let found := omap (λ d, match view !! (d ++ rel) with
                          | Some (File (Text src)) => Some src
                          | _ => None
                          end) (loader_searchpath env) in
  match found with
  | src :: _ => mini_render ctx 0 (universal_newlines src)
  | [] => inl (py "TemplateNotFound: " ++ name)
  end.

(** ** Example sites *)

Definition page (rel : path) (src : string) : path * entry :=
  (PAGES_DIR ++ rel, File (Text (py src))).
Arguments page rel src%_string.

(** Three pages, one of them in a subdirectory, a style sheet, and what an
    earlier build and a stray file left in the output directory. *)
Definition site1 : filesystem :=
  list_to_map
    [ (PAGES_DIR, Dir);
      page [py "index.html"] "Welcome, {{ current_year }}";
      page [py "about.html"] "About us";
      (PAGES_DIR ++ [py "blog"], Dir);
      page [py "blog"; py "post.html"] "A post ({{ active_nav }})";
      (STATIC_DIR, Dir);
      (STATIC_DIR ++ [py "styles.css"], File (Text (py "body {}")));
      (BUILD_DIR, Dir);
      (BUILD_DIR ++ [py "stray.txt"], File (Text (py "left over"))) ].

(** A site whose blog has an index page of its own. *)
Definition site2 : filesystem :=
  list_to_map
    [ (PAGES_DIR, Dir);
      page [py "index.html"] "Welcome";
      page [py "about.html"] "About us";
      (PAGES_DIR ++ [py "blog"], Dir);
      page [py "blog"; py "index.html"] "All posts" ].

(** A site with a directory whose name ends in [.html]. *)
Definition site3 : filesystem :=
  list_to_map
    [ (PAGES_DIR, Dir);
      page [py "index.html"] "Welcome";
      (PAGES_DIR ++ [py "notes.html"], Dir) ].

(** A site with a page that is not valid UTF-8. *)
Definition site4 : filesystem :=
  list_to_map
    [ (PAGES_DIR, Dir);
      page [py "index.html"] "Welcome";
      (PAGES_DIR ++ [py "about.html"], File (Binary [0xFF%N; 0xFE%N])) ].


(** ** watch_build.py *)

Module Watch.

(** What the watcher sees of an entry: whether it is a directory, and the
    modification time of a regular file as [os.path.getmtime] returns it
    ([None]: the file was listed by the walk and is gone when its time is
    asked for). Times are only compared for equality; a time is never
    NaN, so a number stands for each of them. *)
Inductive stat :=
| RegularFile (mtime : option Z)
| Directory.

Global Instance stat_eq_dec : EqDecision stat.
Proof. solve_decision. Defined.

(** The entries below the working directory, by their path. *)
Abbreviation tree := (gmap path stat).

Definition WATCH_DIRS : list path := [[py "pages"]; [py "static"]].

(** The directory names that the walk does not enter. *)
Definition pruned : list pystr := [py "build"; py "__pycache__"].

(** [os.path.isdir] *)
Definition isdir (t : tree) (p : path) : bool :=
  bool_decide (p = []) || bool_decide (t !! p = Some Directory).

(** [os.walk(base)] with the pruning of [snapshot]: the walk reaches
    [base / rel] if every directory on the way down exists and none of
    those below [base] has a pruned name. *)
Definition visited (t : tree) (base p : path) : bool :=
  match below base p with
  | Some rel =>
      forallb (λ i, isdir t (base ++ take i rel)) (seq 0 (length rel))
      && forallb (λ d, bool_decide (d ∉ pruned)) (removelast rel)
  | None => false
  end.

(** The inner loops of [snapshot] for one watched directory: the path
    and the time of the regular files the walk comes by. The key of a
    file is [os.path.join(root, name)], kept as its segments. *)
Definition walk_mtimes (t : tree) (base : path) : gmap path Z :=
  omap (λ s, match s with RegularFile m => m | Directory => None end)
    (filter (λ kv, visited t base kv.1) t).

(** [snapshot] *)
Definition snapshot (t : tree) : gmap path Z :=
  foldl (λ mtimes base,
           if isdir t base then walk_mtimes t base ∪ mtimes else mtimes)
        ∅ WATCH_DIRS.

(** What the watcher does to the outside. *)
Inductive event :=
| Print (line : pystr)            (** [print(line, flush=True)] *)
| Sleep                           (** [time.sleep(SLEEP_SECONDS)] *)
| Subprocess (cmd : list pystr).  (** [subprocess.run(cmd)] *)

Global Instance event_eq_dec : EqDecision event.
Proof. solve_decision. Defined.

(** What the outside is at one turn of the loop: the tree when the
    snapshot is taken, whether [shutil.which("uv")] finds [uv], and the
    exit code of the builder, should it be run; or the interrupt signal
    arrives. *)
Inductive observation :=
| Tick (t : tree) (uv : bool) (returncode : Z)
| KeyboardInterrupt.

(** The state of [main]: the variable [prev] and what was done so far. *)
Record state := {
  prev : gmap path Z;
  trace : list event
}.

Inductive outcome :=
| Polling (st : state)   (** still in the loop *)
| Stopped (st : state).  (** left it on the interrupt *)

Section Watcher.
(** [sys.executable] *)
Variable sys_executable : pystr.

(** [run_build]: the exit code and the events. *)
Definition run_build (uv : bool) (returncode : Z) : Z * list event :=
  let build_cmd := if uv then [py "uv"; py "run"; py "build.py"]
                   else [sys_executable; py "build.py"] in
  (returncode,
   [ Print (py "[watch] Running: " ++ join [space] build_cmd);
     Subprocess build_cmd;
     if bool_decide (returncode = 0%Z)
     then Print (py "[watch] Build completed.")
     else Print (py "[watch] Build failed with code "
                 ++ str_of_int returncode ++ py ".") ]).

(** One turn of the [while True] loop. *)
Definition poll (st : state) (t : tree) (uv : bool) (returncode : Z) : state :=
  let current := snapshot t in
  if bool_decide (current ≠ prev st) then
    {| prev := current;
       trace := trace st ++ [Sleep] ++ (run_build uv returncode).2 |}
  else
    {| prev := prev st; trace := trace st ++ [Sleep] |}.

(** The loop, for as long as the outside is observed. *)
Fixpoint loop (st : state) (obs : list observation) : outcome :=
  match obs with
  | [] => Polling st
  | Tick t uv returncode :: obs' => loop (poll st t uv returncode) obs'
  | KeyboardInterrupt :: _ =>
      Stopped {| prev := prev st;
                 trace := trace st ++ [Print (10%N :: py "[watch] Stopped.")] |}
  end.

(** [main], started on the tree [t0]. *)
Definition main (t0 : tree) (obs : list observation) : outcome :=
  let banner := Print (py "[watch] Watching " ++ join (py ", ") (as_posix <$> WATCH_DIRS)
                       ++ py " for changes. Ctrl+C to stop.") in
  loop {| prev := snapshot t0; trace := [banner] |} obs.
End Watcher.

(** The number of builder runs in a trace. *)
Definition is_build (e : event) : bool :=
  match e with Subprocess _ => true | _ => false end.

Definition builds (tr : list event) : nat := length (filter is_build tr).

Definition outcome_state (o : outcome) : state :=
  match o with Polling st | Stopped st => st end.

(** A tree with nested pages, a cache directory and a style sheet. *)
Definition tree1 : tree :=
  list_to_map
    [ ([py "pages"], Directory);
      ([py "pages"; py "index.html"], RegularFile (Some 100%Z));
      ([py "pages"; py "blog"], Directory);
      ([py "pages"; py "blog"; py "post.html"], RegularFile (Some 120%Z));
      ([py "pages"; py "__pycache__"], Directory);
      ([py "pages"; py "__pycache__"; py "x.pyc"], RegularFile (Some 130%Z));
      ([py "static"], Directory);
      ([py "static"; py "styles.css"], RegularFile (Some 90%Z));
      ([py "build"], Directory);
      ([py "build"; py "index.html"], RegularFile (Some 140%Z)) ].

(** The changes of snapshot along a run: each snapshot is compared with
    the one of the turn before, the first with [prev]; the count ends
    with the run or at the interrupt. *)
Fixpoint changes (prev : gmap path Z) (obs : list observation) : nat :=
  match obs with
  | Tick t _ _ :: obs' =>
      (if bool_decide (snapshot t ≠ prev) then 1 else 0) + changes (snapshot t) obs'
  | _ => 0
  end.

(** The message of a failed build. *)
Definition failure_line (rc : Z) : event :=
  Print (py "[watch] Build failed with code " ++ str_of_int rc ++ py ".").

(** A run on which the index page is touched and later touched back. *)
Definition index1 : path := [py "pages"; py "index.html"].
Definition baseline1 : state := {| prev := snapshot tree1; trace := [] |}.
Definition tree2 : tree := <[index1 := RegularFile (Some 101%Z)]> tree1.
Definition run1 : list observation :=
  [Tick tree1 true 0; Tick tree2 true 2; Tick tree2 false 0; Tick tree1 false 0].

(** A path of a watched directory that the walk may come by: nothing on
    the way to it is pruned. *)
Definition watched (p : path) : Prop :=
  ∃ base rel, base ∈ WATCH_DIRS ∧ p = base ++ rel
              ∧ ∀ d, d ∈ removelast rel → d ∉ pruned.

Definition tree3 : tree :=
  <[ [py "build"; py "about.html"] := RegularFile (Some 150%Z) ]>
    (<[ [py "pages"; py "__pycache__"; py "x.pyc"] := RegularFile (Some 160%Z) ]> tree1).

Definition contact1 : path := [py "pages"; py "blog"; py "new.html"].

(** The tree of the last tick of a run, if there is one. *)
Definition last_tree (obs : list observation) : option tree :=
  match last obs with
  | Some (Tick t _ _) => Some t
  | _ => None
  end.

Definition is_sleep (e : event) : bool :=
  match e with Sleep => true | _ => false end.

(** The first line of [main]. *)
Definition banner : event :=
  Print (py "[watch] Watching " ++ join (py ", ") (as_posix <$> WATCH_DIRS)
         ++ py " for changes. Ctrl+C to stop.").

(** The line of the handler of [KeyboardInterrupt]. *)
Definition stop_line : event := Print (10%N :: py "[watch] Stopped.").

(** Where the interrupt arrives in a turn of the loop whose
    [time.sleep] is called. *)
Inductive stage :=
| InSleep        (** in [time.sleep], in [snapshot] or at the comparison *)
| AfterAssign    (** [prev = current] is done, [run_build] has printed nothing *)
| AfterRunning   (** the line [Running] is printed, [subprocess.run] not called *)
| InSubprocess.  (** in [subprocess.run], or before the line on its result *)

(** The state when the interrupt arrives at [s] in a turn on the tree
    [t]: what the turn has done up to there. The first two events of
    [run_build] do not depend on the exit code. With the snapshot
    unchanged the turn ends at the comparison. *)
Definition cut_turn (exe : pystr) (st : state) (t : tree) (uv : bool)
    (s : stage) : state :=
  let current := snapshot t in
  let asleep := {| prev := prev st; trace := trace st ++ [Sleep] |} in
  if bool_decide (current ≠ prev st) then
    match s with
    | InSleep => asleep
    | AfterAssign => {| prev := current; trace := trace st ++ [Sleep] |}
    | AfterRunning =>
        {| prev := current;
           trace := trace st ++ [Sleep] ++ take 1 (run_build exe uv 0).2 |}
    | InSubprocess =>
        {| prev := current;
           trace := trace st ++ [Sleep] ++ take 2 (run_build exe uv 0).2 |}
    end
  else asleep.

(** What happens at one turn of the loop: it runs to its end, or the
    interrupt arrives in it, or before its [time.sleep] is called. *)
Inductive moment :=
| Whole (t : tree) (uv : bool) (returncode : Z)
| Cut (t : tree) (uv : bool) (s : stage)
| Head.

Definition is_whole (m : moment) : bool :=
  match m with Whole _ _ _ => true | _ => false end.

(** The handler: the last line is printed and the program ends. *)
Definition halt (st : state) : outcome :=
  Stopped {| prev := prev st; trace := trace st ++ [stop_line] |}.

(** The loop, with the interrupt arriving anywhere in it. *)
Fixpoint run (exe : pystr) (st : state) (ms : list moment) : outcome :=
  match ms with
  | [] => Polling st
  | Whole t uv returncode :: ms' => run exe (poll exe st t uv returncode) ms'
  | Cut t uv s :: _ => halt (cut_turn exe st t uv s)
  | Head :: _ => halt st
  end.

(** A run of [main]: the interrupt arrives before the loop (before
    the banner is printed, or after it, in the first [snapshot]; [prev]
    is not bound then, the empty map stands for it), or the loop is
    entered on the tree [t0]. *)
Inductive start :=
| Early (banner_printed : bool)
| Loop (t0 : tree) (ms : list moment).

Definition main_run (exe : pystr) (s : start) : outcome :=
  match s with
  | Early banner_printed =>
      Stopped {| prev := ∅;
                 trace := (if banner_printed then [banner] else []) ++ [stop_line] |}
  | Loop t0 ms => run exe {| prev := snapshot t0; trace := [banner] |} ms
  end.

(** The observations of [loop] as moments: its interrupt is the one
    that arrives before [time.sleep] is called. *)
Definition moment_of (o : observation) : moment :=
  match o with
  | Tick t uv returncode => Whole t uv returncode
  | KeyboardInterrupt => Head
  end.
End Watch.

(** * What is proved

    The statements about the builder are made with the definitions
    below. *)

(** The label a title gives, with the icon of the slug if it has one. *)
Definition with_icon (slug label : pystr) : pystr :=
  match NAV_ICONS !! slug with
  | Some icon => icon ++ [space] ++ label
  | None => label
  end.

(** The text of the title block before its first hyphen, trimmed. *)
Definition title_before_dash (m : list pystr) : pystr :=
  strip (item0 (split1 hyphen (strip (group1 m)))).

(** The statement that a title block that is found and not empty always gives
    the label. *)
Definition title_block_always_overrides (db : unicode_db) : Prop :=
  ∀ fs page content m link,
    read_text fs page = Ok content →
    re_search title_pattern content = Some m →
    strip (group1 m) ≠ [] →
    nav_step db fs [] page = Ok [link] →
    nl_label link = with_icon (nl_id link) (title_before_dash m).

(** A page whose title starts with the separator. *)
Definition site5 : filesystem :=
  list_to_map
    [ (PAGES_DIR, Dir);
      page [py "index.html"] "Welcome";
      page [py "news.html"] "{% block title %}- Home{% endblock %}" ].

(** A page that extends a layout and sets its title. *)
Definition site6 : filesystem :=
  list_to_map
    [ (PAGES_DIR, Dir);
      page [py "index.html"] "Welcome";
      page [py "team.html"]
        "{% extends 'base.html' %}
{% block title %}About - Home{% endblock %}
{% block content %}<p>Us</p>{% endblock %}" ].

(** The statement that the extraction of a title never raises. *)
Definition extraction_never_raises : Prop :=
  ∀ fs page, ∃ o, extract_title_label fs page = Ok o.

(** [link] is the link of the page [p]. *)
Definition links_page (link : nav_link) (p : path) : Prop :=
  ∃ rel, relative_to p PAGES_DIR = Ok rel
         ∧ page_slug rel = Ok (nl_id link)
         ∧ nl_href link = as_posix rel.

(** The statement that the navigation list leaves out the entry point
    [index.html] of the pages root and nothing else. *)
Definition nav_excludes_only_entry_point (db : unicode_db) : Prop :=
  ∀ fs discovered nav,
    discover_pages fs = Ok discovered →
    build_nav db fs [] discovered = Ok nav →
    ∀ page, page ∈ discovered → page ≠ PAGES_DIR ++ [py "index.html"] →
            ∃ link, link ∈ nav ∧ links_page link page.

(** Every entry lies in a directory. *)
Definition well_formed (fs : filesystem) : Prop :=
  map_Forall (λ k _, k ≠ ROOT ∧ is_dir fs (parent k) = true) fs.

(** The file system without the output directory. *)
Definition outside_build (fs : filesystem) : filesystem :=
  filter (λ kv, ¬ BUILD_DIR `prefix_of` kv.1) fs.

(** [fs'] has the output directory and differs from [fs] inside it only. *)
Definition build_frame (fs fs' : filesystem) : Prop :=
  fs' !! BUILD_DIR = Some Dir
  ∧ ∀ k, ¬ BUILD_DIR `prefix_of` k → fs' !! k = fs !! k.

(** A computation that keeps to the output directory. *)
Definition keeps_to_build {A} (m : M A) : Prop :=
  ∀ fs, fs !! BUILD_DIR = Some Dir → build_frame fs (m fs).2.

(** The files of the output directory. *)
Definition output (fs : filesystem) : filesystem :=
  filter (λ kv, BUILD_DIR `prefix_of` kv.1) fs.

(** The statement that a second build always leaves the output of the
    first. *)
Definition rebuild_always_identical (db : unicode_db) (jinja : template_engine) : Prop :=
  ∀ y1 y2 fs, well_formed fs →
    output (main db jinja y2 (main db jinja y1 fs).2).2
    = output (main db jinja y1 fs).2.

Definition is_RuntimeError (e : exn) : bool :=
  match e with RuntimeError _ => true | _ => false end.

(** A computation that raises no [RuntimeError]. *)
Definition no_RuntimeError {A} (m : M A) : Prop :=
  ∀ fs e, (m fs).1 = Raise e → is_RuntimeError e = false.

(** A project without a pages root. *)
Definition site7 : filesystem :=
  list_to_map
    [ (STATIC_DIR, Dir);
      (STATIC_DIR ++ [py "styles.css"], File (Text (py "body {}"))) ].

(** A project whose output path is a regular file. *)
Definition site8 : filesystem :=
  list_to_map
    [ (PAGES_DIR, Dir);
      page [py "index.html"] "Welcome";
      (BUILD_DIR, File (Text (py "not a directory"))) ].

Definition brace : N := 123.
Definition percent : N := 37.

(** [l in s] *)
Fixpoint occurs (l s : pystr) : bool :=
  starts_with l s || match s with [] => false | _ :: s' => occurs l s' end.

(** The tags of a title block in their usual spelling. *)
Definition block_title_tag : pystr := py "{% block title %}".
Definition endblock_tag : pystr := py "{% endblock %}".

(** The part of the title pattern after the group. *)
Definition endblock_items : list regex_item :=
  [ Lit (py "{%"); Star CSpace; Lit (py "endblock"); Star CSpace; Lit (py "%}") ].

(** A page that extends a layout and has a variable in its title. *)
Definition site9 : filesystem :=
  list_to_map
    [ (PAGES_DIR, Dir);
      page [py "projects.html"]
        "{% extends 'base.html' %}
{% block title %}Work - {{ site_name }}{% endblock %}
{% block content %}<p>Things</p>{% endblock %}" ].

(** The shared context of a build whose navigation list is [nav], in the
    year [y]. *)
Definition site_context (nav : list nav_link) (y : Z) : shared_context := {|
  nav_links := nav;
  site_name := py "Home";
  brand_icon := [0x1F3E0%N];
  home_href := py "index.html";
  static_css_path := path_name STATIC_DIR ++ py "/styles.css";
  current_year := y
|}.

(** The site of [site1] once the output directory is clean. *)
Definition site1_clean : filesystem := (clean_build_directory site1).2.

(** [target_static_dir] of [copy_static_files] *)
Definition target_static_dir : path := BUILD_DIR ++ [path_name STATIC_DIR].

(** The copy of one entry when nothing is in its way. *)
Definition copy_plain (src dst : path) (fs : filesystem) (kv : path * entry)
    : filesystem :=
  match below src kv.1 with
  | Some rel => <[dst ++ rel := kv.2]> fs
  | None => fs
  end.

(** A word with its first letter in upper case; the word is in lower-case
    ASCII letters. *)
Definition capitalize (w : pystr) : pystr :=
  match w with
  | [] => []
  | c :: w' => (c - 32)%N :: w'
  end.

(** * Properties of the builder *)

Lemma forallb_pointwise {A} (f g : A → bool) (l : list A) :
  (∀ x, f x = g x) → forallb f l = forallb g l.
Proof. intros E. induction l as [|x l IH]; simpl; [done|]. by rewrite E, IH. Qed.

Lemma py_html : py ".html" = [dot; 104; 116; 109; 108]%N.
Proof. reflexivity. Qed.

Lemma rfind_app_last c s t :
  c ∉ t → rfind c (s ++ c :: t) = Some (length s).
Proof.
  intros Hc. induction s as [|x s IH]; simpl.
  - assert (rfind c t = None) as ->.
    { induction t as [|y t IHt]; simpl; [done|].
      rewrite IHt by (intros ?; apply Hc; by right).
      destruct (N.eqb_spec y c) as [->|]; [|done]. destruct Hc. by left. }
    by rewrite N.eqb_refl.
  - by rewrite IH.
Qed.

Lemma path_name_snoc (dirs : path) (name : pystr) : path_name (dirs ++ [name]) = name.
Proof. unfold path_name. by rewrite last_snoc. Qed.

Lemma removelast_snoc {A} (l : list A) x : removelast (l ++ [x]) = l.
Proof. by rewrite removelast_last. Qed.

Lemma suffix_html dirs stem :
  stem ≠ [] → suffix (dirs ++ [stem ++ py ".html"]) = py ".html".
Proof.
  intros Hs. unfold suffix. rewrite path_name_snoc, py_html.
  rewrite rfind_app_last.
  2:{ unfold dot. intros H. repeat (apply elem_of_cons in H as [H|H]; [done|]).
      by apply elem_of_nil in H. }
  rewrite length_app. cbn [length].
  rewrite bool_decide_eq_true_2.
  - by rewrite drop_app_length.
  - destruct stem; [done|]. simpl. lia.
Qed.

Lemma with_suffix_html dirs stem :
  stem ≠ [] → with_suffix (dirs ++ [stem ++ py ".html"]) [] = Ok (dirs ++ [stem]).
Proof.
  intros Hs. unfold with_suffix.
  rewrite bool_decide_eq_false_2 by (by intros ?%elem_of_nil).
  rewrite bool_decide_eq_false_2 by (intros [[? _]|?]; done).
  rewrite suffix_html, path_name_snoc by done.
  rewrite bool_decide_eq_false_2 by (by destruct stem).
  rewrite bool_decide_eq_false_2 by done.
  rewrite removelast_snoc, app_nil_r.
  rewrite length_app, Nat.add_sub, take_app_length. done.
Qed.

(** C6: the slug of a page is a function of its relative path alone; for a
    path whose last segment is a non-empty stem followed by [.html] it is
    the directories and the stem joined with hyphens; so [blog/post.html]
    has the slug [blog-post] and [about.html] the slug [about]. *)
Theorem page_slug_strips_extension_and_joins (dirs : path) (stem : pystr) :
  stem ≠ [] →
  page_slug (dirs ++ [stem ++ py ".html"]) = Ok (join [hyphen] (dirs ++ [stem]))
  ∧ page_slug [py "blog"; py "post.html"] = Ok (py "blog-post")
  ∧ page_slug [py "about.html"] = Ok (py "about").
Proof.
  intros Hs. split; [|split; reflexivity].
  unfold page_slug. by rewrite with_suffix_html.
Qed.

Lemma page_slug_witness :
  py "post" ≠ []
  ∧ page_slug ([py "dir"; py "subdir"] ++ [py "post" ++ py ".html"])
    = Ok (join [hyphen] ([py "dir"; py "subdir"] ++ [py "post"])).
Proof.
  split; [done|].
  apply (page_slug_strips_extension_and_joins [py "dir"; py "subdir"] (py "post")).
  done.
Defined.

Lemma NAV_ICONS_nonempty slug icon : NAV_ICONS !! slug = Some icon → icon ≠ [].
Proof.
  unfold NAV_ICONS. intros H.
  repeat (apply lookup_insert_Some in H as [[_ <-]|[_ H]]; [done|]).
  by apply lookup_singleton_Some in H as [_ <-].
Qed.

Lemma with_icon_eq slug label :
  (if bool_decide (default [] (NAV_ICONS !! slug) ≠ [])
   then default [] (NAV_ICONS !! slug) ++ [space] ++ label else label)
  = with_icon slug label.
Proof.
  unfold with_icon.
  destruct (NAV_ICONS !! slug) as [icon|] eqn:E; cbn [from_option id].
  - apply NAV_ICONS_nonempty in E. by rewrite bool_decide_eq_true_2.
  - rewrite bool_decide_eq_false_2; [done|]. by intros [].
Qed.

(** What [extract_title_label] returns on a page that can be read. *)
Lemma extract_title_label_readable fs page content :
  read_text fs page = Ok content →
  extract_title_label fs page
  = Ok (match re_search title_pattern content with
        | None => None
        | Some m => if bool_decide (strip (group1 m) = []) then None
                    else Some (title_before_dash m)
        end).
Proof.
  intros Hr. unfold extract_title_label. rewrite Hr. simpl.
  destruct (re_search title_pattern content) as [m|]; [|done].
  by case_bool_decide.
Qed.

Lemma extract_title_label_unreadable fs page e :
  read_text fs page = Raise e → extract_title_label fs page = Raise e.
Proof. intros Hr. unfold extract_title_label. by rewrite Hr. Qed.

(** The link that [nav_step] appends for a page that is not an index. *)
Lemma nav_step_link db fs nav page rel slug t :
  relative_to page PAGES_DIR = Ok rel →
  page_slug rel = Ok slug →
  path_name rel ≠ py "index.html" →
  extract_title_label fs page = Ok t →
  nav_step db fs nav page
  = Ok (nav ++ [ {| nl_id := slug;
                    nl_label := with_icon slug (py_or t (page_label db slug));
                    nl_href := as_posix rel |} ]).
Proof.
  intros Hrel Hslug Hname Ht. unfold nav_step.
  rewrite Hrel. cbn [mbind result_bind]. rewrite Hslug. cbn [mbind result_bind].
  rewrite bool_decide_eq_false_2 by done. rewrite Ht. cbn [mbind result_bind].
  cbv zeta. by rewrite with_icon_eq.
Qed.

Lemma strip_nil : strip [] = [].
Proof. reflexivity. Qed.

Lemma do_title_ascii db data i b s :
  extends_ascii db → Forall (λ c, (c < 128)%N) s →
  do_title db data i b s = do_title ascii_db data i b s.
Proof.
  intros Hdb Hs. revert i b. induction Hs as [|c s Hc Hs IH]; intros i b; simpl; [done|].
  destruct (Hdb c Hc) as (E1 & E2 & E3).
  rewrite IH, E1, E2, E3. done.
Qed.

Lemma py_or_title m d :
  py_or (if bool_decide (strip (group1 m) = []) then None
         else Some (title_before_dash m)) d
  = if bool_decide (title_before_dash m = []) then d else title_before_dash m.
Proof.
  case_bool_decide as E.
  - assert (title_before_dash m = []) as ->; [|done].
    unfold title_before_dash. by rewrite E.
  - destruct (title_before_dash m) as [|c t]; [done|].
    by rewrite bool_decide_eq_false_2.
Qed.

(** C7 (as the code has it): for a page that is not an index and whose
    title block is found, the label is the text of the block before its
    first hyphen, trimmed, whenever that text is not empty, and the label
    derived from the slug when it is empty; either is prefixed by the icon
    of the slug if it has one. A block that holds [About - Home] gives
    [About]; the slug [blog-post] gives the default label [Blog Post]. *)
Theorem title_block_overrides_unless_empty db fs nav page rel slug content m :
  relative_to page PAGES_DIR = Ok rel →
  page_slug rel = Ok slug →
  path_name rel ≠ py "index.html" →
  read_text fs page = Ok content →
  re_search title_pattern content = Some m →
  let label := if bool_decide (title_before_dash m = [])
               then page_label db slug else title_before_dash m in
  nav_step db fs nav page
  = Ok (nav ++ [ {| nl_id := slug; nl_label := with_icon slug label;
                    nl_href := as_posix rel |} ])
  ∧ (NAV_ICONS !! slug = None → with_icon slug label = label)
  ∧ extract_title_label site6 (PAGES_DIR ++ [py "team.html"]) = Ok (Some (py "About"))
  ∧ (extends_ascii db → page_label db (py "blog-post") = py "Blog Post").
Proof.
  intros Hrel Hslug Hname Hread Hm label. split; [|split; [|split]].
  - erewrite nav_step_link; [|done..|by apply extract_title_label_readable].
    rewrite Hm. by rewrite py_or_title.
  - intros Hi. unfold with_icon. by rewrite Hi.
  - vm_compute. reflexivity.
  - intros Hdb. unfold page_label, title.
    rewrite do_title_ascii; [reflexivity|done|].
    by repeat constructor.
Qed.

Lemma title_block_overrides_witness :
  nav_step ascii_db site6 [] (PAGES_DIR ++ [py "team.html"])
  = Ok [ {| nl_id := py "team"; nl_label := py "About"; nl_href := py "team.html" |} ].
Proof.
  refine (proj1 (title_block_overrides_unless_empty ascii_db site6 []
            (PAGES_DIR ++ [py "team.html"]) [py "team.html"] (py "team")
            _ [py "About - Home"] _ _ _ _ _)).
  - reflexivity.
  - reflexivity.
  - discriminate.
  - vm_compute. reflexivity.
  - vm_compute. reflexivity.
Defined.

(** C7, as it was stated, fails: a title block that is found and not
    empty, but starts with the hyphen, leaves the label derived from the
    slug. *)
Lemma title_block_does_not_always_override :
  ¬ title_block_always_overrides ascii_db.
Proof.
  intros H.
  specialize (H site5 (PAGES_DIR ++ [py "news.html"])
                (py "{% block title %}- Home{% endblock %}")
                [py "- Home"]
                {| nl_id := py "news"; nl_label := py "News"; nl_href := py "news.html" |}).
  vm_compute in H. discriminate H; reflexivity || (intros ?; discriminate).
Qed.

(** C3, as it was stated, fails: the extraction raises on a page that is
    not valid UTF-8. *)
Lemma extract_title_label_can_raise : ¬ extraction_never_raises.
Proof.
  intros H. destruct (H site4 (PAGES_DIR ++ [py "about.html"])) as [o Ho].
  vm_compute in Ho. discriminate Ho.
Qed.

(** ** The order of the discovered pages *)

Global Instance path_lt_strict : StrictOrder path_lt.
Proof. unfold path_lt. apply _. Qed.

Lemma path_lt_trichotomy (p q : path) : path_lt p q ∨ p = q ∨ path_lt q p.
Proof. unfold path_lt. apply (trichotomy lexico). Qed.

Global Instance path_le_total : Total path_le.
Proof.
  intros p q. unfold path_le.
  destruct (path_lt_trichotomy p q) as [H|[->|H]].
  - left. intros H'. by apply (irreflexivity path_lt p); etrans.
  - left. apply irreflexivity, _.
  - right. intros H'. by apply (irreflexivity path_lt p); etrans.
Qed.

Global Instance path_le_trans : Transitive path_le.
Proof.
  intros p q r Hpq Hqr Hrp. unfold path_le in *.
  destruct (path_lt_trichotomy p q) as [H|[->|H]]; [|done..].
  apply Hqr. by etrans.
Qed.

Lemma path_le_ne_lt p q : path_le p q → p ≠ q → path_lt p q.
Proof.
  intros Hle Hne. by destruct (path_lt_trichotomy p q) as [H|[->|H]].
Qed.

Lemma StronglySorted_strict l :
  StronglySorted path_le l → NoDup l → StronglySorted path_lt l.
Proof.
  induction 1 as [|x l' Hs IH Hall]; intros Hnd; [constructor|].
  apply NoDup_cons in Hnd as [Hx Hnd]. constructor; [by apply IH|].
  rewrite Forall_forall in Hall |- *. intros y Hy.
  apply path_le_ne_lt; [by apply Hall|]. by intros ->.
Qed.

Lemma sorted_strict l : NoDup l → StronglySorted path_lt (sorted l).
Proof.
  intros Hnd. apply StronglySorted_strict.
  - apply StronglySorted_merge_sort; apply _.
  - unfold sorted. by rewrite merge_sort_Permutation.
Qed.

Lemma relative_to_Ok p base rel : relative_to p base = Ok rel ↔ p = base ++ rel.
Proof.
  revert p. induction base as [|b base IH]; intros p; simpl.
  - destruct p; simpl; (split; [by intros [= ->]|by intros ->]).
  - destruct p as [|x p]; simpl; [done|].
    case_bool_decide as E.
    + subst x. rewrite IH. split; [by intros ->|by intros [= ->]].
    + split; [done|]. intros [= -> _]. done.
Qed.

Lemma below_Some base p rel :
  below base p = Some rel ↔ p = base ++ rel ∧ rel ≠ [].
Proof.
  unfold below. destruct (relative_to p base) as [[|x r]|e] eqn:E.
  - apply relative_to_Ok in E. split; [done|]. intros [-> ?].
    rewrite app_nil_r in E. apply (f_equal length) in E.
    rewrite length_app in E. destruct rel; [done|simpl in E; lia].
  - apply relative_to_Ok in E. split.
    + by intros [= <-].
    + intros [-> ?]. by apply app_inv_head in E as <-.
  - split; [done|]. intros [-> _].
    assert (relative_to (base ++ rel) base = Ok rel) as H by by apply relative_to_Ok.
    congruence.
Qed.

(** ** The navigation list *)

Lemma elem_of_rglob fs base ext p :
  p ∈ rglob fs base ext
  ↔ is_dir fs base = true ∧ is_Some (fs !! p) ∧ rglob_match fs base ext p = true.
Proof.
  unfold rglob. destruct (is_dir fs base).
  - rewrite list_elem_of_fmap. split.
    + intros ([k e] & -> & H). apply elem_of_map_to_list in H.
      apply map_lookup_filter_Some in H as [Hl Hm]. simpl in *.
      split; [done|]. split; [by eexists|]. by apply Is_true_true.
    + intros (_ & [e He] & Hm). exists (p, e). split; [done|].
      apply elem_of_map_to_list. apply map_lookup_filter_Some.
      split; [done|]. simpl. by rewrite Hm.
  - split; [by intros ?%elem_of_nil|]. by intros [? _].
Qed.

Lemma NoDup_rglob fs base ext : NoDup (rglob fs base ext).
Proof.
  unfold rglob. destruct (is_dir fs base); [|constructor].
  apply NoDup_fst_map_to_list.
Qed.

Lemma discover_pages_Ok fs discovered :
  discover_pages fs = Ok discovered →
  path_exists fs PAGES_DIR = true
  ∧ discovered = sorted (rglob fs PAGES_DIR (py ".html")).
Proof.
  unfold discover_pages. destruct (path_exists fs PAGES_DIR); simpl; [|done].
  by intros [= <-].
Qed.

Lemma path_name_relative p rel :
  relative_to p PAGES_DIR = Ok rel →
  path_name rel = py "index.html" ↔ path_name p = py "index.html".
Proof.
  intros ->%relative_to_Ok. unfold path_name. rewrite last_app.
  destruct (last rel) eqn:E; [done|]. by split.
Qed.

Lemma nav_step_cases db fs nav p nav' :
  nav_step db fs nav p = Ok nav' →
  (path_name p = py "index.html" ∧ nav' = nav)
  ∨ (path_name p ≠ py "index.html"
     ∧ ∃ link, nav' = nav ++ [link] ∧ links_page link p).
Proof.
  unfold nav_step.
  destruct (relative_to p PAGES_DIR) as [rel|] eqn:Hrel; [|done].
  cbn [mbind result_bind].
  destruct (page_slug rel) as [slug|] eqn:Hslug; [|done].
  cbn [mbind result_bind].
  pose proof (path_name_relative _ _ Hrel) as Hn.
  case_bool_decide as E.
  - intros [= <-]. left. split; [by apply Hn|done].
  - destruct (extract_title_label fs p) as [t|]; [|done].
    cbn [mbind result_bind]. cbv zeta. intros [= <-]. right.
    split; [by rewrite <-Hn|]. eexists. split; [done|].
    exists rel. done.
Qed.

Lemma build_nav_spec db fs l nav nav' :
  build_nav db fs nav l = Ok nav' →
  ∃ links, nav' = nav ++ links
           ∧ Forall2 links_page links
               (filter (λ p, path_name p ≠ py "index.html") l).
Proof.
  revert nav. induction l as [|p l IH]; intros nav; simpl.
  - intros [= <-]. exists []. by rewrite app_nil_r.
  - destruct (nav_step db fs nav p) as [nav1|] eqn:Hstep; [|done].
    cbn [mbind result_bind]. intros (links & -> & HF)%IH.
    apply nav_step_cases in Hstep as [[Hi ->]|[Hi (link & -> & Hl)]].
    + exists links. split; [done|]. by rewrite filter_cons_False by (by intros []).
    + exists (link :: links). rewrite <-app_assoc. split; [done|].
      rewrite filter_cons_True by done. by constructor.
Qed.

(** C1 (as the code has it): the pages found are the entries below the
    pages root whose name ends in [.html], each once, in the order of
    their paths; the navigation list has, in that order, one link for
    every page found whose file name is not [index.html], and none for the
    others. *)
Theorem nav_lists_every_page_but_indexes db fs discovered nav :
  discover_pages fs = Ok discovered →
  build_nav db fs [] discovered = Ok nav →
  Forall2 links_page nav (filter (λ p, path_name p ≠ py "index.html") discovered)
  ∧ NoDup discovered
  ∧ StronglySorted path_lt discovered
  ∧ ∀ p, p ∈ discovered
         ↔ is_Some (fs !! p) ∧ rglob_match fs PAGES_DIR (py ".html") p = true.
Proof.
  intros [Hex ->]%discover_pages_Ok Hnav.
  apply build_nav_spec in Hnav as (links & -> & HF).
  split; [done|]. split; [|split].
  - unfold sorted. rewrite merge_sort_Permutation. apply NoDup_rglob.
  - apply sorted_strict, NoDup_rglob.
  - intros p. unfold sorted. rewrite merge_sort_Permutation, elem_of_rglob.
    split; [by intros (_ & ? & ?)|]. intros [[e He] Hm]. split; [|by eauto].
    unfold rglob_match in Hm.
    destruct (below PAGES_DIR p) as [rel|] eqn:Hb; [|done].
    apply below_Some in Hb as [-> Hne].
    apply andb_true_iff in Hm as [Hw _]. unfold walkable in Hw.
    destruct rel as [|x rel]; [done|]. simpl in Hw.
    apply andb_true_iff in Hw as [Hw _]. exact Hw.
Qed.

Lemma nav_lists_every_page_but_indexes_witness :
  Forall2 links_page
    [ {| nl_id := py "about"; nl_label := 0x1F464%N :: py " About";
         nl_href := py "about.html" |} ]
    [ PAGES_DIR ++ [py "about.html"] ].
Proof.
  refine (proj1 (nav_lists_every_page_but_indexes ascii_db site2
    [ PAGES_DIR ++ [py "about.html"]; PAGES_DIR ++ [py "blog"; py "index.html"];
      PAGES_DIR ++ [py "index.html"] ] _ _ _)).
  - vm_compute. reflexivity.
  - vm_compute. reflexivity.
Defined.

(** C1, as it was stated, fails: the index page of a subdirectory is not
    the entry point, and it is left out of the navigation list as well. *)
Lemma nav_excludes_nested_index : ¬ nav_excludes_only_entry_point ascii_db.
Proof.
  intros H.
  destruct (H site2 _ _ eq_refl eq_refl (PAGES_DIR ++ [py "blog"; py "index.html"]))
    as (link & Hin & rel & Hrel & Hslug & Hhref).
  - vm_compute. set_solver.
  - discriminate.
  - apply relative_to_Ok in Hrel. apply (inj (app PAGES_DIR)) in Hrel as <-.
    vm_compute in Hin. apply list_elem_of_singleton in Hin as ->.
    vm_compute in Hslug. discriminate Hslug.
Qed.

(** ** What the builder changes *)

Lemma build_frame_refl fs : fs !! BUILD_DIR = Some Dir → build_frame fs fs.
Proof. by split. Qed.

Lemma build_frame_trans fs1 fs2 fs3 :
  build_frame fs1 fs2 → build_frame fs2 fs3 → build_frame fs1 fs3.
Proof.
  intros [_ H1] [Hb H2]. split; [done|]. intros k Hk. by rewrite H2, H1.
Qed.

Lemma keeps_ret {A} (a : A) : keeps_to_build (mret a).
Proof. intros fs ?. by apply build_frame_refl. Qed.

Lemma keeps_lift {A} (r : result A) : keeps_to_build (lift r).
Proof. intros fs ?. by apply build_frame_refl. Qed.

Lemma keeps_reads {A} (f : filesystem → result A) : keeps_to_build (reads f).
Proof. intros fs ?. by apply build_frame_refl. Qed.

Lemma keeps_bind {A B} (m : M A) (f : A → M B) :
  keeps_to_build m → (∀ a, keeps_to_build (f a)) → keeps_to_build (m ≫= f).
Proof.
  intros Hm Hf fs Hfs. specialize (Hm fs Hfs).
  unfold mbind, M_bind. destruct (m fs) as [[a|e] fs1]; simpl in *; [|done].
  eapply build_frame_trans; [done|]. apply Hf, Hm.
Qed.

Lemma keeps_for_each {A} (body : A → M unit) l :
  (∀ x, keeps_to_build (body x)) → keeps_to_build (for_each body l).
Proof.
  intros Hb. induction l as [|x l IH]; simpl; [apply keeps_ret|].
  apply keeps_bind; [apply Hb|done].
Qed.

(** [mkdir_from] only makes directories where there was nothing, on the
    way from [made] down. *)
Lemma mkdir_from_lookup made todo fs k :
  (mkdir_from made todo fs).2 !! k = fs !! k
  ∨ (fs !! k = None ∧ (mkdir_from made todo fs).2 !! k = Some Dir
     ∧ ∃ x rest, todo = x :: rest ∧ (made ++ [x]) `prefix_of` k).
Proof.
  revert made fs. induction todo as [|seg todo IH]; intros made fs; simpl; [by left|].
  destruct (fs !! (made ++ [seg])) as [[c|]|] eqn:E; simpl; [by left| |].
  - destruct (IH (made ++ [seg]) fs) as [H|(Hn & Hd & x & rest & -> & Hp)]; [by left|].
    right. split; [done|]. split; [done|]. exists seg, (x :: rest). split; [done|].
    etrans; [|done]. by apply prefix_app_r.
  - destruct (IH (made ++ [seg]) (<[made ++ [seg] := Dir]> fs))
      as [H|(Hn & Hd & x & rest & -> & Hp)].
    + rewrite H. destruct (decide (k = made ++ [seg])) as [->|Hne].
      * right. rewrite lookup_insert_eq. split; [done|]. split; [done|].
        by exists seg, todo.
      * left. by rewrite lookup_insert_ne.
    + right. destruct (decide (k = made ++ [seg])) as [->|Hne].
      * by rewrite lookup_insert_eq in Hn.
      * rewrite lookup_insert_ne in Hn by done. split; [done|]. split; [done|].
        exists seg, (x :: rest). split; [done|].
        etrans; [|done]. by apply prefix_app_r.
Qed.

Lemma keeps_mkdir_parents x : keeps_to_build (mkdir_parents (BUILD_DIR ++ x)).
Proof.
  intros fs Hfs. unfold mkdir_parents. split.
  - destruct (mkdir_from_lookup ROOT (BUILD_DIR ++ x) fs BUILD_DIR)
      as [->|(Hn&_)]; [done|congruence].
  - intros k Hk.
    destruct (mkdir_from_lookup ROOT (BUILD_DIR ++ x) fs k)
      as [->|(_ & _ & y & rest & [= <- _] & Hp)]; [done|].
    by destruct Hk.
Qed.

Lemma keeps_mkdir_root : keeps_to_build (mkdir_parents ROOT).
Proof. intros fs ?. by apply build_frame_refl. Qed.

Lemma write_text_lookup p data fs k :
  k ≠ p → (write_text p data fs).2 !! k = fs !! k.
Proof.
  intros Hne. unfold write_text.
  repeat (case_match; simpl; try done). by rewrite lookup_insert_ne.
Qed.

Lemma write_text_Dir p data fs :
  fs !! p = Some Dir → (write_text p data fs).2 = fs.
Proof.
  intros Hp. unfold write_text, is_dir. rewrite Hp.
  rewrite (bool_decide_eq_true_2 (Some Dir = Some Dir)) by done.
  by rewrite orb_true_r.
Qed.

Lemma keeps_write_text rel data :
  keeps_to_build (write_text (BUILD_DIR ++ rel) data).
Proof.
  intros fs Hfs. destruct rel as [|x rel].
  - rewrite app_nil_r, write_text_Dir by done. by apply build_frame_refl.
  - split.
    + rewrite write_text_lookup; [done|]. discriminate.
    + intros k Hk. rewrite write_text_lookup; [done|].
      intros ->. apply Hk. by apply prefix_app_r.
Qed.

(** The copy of an entry changes the file system below [dst] only. *)
Lemma copy_entry_lookup fs0 src dst acc kv k :
  ¬ dst `prefix_of` k →
  (copy_entry fs0 src dst acc kv).2 !! k = acc.2 !! k.
Proof.
  intros Hk. unfold copy_entry. destruct acc as [errors fs]. simpl.
  destruct (below src kv.1) as [rel|]; [|done].
  destruct (negb _ || _); [done|].
  assert (∀ y e, <[dst ++ y := e]> fs !! k = fs !! k) as Hins.
  { intros y e. rewrite lookup_insert_ne; [done|].
    intros <-. apply Hk. by apply prefix_app_r. }
  repeat (case_match; simpl; try done); by rewrite Hins.
Qed.

Lemma copy_fold_lookup fs0 src dst kvs acc k :
  ¬ dst `prefix_of` k →
  (foldl (copy_entry fs0 src dst) acc kvs).2 !! k = acc.2 !! k.
Proof.
  intros Hk. revert acc. induction kvs as [|kv kvs IH]; intros acc; simpl; [done|].
  by rewrite IH, copy_entry_lookup.
Qed.

Lemma keeps_copytree src x : keeps_to_build (copytree src (BUILD_DIR ++ [x])).
Proof.
  intros fs Hfs. unfold copytree.
  destruct (fs !! src) as [[c|]|]; [by apply build_frame_refl| |by apply build_frame_refl].
  pose proof (keeps_mkdir_parents [x] fs Hfs) as Hmk.
  destruct (mkdir_parents (BUILD_DIR ++ [x]) fs) as [[u|e] fs0]; simpl in *; [|done].
  pose proof (copy_fold_lookup fs0 src (BUILD_DIR ++ [x]) (map_to_list fs0) ([], fs0)) as Hf.
  destruct (foldl _ _ _) as [errors fs']. simpl in Hf.
  assert (build_frame fs0 fs') as Hfr.
  { destruct Hmk as [Hb _]. split.
    - rewrite Hf; [done|]. intros Hp%prefix_length. simpl in Hp. lia.
    - intros k Hk. apply Hf. intros Hp. apply Hk.
      etrans; [|done]. by exists [x]. }
  destruct errors; simpl; by eapply build_frame_trans.
Qed.

Lemma keeps_copy_static_files : keeps_to_build copy_static_files.
Proof.
  intros fs Hfs. unfold copy_static_files.
  destruct (negb _); [by apply build_frame_refl|].
  by apply keeps_copytree.
Qed.

Lemma keeps_render_page jinja env ctx page :
  keeps_to_build (render_page jinja env ctx page).
Proof.
  unfold render_page.
  apply keeps_bind; [apply keeps_lift|]. intros rel.
  apply keeps_bind; [apply keeps_lift|]. intros slug.
  apply keeps_bind; [apply keeps_reads|]. intros html.
  apply keeps_bind; [|intros _; apply keeps_write_text].
  destruct rel as [|x rel _] using rev_ind.
  - apply keeps_mkdir_root.
  - unfold parent. rewrite app_assoc, removelast_last. apply keeps_mkdir_parents.
Qed.

Lemma keeps_render_pages db jinja env y :
  keeps_to_build (render_pages db jinja env y).
Proof.
  unfold render_pages.
  apply keeps_bind; [apply keeps_reads|]. intros [|p l]; [apply keeps_lift|].
  apply keeps_bind; [apply keeps_reads|]. intros nav.
  apply keeps_for_each. intros page. by apply keeps_render_page.
Qed.

(** ** The clean step *)

Lemma BUILD_DIR_not_ROOT : BUILD_DIR ≠ ROOT.
Proof. discriminate. Qed.

Lemma outside_build_lookup fs k :
  outside_build fs !! k = if decide (BUILD_DIR `prefix_of` k) then None else fs !! k.
Proof.
  unfold outside_build. rewrite map_lookup_filter.
  destruct (fs !! k) as [e|]; simpl; case_decide; try done.
  - by rewrite option_guard_False by (by intros []).
  - by rewrite option_guard_True.
Qed.

Lemma mkdir_parents_single x fs :
  mkdir_parents [x] fs
  = match fs !! [x] with
    | Some Dir => (Ok (), fs)
    | Some (File _) => (Raise (FileExistsError [x]), fs)
    | None => (Ok (), <[[x] := Dir]> fs)
    end.
Proof.
  unfold mkdir_parents. cbn [mkdir_from]. change (ROOT ++ [x]) with [x].
  by destruct (fs !! [x]) as [[?|]|].
Qed.

Lemma clean_build_directory_eq fs :
  clean_build_directory fs
  = match fs !! BUILD_DIR with
    | Some (File _) => (Raise (NotADirectoryError BUILD_DIR), fs)
    | Some Dir => (Ok (), <[BUILD_DIR := Dir]> (outside_build fs))
    | None => (Ok (), <[BUILD_DIR := Dir]> fs)
    end.
Proof.
  transitivity
    (match (if path_exists fs BUILD_DIR then rmtree BUILD_DIR fs else (Ok (), fs)) with
     | (Ok _, fs') => mkdir_parents [py "build"] fs'
     | (Raise e, fs') => (Raise e, fs')
     end); [reflexivity|].
  unfold path_exists, rmtree.
  rewrite (bool_decide_eq_false_2 (BUILD_DIR = ROOT)) by discriminate.
  cbn [orb].
  destruct (fs !! BUILD_DIR) as [[c|]|] eqn:E.
  - rewrite bool_decide_eq_true_2 by (by eexists). done.
  - rewrite bool_decide_eq_true_2 by (by eexists).
    fold (outside_build fs). rewrite mkdir_parents_single.
    change [py "build"] with BUILD_DIR.
    rewrite outside_build_lookup. by rewrite decide_True by done.
  - rewrite bool_decide_eq_false_2 by (by intros [? ?]).
    rewrite mkdir_parents_single. change [py "build"] with BUILD_DIR.
    by rewrite E.
Qed.

(** Below a path that does not exist there is nothing. *)
Lemma well_formed_below_None fs d ext :
  well_formed fs → d ≠ ROOT → fs !! d = None → fs !! (d ++ ext) = None.
Proof.
  intros Hwf Hd Hn. induction ext as [|x ext IH] using rev_ind.
  - by rewrite app_nil_r.
  - destruct (fs !! (d ++ ext ++ [x])) as [e|] eqn:E; [|done].
    apply Hwf in E as [_ Hp]. simpl in Hp.
    unfold parent, is_dir in Hp. rewrite app_assoc, removelast_last, IH in Hp.
    rewrite !bool_decide_eq_false_2 in Hp; [done..|].
    intros H. apply Hd. by destruct d.
Qed.

Lemma outside_build_absent fs :
  well_formed fs → fs !! BUILD_DIR = None → outside_build fs = fs.
Proof.
  intros Hwf Hn. apply map_eq. intros k. rewrite outside_build_lookup.
  case_decide as Hp; [|done]. destruct Hp as [ext ->].
  symmetry. by apply well_formed_below_None.
Qed.

(** What the clean step leaves, if the output path is not a regular
    file. *)
Lemma clean_build_directory_Ok fs :
  well_formed fs → (∀ c, fs !! BUILD_DIR ≠ Some (File c)) →
  clean_build_directory fs = (Ok (), <[BUILD_DIR := Dir]> (outside_build fs)).
Proof.
  intros Hwf Hnf. rewrite clean_build_directory_eq.
  destruct (fs !! BUILD_DIR) as [[c|]|] eqn:E; [by destruct (Hnf c)|done|].
  by rewrite outside_build_absent.
Qed.

Lemma outside_build_frame fs fs' :
  (∀ k, ¬ BUILD_DIR `prefix_of` k → fs' !! k = fs !! k) →
  outside_build fs' = outside_build fs.
Proof.
  intros H. apply map_eq. intros k. rewrite !outside_build_lookup.
  case_decide; [done|]. by apply H.
Qed.

Lemma outside_build_idemp fs : outside_build (outside_build fs) = outside_build fs.
Proof.
  apply outside_build_frame. intros k Hk. rewrite outside_build_lookup.
  by rewrite decide_False.
Qed.

Lemma outside_build_insert fs e :
  outside_build (<[BUILD_DIR := e]> fs) = outside_build fs.
Proof.
  apply outside_build_frame. intros k Hk. rewrite lookup_insert_ne; [done|].
  by intros <-.
Qed.

Lemma main_eq db jinja y fs :
  main db jinja y fs
  = match clean_build_directory fs with
    | (Ok _, fs') => (copy_static_files ;; render_pages db jinja load_env y) fs'
    | (Raise e, fs') => (Raise e, fs')
    end.
Proof. reflexivity. Qed.

Lemma keeps_build_steps db jinja y :
  keeps_to_build (copy_static_files ;; render_pages db jinja load_env y).
Proof.
  apply keeps_bind; [apply keeps_copy_static_files|].
  intros _. apply keeps_render_pages.
Qed.

(** A build leaves the output directory in place and nothing changed
    outside of it, whatever its outcome. *)
Lemma main_frame db jinja y fs :
  well_formed fs → (∀ c, fs !! BUILD_DIR ≠ Some (File c)) →
  build_frame fs (main db jinja y fs).2.
Proof.
  intros Hwf Hnf. rewrite main_eq, clean_build_directory_Ok by done.
  pose proof (keeps_build_steps db jinja y (<[BUILD_DIR:=Dir]> (outside_build fs))) as [Hb Ho].
  { by rewrite lookup_insert_eq. }
  split; [done|]. intros k Hk. rewrite Ho by done.
  rewrite lookup_insert_ne by (by intros <-).
  rewrite outside_build_lookup. by rewrite decide_False.
Qed.

Lemma well_formed_site1 : well_formed site1.
Proof. apply (bool_decide_unpack _). vm_compute. exact I. Qed.

(** C8: whatever the output directory held, if it is a directory or is
    not there: the clean step succeeds and leaves it as an empty
    directory, with everything outside of it as it was; cleaning again
    changes nothing; and the whole build gives what it gives when there is
    no output directory to start with, so that a path below the output
    directory that such a build leaves empty is empty after the build,
    whatever was there before. *)
Theorem build_forgets_prior_output db jinja y fs :
  well_formed fs →
  (∀ c, fs !! BUILD_DIR ≠ Some (File c)) →
  let cleaned := clean_build_directory fs in
  cleaned.1 = Ok ()
  ∧ cleaned.2 !! BUILD_DIR = Some Dir
  ∧ (∀ k, BUILD_DIR `prefix_of` k → k ≠ BUILD_DIR → cleaned.2 !! k = None)
  ∧ (∀ k, ¬ BUILD_DIR `prefix_of` k → cleaned.2 !! k = fs !! k)
  ∧ clean_build_directory cleaned.2 = cleaned
  ∧ main db jinja y fs = main db jinja y (outside_build fs)
  ∧ (∀ k, BUILD_DIR `prefix_of` k →
          (main db jinja y (outside_build fs)).2 !! k = None →
          (main db jinja y fs).2 !! k = None).
Proof.
  intros Hwf Hnf cleaned.
  assert (cleaned = (Ok (), <[BUILD_DIR := Dir]> (outside_build fs))) as Hc
    by by apply clean_build_directory_Ok.
  assert (main db jinja y fs = main db jinja y (outside_build fs)) as Hmain.
  { rewrite !main_eq. fold cleaned. rewrite Hc.
    rewrite (clean_build_directory_eq (outside_build fs)).
    rewrite outside_build_lookup, decide_True by done. done. }
  rewrite Hc. cbn [fst snd]. split; [done|]. split; [by rewrite lookup_insert_eq|].
  split; [|split; [|split; [|split]]].
  - intros k Hk Hne. rewrite lookup_insert_ne by done.
    rewrite outside_build_lookup. by rewrite decide_True.
  - intros k Hk. rewrite lookup_insert_ne by (by intros <-).
    rewrite outside_build_lookup. by rewrite decide_False.
  - rewrite clean_build_directory_eq, lookup_insert_eq.
    by rewrite outside_build_insert, outside_build_idemp.
  - done.
  - intros k _. by rewrite Hmain.
Qed.

Lemma build_forgets_prior_output_witness :
  site1 !! (BUILD_DIR ++ [py "stray.txt"]) = Some (File (Text (py "left over")))
  ∧ (main ascii_db mini_jinja 2025 site1).1 = Ok ()
  ∧ (main ascii_db mini_jinja 2025 site1).2 !! (BUILD_DIR ++ [py "stray.txt"]) = None.
Proof.
  split; [vm_compute; reflexivity|]. split; [vm_compute; reflexivity|].
  refine (proj2 (proj2 (proj2 (proj2 (proj2 (proj2
    (build_forgets_prior_output ascii_db mini_jinja 2025 site1 _ _))))))
    (BUILD_DIR ++ [py "stray.txt"]) _ _).
  - apply (bool_decide_unpack _). vm_compute. exact I.
  - intros c. vm_compute. discriminate.
  - by eexists.
  - vm_compute. reflexivity.
Defined.

(** C5 (as the code has it): a build that follows a build, with the
    inputs unchanged and in the same calendar year, ends as the first one
    did and leaves the file system as the first one left it, the output
    directory byte for byte. *)
Theorem rebuild_in_same_year_is_identical db jinja y fs :
  well_formed fs →
  main db jinja y (main db jinja y fs).2 = main db jinja y fs.
Proof.
  intros Hwf.
  destruct (fs !! BUILD_DIR) as [[c|]|] eqn:E.
  { assert (main db jinja y fs = (Raise (NotADirectoryError BUILD_DIR), fs)) as Hm.
    { by rewrite main_eq, clean_build_directory_eq, E. }
    by rewrite Hm. }
  all: assert (∀ c, fs !! BUILD_DIR ≠ Some (File c)) as Hnf by (by rewrite E).
  all: pose proof (main_frame db jinja y fs Hwf Hnf) as [Hb Ho].
  all: rewrite (main_eq _ _ _ (main db jinja y fs).2).
  all: rewrite clean_build_directory_eq, Hb.
  all: rewrite (outside_build_frame fs) by done.
  all: by rewrite main_eq, clean_build_directory_Ok.
Qed.

Lemma rebuild_in_same_year_is_identical_witness :
  main ascii_db mini_jinja 2025 (main ascii_db mini_jinja 2025 site1).2
  = main ascii_db mini_jinja 2025 site1.
Proof.
  apply (rebuild_in_same_year_is_identical ascii_db mini_jinja 2025 site1).
  apply (bool_decide_unpack _). vm_compute. exact I.
Defined.

(** C5, as it was stated, fails: [current_year] is read from the clock at
    each build, and a page that shows it differs when the year has
    changed between two builds. *)
Lemma rebuild_differs_across_new_year : ¬ rebuild_always_identical ascii_db mini_jinja.
Proof.
  intros H. specialize (H 2025%Z 2026%Z site1 well_formed_site1).
  apply (f_equal (λ m, m !! (BUILD_DIR ++ [py "index.html"]))) in H.
  vm_compute in H. discriminate H.
Qed.

(** ** Missing and empty input *)

Lemma relative_to_raises p base e :
  relative_to p base = Raise e → is_RuntimeError e = false.
Proof.
  revert p. induction base as [|b base IH]; intros [|x p]; simpl; try done.
  - by intros [= <-].
  - case_bool_decide; [apply IH|by intros [= <-]].
Qed.

Lemma page_slug_raises rel e : page_slug rel = Raise e → is_RuntimeError e = false.
Proof.
  unfold page_slug. destruct (with_suffix rel []) as [parts|e'] eqn:E; simpl; [done|].
  intros [= <-]. unfold with_suffix in E.
  repeat case_bool_decide; by simplify_eq.
Qed.

Lemma read_text_raises fs p e : read_text fs p = Raise e → is_RuntimeError e = false.
Proof.
  unfold read_text. repeat (case_match; simpl; try done); by intros [= <-].
Qed.

Lemma extract_title_label_raises fs p e :
  extract_title_label fs p = Raise e → is_RuntimeError e = false.
Proof.
  unfold extract_title_label.
  destruct (read_text fs p) as [c|e'] eqn:E; simpl.
  - repeat (case_match; simpl; try done).
  - intros [= <-]. by eapply read_text_raises.
Qed.

Lemma nav_step_raises db fs nav p e :
  nav_step db fs nav p = Raise e → is_RuntimeError e = false.
Proof.
  unfold nav_step.
  destruct (relative_to p PAGES_DIR) as [rel|e1] eqn:E1; cbn [mbind result_bind];
    [|intros [= <-]; by eapply relative_to_raises].
  destruct (page_slug rel) as [slug|e2] eqn:E2; cbn [mbind result_bind];
    [|intros [= <-]; by eapply page_slug_raises].
  case_bool_decide; [done|].
  destruct (extract_title_label fs p) as [t|e3] eqn:E3; cbn [mbind result_bind];
    [done|intros [= <-]; by eapply extract_title_label_raises].
Qed.

Lemma build_nav_raises db fs l nav e :
  build_nav db fs nav l = Raise e → is_RuntimeError e = false.
Proof.
  revert nav. induction l as [|p l IH]; intros nav; simpl; [done|].
  destruct (nav_step db fs nav p) as [nav'|e'] eqn:E; cbn [mbind result_bind].
  - apply IH.
  - intros [= <-]. by eapply nav_step_raises.
Qed.

Lemma no_RuntimeError_bind {A B} (m : M A) (f : A → M B) :
  no_RuntimeError m → (∀ a, no_RuntimeError (f a)) → no_RuntimeError (m ≫= f).
Proof.
  intros Hm Hf fs e. unfold mbind, M_bind.
  destruct (m fs) as [[a|e'] fs'] eqn:E; simpl.
  - apply Hf.
  - intros [= <-]. apply (Hm fs). by rewrite E.
Qed.

Lemma no_RuntimeError_ret {A} (a : A) : no_RuntimeError (mret a).
Proof. by intros fs e. Qed.

Lemma no_RuntimeError_for_each {A} (body : A → M unit) l :
  (∀ x, no_RuntimeError (body x)) → no_RuntimeError (for_each body l).
Proof.
  intros Hb. induction l as [|x l IH]; simpl; [apply no_RuntimeError_ret|].
  apply no_RuntimeError_bind; [apply Hb|done].
Qed.

Lemma no_RuntimeError_mkdir_from pre todo : no_RuntimeError (mkdir_from pre todo).
Proof.
  revert pre. induction todo as [|seg todo IH]; intros pre fs e; simpl; [done|].
  destruct (fs !! (pre ++ [seg])) as [[c|]|]; simpl; [|apply IH..].
  intros [= <-]. by destruct todo.
Qed.

Lemma no_RuntimeError_write_text p data : no_RuntimeError (write_text p data).
Proof.
  intros fs e. unfold write_text.
  repeat (case_match; simpl; try done); by intros [= <-].
Qed.

Lemma no_RuntimeError_render_page jinja env ctx page :
  no_RuntimeError (render_page jinja env ctx page).
Proof.
  unfold render_page.
  apply no_RuntimeError_bind.
  { intros fs e. unfold lift. simpl. apply relative_to_raises. }
  intros rel. apply no_RuntimeError_bind.
  { intros fs e. unfold lift. simpl. apply page_slug_raises. }
  intros slug. apply no_RuntimeError_bind.
  { intros fs e. unfold reads. simpl. case_match; [by intros [= <-]|done]. }
  intros html. apply no_RuntimeError_bind.
  { apply no_RuntimeError_mkdir_from. }
  intros _. apply no_RuntimeError_write_text.
Qed.

(** What is found below the pages root depends on nothing outside of
    it. *)
Lemma PAGES_not_in_BUILD rel : ¬ BUILD_DIR `prefix_of` PAGES_DIR ++ rel.
Proof. intros [k Hk]. discriminate Hk. Qed.

Lemma rglob_match_frame fs fs' ext p :
  (∀ k, ¬ BUILD_DIR `prefix_of` k → fs' !! k = fs !! k) →
  rglob_match fs' PAGES_DIR ext p = rglob_match fs PAGES_DIR ext p.
Proof.
  intros H. unfold rglob_match. destruct (below PAGES_DIR p) as [rel|]; [|done].
  f_equal. unfold walkable. apply forallb_pointwise. intros i.
  unfold is_dir. by rewrite H by apply PAGES_not_in_BUILD.
Qed.

Lemma rglob_frame fs fs' ext :
  (∀ k, ¬ BUILD_DIR `prefix_of` k → fs' !! k = fs !! k) →
  rglob fs' PAGES_DIR ext = rglob fs PAGES_DIR ext.
Proof.
  intros H. unfold rglob.
  assert (is_dir fs' PAGES_DIR = is_dir fs PAGES_DIR) as ->.
  { unfold is_dir. by rewrite (H PAGES_DIR) by apply (PAGES_not_in_BUILD []). }
  destruct (is_dir fs PAGES_DIR); [|done].
  assert (filter (λ kv, rglob_match fs' PAGES_DIR ext kv.1) fs'
          = filter (λ kv, rglob_match fs PAGES_DIR ext kv.1) fs) as ->; [|done].
  apply map_filter_strong_ext_1. intros p e. cbn [fst].
  rewrite (rglob_match_frame fs fs') by done.
  split; intros [Hm Hl]; (split; [done|]).
  all: pose proof Hm as Hm'; apply Is_true_true in Hm'.
  all: unfold rglob_match in Hm'.
  all: destruct (below PAGES_DIR p) as [rel|] eqn:Hb; [|done].
  all: apply below_Some in Hb as [-> _].
  - by rewrite <-H by apply PAGES_not_in_BUILD.
  - by rewrite H by apply PAGES_not_in_BUILD.
Qed.

Lemma path_exists_frame fs fs' :
  (∀ k, ¬ BUILD_DIR `prefix_of` k → fs' !! k = fs !! k) →
  path_exists fs' PAGES_DIR = path_exists fs PAGES_DIR.
Proof.
  intros H. unfold path_exists.
  by rewrite (H PAGES_DIR) by apply (PAGES_not_in_BUILD []).
Qed.

Lemma discover_pages_frame fs fs' :
  (∀ k, ¬ BUILD_DIR `prefix_of` k → fs' !! k = fs !! k) →
  discover_pages fs' = discover_pages fs.
Proof.
  intros H. unfold discover_pages.
  by rewrite (path_exists_frame fs fs'), (rglob_frame fs fs').
Qed.

Lemma sorted_nil l : sorted l = [] ↔ l = [].
Proof.
  split; [|by intros ->]. intros E.
  apply Permutation_nil_r. rewrite <-E. unfold sorted.
  by rewrite merge_sort_Permutation.
Qed.

(** What [render_pages] does when there is nothing to render. *)
Lemma render_pages_nothing db jinja env y fs :
  path_exists fs PAGES_DIR = false ∨ rglob fs PAGES_DIR (py ".html") = [] →
  render_pages db jinja env y fs
  = (Raise (if path_exists fs PAGES_DIR
            then RuntimeError (py "No pages found to render.")
            else FileNotFoundError (py "Missing pages directory: pages")), fs).
Proof.
  intros H. unfold render_pages, mbind, M_bind, reads, discover_pages.
  destruct (path_exists fs PAGES_DIR); simpl; [|done].
  destruct H as [?| ->]; done.
Qed.

Lemma seq_eq {A B} (m : M A) (k : M B) fs :
  (m ;; k) fs
  = match m fs with
    | (Ok _, fs') => k fs'
    | (Raise e, fs') => (Raise e, fs')
    end.
Proof. reflexivity. Qed.

(** C4: the discovery of the pages raises, and then the
    [FileNotFoundError], exactly when the pages root does not exist;
    [render_pages] raises its [RuntimeError] exactly when the root exists
    and nothing below it has a name that ends in [.html]; in both cases
    nothing is rendered: [render_pages] leaves the file system as it is and
    the build ends with an exception, the file system being as the clean
    step and the copy of the static files left it. *)
Theorem missing_or_empty_pages_abort db jinja y fs :
  (∀ e, discover_pages fs = Raise e
        ↔ path_exists fs PAGES_DIR = false
          ∧ e = FileNotFoundError (py "Missing pages directory: pages"))
  ∧ ((render_pages db jinja load_env y fs).1
     = Raise (RuntimeError (py "No pages found to render."))
     ↔ path_exists fs PAGES_DIR = true ∧ rglob fs PAGES_DIR (py ".html") = [])
  ∧ (path_exists fs PAGES_DIR = false ∨ rglob fs PAGES_DIR (py ".html") = [] →
     (render_pages db jinja load_env y fs).2 = fs
     ∧ ∃ e, (main db jinja y fs).1 = Raise e
            ∧ (main db jinja y fs).2
              = ((clean_build_directory ;; copy_static_files) fs).2
            ∧ (((clean_build_directory ;; copy_static_files) fs).1 = Ok () →
               e = if path_exists fs PAGES_DIR
                   then RuntimeError (py "No pages found to render.")
                   else FileNotFoundError (py "Missing pages directory: pages"))).
Proof.
  split; [|split].
  - intros e. unfold discover_pages.
    destruct (path_exists fs PAGES_DIR); simpl.
    + split; [done|by intros [? _]].
    + split; [by intros [= <-]|by intros [_ ->]].
  - split.
    + intros Hr. unfold render_pages, mbind, M_bind, reads, discover_pages in Hr.
      destruct (path_exists fs PAGES_DIR); simpl in Hr; [|done].
      split; [done|].
      destruct (sorted (rglob fs PAGES_DIR (py ".html"))) as [|p l] eqn:E;
        [by apply sorted_nil|].
      exfalso.
      destruct (build_nav db fs [] (p :: l)) as [nav|e] eqn:En; simpl in Hr.
      * pose proof (no_RuntimeError_for_each
          (render_page jinja load_env
             {| nav_links := nav; site_name := py "Home";
                brand_icon := [0x1F3E0%N]; home_href := py "index.html";
                static_css_path := path_name STATIC_DIR ++ py "/styles.css";
                current_year := y |}) (p :: l)
          (λ x, no_RuntimeError_render_page _ _ _ x) fs _ Hr) as Hno.
        done.
      * apply build_nav_raises in En. by injection Hr as ->.
    + intros [Hex Hnil].
      rewrite (render_pages_nothing db jinja load_env y fs) by (by right).
      by rewrite Hex.
  - intros H. rewrite (render_pages_nothing db jinja load_env y fs) by done.
    split; [done|].
    rewrite main_eq, !seq_eq.
    pose proof (clean_build_directory_eq fs) as Hc.
    destruct (clean_build_directory fs) as [[u|e1] fs1] eqn:E1;
      [|exists e1; split; [done|split; [done|intros [=]]]].
    assert (build_frame fs fs1) as [Hb1 Ho1].
    { destruct (fs !! BUILD_DIR) as [[c|]|]; simplify_eq; split.
      - by rewrite lookup_insert_eq.
      - intros k Hk. rewrite lookup_insert_ne by (by intros <-).
        rewrite outside_build_lookup. by rewrite decide_False.
      - by rewrite lookup_insert_eq.
      - intros k Hk. by rewrite lookup_insert_ne by (by intros <-). }
    pose proof (keeps_copy_static_files fs1 Hb1) as [Hb2 Ho2].
    rewrite seq_eq.
    destruct (copy_static_files fs1) as [[u2|e2] fs2] eqn:E2;
      [|exists e2; split; [done|split; [done|intros [=]]]].
    cbn [fst snd] in *.
    assert (∀ k, ¬ BUILD_DIR `prefix_of` k → fs2 !! k = fs !! k) as Ho.
    { intros k Hk. by rewrite Ho2, Ho1. }
    pose proof (path_exists_frame fs fs2 Ho) as Hpe.
    pose proof (rglob_frame fs fs2 (py ".html") Ho) as Hrg.
    rewrite (render_pages_nothing db jinja load_env y fs2) by (by rewrite Hpe, Hrg).
    rewrite Hpe. eexists. split; [done|]. split; [done|]. done.
Qed.

Lemma missing_or_empty_pages_abort_witness :
  (render_pages ascii_db mini_jinja load_env 2025 site7).2 = site7.
Proof.
  refine (proj1 (proj2 (proj2
    (missing_or_empty_pages_abort ascii_db mini_jinja 2025 site7)) _)).
  left. vm_compute. reflexivity.
Defined.

(** ** The model at work *)

Example discover_pages_site1 :
  discover_pages site1
  = Ok [ PAGES_DIR ++ [py "about.html"];
         PAGES_DIR ++ [py "blog"; py "post.html"];
         PAGES_DIR ++ [py "index.html"] ].
Proof. vm_compute. reflexivity. Qed.

Example build_site1_index :
  (main ascii_db mini_jinja 2025 site1).2 !! (BUILD_DIR ++ [py "index.html"])
  = Some (File (Text (py "Welcome, 2025"))).
Proof. vm_compute. reflexivity. Qed.

Example build_site1_post :
  (main ascii_db mini_jinja 2025 site1).2 !! (BUILD_DIR ++ [py "blog"; py "post.html"])
  = Some (File (Text (py "A post (blog-post)"))).
Proof. vm_compute. reflexivity. Qed.

Example build_site1_static :
  (main ascii_db mini_jinja 2025 site1).2 !! (BUILD_DIR ++ [py "static"; py "styles.css"])
  = Some (File (Text (py "body {}"))).
Proof. vm_compute. reflexivity. Qed.

(** A directory whose name ends in [.html] is taken for a page, and
    reading it fails. *)
Example build_site3_fails :
  (main ascii_db mini_jinja 2025 site3).1
  = Raise (IsADirectoryError (PAGES_DIR ++ [py "notes.html"])).
Proof. vm_compute. reflexivity. Qed.

(** A file called [.html] has no suffix for [pathlib]. *)
Example page_slug_dotfile : page_slug [py ".html"] = Ok (py ".html").
Proof. reflexivity. Qed.

Example page_slug_two_dots : page_slug [py "a.b.html"] = Ok (py "a.b").
Proof. reflexivity. Qed.

Example universal_newlines_crlf :
  universal_newlines [13; 10; 65; 13; 66]%N = [10; 65; 10; 66]%N.
Proof. reflexivity. Qed.

Example extract_title_label_dash :
  extract_title_label site5 (PAGES_DIR ++ [py "news.html"]) = Ok (Some []).
Proof. vm_compute. reflexivity. Qed.

(** Paths are compared segment by segment, not as strings. *)
Example sorted_by_segments :
  sorted [ [py "pages"; py "index.html"]; [py "pages"; py "blog"; py "post.html"];
           [py "pages"; py "about.html"]; [py "pages"; py "blog.html"];
           [py "pages"; py "blog-x"; py "a.html"] ]
  = [ [py "pages"; py "about.html"]; [py "pages"; py "blog"; py "post.html"];
      [py "pages"; py "blog-x"; py "a.html"]; [py "pages"; py "blog.html"];
      [py "pages"; py "index.html"] ].
Proof. vm_compute. reflexivity. Qed.

(** The title pattern: an empty block is matched, a block tag without the
    space is not, and the first closing tag ends the match. *)
Example re_search_empty_block :
  re_search title_pattern (py "{%block title%}{%endblock%}") = Some [[]].
Proof. vm_compute. reflexivity. Qed.

Example re_search_no_space :
  re_search title_pattern (py "{% blocktitle %}x{% endblock %}") = None.
Proof. vm_compute. reflexivity. Qed.

Example re_search_first_endblock :
  re_search title_pattern
    (py "{% block title %} a {% endblock %} {% block title %}b{%  endblock%}")
  = Some [py " a "].
Proof. vm_compute. reflexivity. Qed.

(** * Further properties of the builder *)

(** X1: a build changes nothing outside of the output directory, whatever
    its outcome: the pages, the templates and the static files are as
    they were. *)
Theorem build_never_touches_inputs db jinja y fs k :
  ¬ BUILD_DIR `prefix_of` k →
  (main db jinja y fs).2 !! k = fs !! k.
Proof.
  intros Hk. rewrite main_eq, clean_build_directory_eq.
  destruct (fs !! BUILD_DIR) as [[c|]|] eqn:E; [done| |].
  - pose proof (keeps_build_steps db jinja y (<[BUILD_DIR:=Dir]> (outside_build fs)))
      as [_ Ho]; [by rewrite lookup_insert_eq|].
    rewrite Ho by done. rewrite lookup_insert_ne by (by intros <-).
    rewrite outside_build_lookup. by rewrite decide_False.
  - pose proof (keeps_build_steps db jinja y (<[BUILD_DIR:=Dir]> fs))
      as [_ Ho]; [by rewrite lookup_insert_eq|].
    rewrite Ho by done. by rewrite lookup_insert_ne by (by intros <-).
Qed.

Lemma build_never_touches_inputs_witness :
  (main ascii_db mini_jinja 2025 site1).2 !! (PAGES_DIR ++ [py "about.html"])
  = site1 !! (PAGES_DIR ++ [py "about.html"]).
Proof.
  apply (build_never_touches_inputs ascii_db mini_jinja 2025 site1).
  intros [k Hk]. discriminate Hk.
Defined.

(** X2: if the output path is a regular file the clean step raises the
    [NotADirectoryError] of [shutil.rmtree], and the build stops there
    with the file system untouched. *)
Theorem build_stops_on_output_file db jinja y fs c :
  fs !! BUILD_DIR = Some (File c) →
  clean_build_directory fs = (Raise (NotADirectoryError BUILD_DIR), fs)
  ∧ main db jinja y fs = (Raise (NotADirectoryError BUILD_DIR), fs).
Proof.
  intros E. rewrite main_eq, clean_build_directory_eq, E. done.
Qed.

Lemma build_stops_on_output_file_witness :
  main ascii_db mini_jinja 2025 site8 = (Raise (NotADirectoryError BUILD_DIR), site8).
Proof.
  refine (proj2 (build_stops_on_output_file ascii_db mini_jinja 2025 site8
                   (Text (py "not a directory")) _)).
  vm_compute. reflexivity.
Defined.

(** ** Slugs *)

Lemma with_suffix_nil_Ok p :
  path_name p ≠ [] → ∃ q, with_suffix p [] = Ok q.
Proof.
  intros Hn. unfold with_suffix.
  rewrite bool_decide_eq_false_2 by (by intros ?%elem_of_nil).
  rewrite bool_decide_eq_false_2 by (intros [[? _]|?]; done).
  rewrite bool_decide_eq_false_2 by done. by eexists.
Qed.

(** X3: [page_slug] raises, a [ValueError], exactly on a path without a
    name: the empty path, or a path whose last segment is empty. *)
Theorem page_slug_raises_on_empty_name rel :
  (path_name rel = [] ↔ page_slug rel = Raise (ValueError (py "empty name")))
  ∧ (path_name rel ≠ [] ↔ ∃ slug, page_slug rel = Ok slug).
Proof.
  unfold page_slug. destruct (decide (path_name rel = [])) as [E|E].
  - assert (with_suffix rel [] = Raise (ValueError (py "empty name"))) as ->.
    { unfold with_suffix.
      rewrite bool_decide_eq_false_2 by (by intros ?%elem_of_nil).
      rewrite bool_decide_eq_false_2 by (intros [[? _]|?]; done).
      by rewrite bool_decide_eq_true_2. }
    simpl. split; [done|]. split; [done|]. by intros [? ?].
  - destruct (with_suffix_nil_Ok rel E) as [q ->]. simpl.
    split; [done|]. split; [by eexists|done].
Qed.

Lemma page_slug_raises_on_empty_name_witness :
  page_slug [] = Raise (ValueError (py "empty name")).
Proof.
  refine (proj1 (proj1 (page_slug_raises_on_empty_name [])) _). reflexivity.
Defined.

Lemma join_snoc sep (l : list pystr) x :
  l ≠ [] → join sep (l ++ [x]) = join sep l ++ sep ++ x.
Proof.
  induction l as [|a l IH]; [done|]. intros _. destruct l as [|b l].
  - done.
  - change (join sep ((a :: b :: l) ++ [x]))
      with (a ++ sep ++ join sep ((b :: l) ++ [x])).
    rewrite IH by done. change (join sep (a :: b :: l)) with (a ++ sep ++ join sep (b :: l)).
    by rewrite <-!app_assoc.
Qed.

(** X4: slugs do not tell a directory separator from a hyphen: the page
    [d/n.html] and the page [d-n.html] beside the directory [d] have the
    same slug, whatever the directories above. *)
Theorem page_slug_confuses_hyphen_and_directory (dirs : path) (d n : pystr) :
  n ≠ [] →
  page_slug (dirs ++ [d; n ++ py ".html"])
  = page_slug (dirs ++ [d ++ [hyphen] ++ n ++ py ".html"]).
Proof.
  intros Hn.
  assert (d ++ [hyphen] ++ n ≠ []) as Hne by (by destruct d).
  change (dirs ++ [d; n ++ py ".html"]) with (dirs ++ [d] ++ [n ++ py ".html"]).
  rewrite (app_assoc dirs [d]).
  replace (d ++ [hyphen] ++ n ++ py ".html") with ((d ++ [hyphen] ++ n) ++ py ".html")
    by (by rewrite <-!app_assoc).
  unfold page_slug. rewrite !with_suffix_html by done. simpl. f_equal.
  rewrite join_snoc by (by destruct dirs).
  destruct dirs as [|a dirs]; [done|].
  rewrite !join_snoc by done. by rewrite <-!app_assoc.
Qed.

Lemma page_slug_confuses_hyphen_and_directory_witness :
  page_slug ([] ++ [py "blog"; py "post" ++ py ".html"])
  = page_slug ([] ++ [py "blog" ++ [hyphen] ++ py "post" ++ py ".html"]).
Proof.
  apply (page_slug_confuses_hyphen_and_directory [] (py "blog") (py "post")).
  discriminate.
Defined.

(** ** The navigation loop *)

(** The pages found have a path below the pages root and a slug. *)
Lemma discovered_page_has_slug fs discovered page :
  discover_pages fs = Ok discovered → page ∈ discovered →
  ∃ rel slug, relative_to page PAGES_DIR = Ok rel ∧ page_slug rel = Ok slug.
Proof.
  intros [_ ->]%discover_pages_Ok Hin.
  unfold sorted in Hin. rewrite merge_sort_Permutation in Hin.
  apply elem_of_rglob in Hin as (_ & _ & Hm). unfold rglob_match in Hm.
  destruct (below PAGES_DIR page) as [rel|] eqn:Hb; [|done].
  apply below_Some in Hb as [-> Hne].
  apply andb_true_iff in Hm as [_ Hf]. unfold fnmatch_star in Hf.
  apply bool_decide_eq_true in Hf as [k Hk].
  assert (path_name rel ≠ []) as Hn.
  { unfold path_name in *. rewrite last_app in Hk.
    destruct (last rel) as [x|] eqn:E; [|by apply last_None in E].
    simpl in *. subst x. by destruct k. }
  destruct (with_suffix_nil_Ok rel Hn) as [q Hq].
  exists rel, (join [hyphen] q). split; [by apply relative_to_Ok|].
  unfold page_slug. by rewrite Hq.
Qed.

Lemma nav_step_good db fs nav page rel slug :
  relative_to page PAGES_DIR = Ok rel → page_slug rel = Ok slug →
  nav_step db fs nav page
  = if bool_decide (path_name page = py "index.html") then Ok nav
    else match read_text fs page with
         | Ok _ => nav_step db fs nav page
         | Raise e => Raise e
         end.
Proof.
  intros Hrel Hslug. pose proof (path_name_relative _ _ Hrel) as Hn.
  case_bool_decide as E.
  - unfold nav_step. rewrite Hrel. cbn [mbind result_bind].
    rewrite Hslug. cbn [mbind result_bind].
    by rewrite bool_decide_eq_true_2 by by apply Hn.
  - destruct (read_text fs page) as [c|e] eqn:Hr; [done|].
    unfold nav_step. rewrite Hrel. cbn [mbind result_bind].
    rewrite Hslug. cbn [mbind result_bind].
    rewrite bool_decide_eq_false_2 by (by rewrite Hn).
    by rewrite (extract_title_label_unreadable _ _ _ Hr).
Qed.

Lemma nav_step_readable db fs nav page rel slug content :
  relative_to page PAGES_DIR = Ok rel → page_slug rel = Ok slug →
  read_text fs page = Ok content →
  ∃ nav', nav_step db fs nav page = Ok nav'.
Proof.
  intros Hrel Hslug Hr. pose proof (path_name_relative _ _ Hrel) as Hn.
  destruct (decide (path_name rel = py "index.html")) as [E|E].
  - exists nav. unfold nav_step. rewrite Hrel. cbn [mbind result_bind].
    rewrite Hslug. cbn [mbind result_bind]. by rewrite bool_decide_eq_true_2.
  - eexists. eapply nav_step_link; [done..|].
    by apply extract_title_label_readable.
Qed.

Lemma build_nav_readable db fs l nav :
  Forall (λ p, ∃ rel slug, relative_to p PAGES_DIR = Ok rel
                           ∧ page_slug rel = Ok slug) l →
  ((∃ nav', build_nav db fs nav l = Ok nav')
   ↔ ∀ page, page ∈ l → path_name page ≠ py "index.html" →
             ∃ content, read_text fs page = Ok content)
  ∧ (∀ e, build_nav db fs nav l = Raise e →
          ∃ page, page ∈ l ∧ path_name page ≠ py "index.html"
                  ∧ read_text fs page = Raise e).
Proof.
  intros Hl. revert nav. induction Hl as [|p l (rel & slug & Hrel & Hslug) Hl IH];
    intros nav; simpl.
  { split; [|done]. split; [by intros _ ? ?%elem_of_nil|by eexists]. }
  rewrite (nav_step_good db fs nav p rel slug) by done.
  case_bool_decide as Ei; cbn [mbind result_bind].
  - destruct (IH nav) as [IH1 IH2]. split.
    + rewrite IH1. split.
      * intros H page [->|Hin]%elem_of_cons ?; [done|by apply H].
      * intros H page Hin. apply H. by right.
    + intros e (page & Hin & ? & ?)%IH2. exists page. split; [by right|done].
  - destruct (read_text fs p) as [c|e] eqn:Hr.
    + destruct (nav_step_readable db fs nav p rel slug c Hrel Hslug Hr) as [nav1 ->].
      cbn [mbind result_bind]. destruct (IH nav1) as [IH1 IH2]. split.
      * rewrite IH1. split.
        -- intros H page [->|Hin]%elem_of_cons ?; [by eexists|by apply H].
        -- intros H page Hin. apply H. by right.
      * intros e (page & Hin & ? & ?)%IH2. exists page. split; [by right|done].
    + cbn [mbind result_bind]. split.
      * split; [by intros [? ?]|]. intros H.
        destruct (H p) as [c Hc]; [by left|done|congruence].
      * intros e' [= <-]. exists p. split; [by left|done].
Qed.

(** X5: the navigation loop goes through if and only if every page found,
    the index pages apart, can be read as UTF-8 text; when it raises, it
    raises what reading one of those pages raised. *)
Theorem build_nav_succeeds_iff_pages_readable db fs discovered :
  discover_pages fs = Ok discovered →
  ((∃ nav, build_nav db fs [] discovered = Ok nav)
   ↔ ∀ page, page ∈ discovered → path_name page ≠ py "index.html" →
             ∃ content, read_text fs page = Ok content)
  ∧ (∀ e, build_nav db fs [] discovered = Raise e →
          ∃ page, page ∈ discovered ∧ path_name page ≠ py "index.html"
                  ∧ read_text fs page = Raise e).
Proof.
  intros Hd. apply build_nav_readable. apply Forall_forall. intros page Hin.
  by eapply discovered_page_has_slug.
Qed.

Lemma build_nav_succeeds_iff_pages_readable_witness :
  ∃ page, page ∈ [PAGES_DIR ++ [py "about.html"]; PAGES_DIR ++ [py "index.html"]]
          ∧ path_name page ≠ py "index.html"
          ∧ read_text site4 page
            = Raise (UnicodeDecodeError (PAGES_DIR ++ [py "about.html"])).
Proof.
  refine (proj2 (build_nav_succeeds_iff_pages_readable ascii_db site4
    [PAGES_DIR ++ [py "about.html"]; PAGES_DIR ++ [py "index.html"]] _) _ _).
  - vm_compute. reflexivity.
  - vm_compute. reflexivity.
Defined.

(** ** The label taken from the title *)

Lemma lstrip_suffix s : lstrip s `suffix_of` s.
Proof.
  induction s as [|c s IH]; simpl; [done|].
  destruct (is_space c); [|done]. by apply suffix_cons_r.
Qed.

Lemma lstrip_head s c : head (lstrip s) = Some c → is_space c = false.
Proof.
  induction s as [|x s IH]; simpl; [done|].
  destruct (is_space x) eqn:E; [done|]. simpl. by intros [= <-].
Qed.

Lemma rstrip_prefix s : rstrip s `prefix_of` s.
Proof.
  unfold rstrip. destruct (lstrip_suffix (reverse s)) as [k Hk].
  exists (reverse k). apply (inj reverse).
  by rewrite reverse_app, !reverse_involutive.
Qed.

Lemma rstrip_last s c : last (rstrip s) = Some c → is_space c = false.
Proof.
  unfold rstrip. rewrite last_reverse. apply lstrip_head.
Qed.

Lemma strip_elem_of s c : c ∈ strip s → c ∈ s.
Proof.
  unfold strip. intros H.
  destruct (rstrip_prefix (lstrip s)) as [k Hk].
  destruct (lstrip_suffix s) as [k' Hk'].
  rewrite Hk', Hk. apply elem_of_app. right. apply elem_of_app. by left.
Qed.

Lemma strip_head s c : head (strip s) = Some c → is_space c = false.
Proof.
  unfold strip. intros H. apply (lstrip_head s).
  destruct (rstrip_prefix (lstrip s)) as [k Hk]. rewrite Hk.
  by destruct (rstrip (lstrip s)).
Qed.

Lemma strip_last s c : last (strip s) = Some c → is_space c = false.
Proof. unfold strip. apply rstrip_last. Qed.

Lemma split1_item0 sep s :
  (sep ∉ item0 (split1 sep s)) ∧ item0 (split1 sep s) `prefix_of` s.
Proof.
  induction s as [|c s [IH1 IH2]]; simpl.
  - split; [by intros ?%elem_of_nil|done].
  - destruct (N.eqb_spec c sep) as [->|Hne]; simpl.
    + split; [by intros ?%elem_of_nil|apply prefix_nil].
    + destruct (split1 sep s) as [|h t]; simpl in *.
      * split; [|by apply prefix_cons, prefix_nil].
        intros [->|?%elem_of_nil]%elem_of_cons; done.
      * split; [|by apply prefix_cons].
        intros [->|?]%elem_of_cons; done.
Qed.

(** What a match captures is text of the subject. *)
Lemma strip_prefix_suffix l s s' : strip_prefix l s = Some s' → s' `suffix_of` s.
Proof.
  revert s. induction l as [|a l IH]; intros [|b s]; simpl; try done.
  - by intros [= <-].
  - by intros [= <-].
  - destruct (a =? b)%N; [|done]. intros H%IH. by apply suffix_cons_r.
Qed.

Lemma greedy_star_suffix {A} k (kont : pystr → option A) s r :
  greedy_star k kont s = Some r → ∃ s', s' `suffix_of` s ∧ kont s' = Some r.
Proof.
  induction s as [|c s IH]; simpl.
  { intros H. exists []. split; [by exists []|done]. }
  destruct (in_class k c).
  2:{ intros H. exists (c :: s). split; [by exists []|done]. }
  destruct (greedy_star k kont s) as [r'|] eqn:E.
  - intros [= <-]. destruct (IH eq_refl) as (s' & Hs & Hk).
    exists s'. split; [by apply suffix_cons_r|done].
  - intros H. exists (c :: s). split; [by exists []|done].
Qed.

Lemma lazy_star_suffix {A} k (kont : pystr → option A) acc s g r :
  lazy_star k kont acc s = Some (g, r) →
  ∃ pre s', s = pre ++ s' ∧ g = reverse acc ++ pre ∧ kont s' = Some r.
Proof.
  revert acc. induction s as [|c s IH]; intros acc; simpl.
  - destruct (kont []) as [r'|] eqn:E; [|done]. intros [= <- <-].
    exists [], []. split; [done|]. split; [by rewrite app_nil_r|done].
  - destruct (kont (c :: s)) as [r'|] eqn:E.
    + intros [= <- <-]. exists [], (c :: s).
      split; [done|]. split; [by rewrite app_nil_r|done].
    + destruct (in_class k c); [|done].
      intros (pre & s' & -> & -> & Hk)%IH. exists (c :: pre), s'.
      split; [done|]. split; [|done]. by rewrite reverse_cons, <-app_assoc.
Qed.

Lemma match_here_groups items s gs g c :
  match_here items s = Some gs → g ∈ gs → c ∈ g → c ∈ s.
Proof.
  revert s gs. induction items as [|item items IH]; intros s gs; simpl.
  { intros [= <-] ?%elem_of_nil. done. }
  destruct item as [l|k|k|k].
  - destruct (strip_prefix l s) as [s'|] eqn:E; simpl; [|done].
    intros H Hg Hc. apply strip_prefix_suffix in E as [pre ->].
    apply elem_of_app. right. by eapply IH.
  - intros (s' & [pre ->] & H)%greedy_star_suffix Hg Hc.
    apply elem_of_app. right. by eapply IH.
  - destruct s as [|x s]; [done|]. destruct (in_class k x); [|done].
    intros (s' & [pre ->] & H)%greedy_star_suffix Hg Hc.
    right. apply elem_of_app. right. by eapply IH.
  - destruct (lazy_star k (match_here items) [] s) as [[g' gs']|] eqn:E; [|done].
    intros [= <-]. apply lazy_star_suffix in E as (pre & s' & -> & -> & H).
    intros [->|Hg]%elem_of_cons Hc.
    + apply elem_of_app. by left.
    + apply elem_of_app. right. by eapply IH.
Qed.

Lemma re_search_groups items s gs g c :
  re_search items s = Some gs → g ∈ gs → c ∈ g → c ∈ s.
Proof.
  induction s as [|x s IH]; simpl.
  - destruct (match_here items []) as [gs'|] eqn:E; [|done].
    intros [= <-]. by eapply match_here_groups.
  - destruct (match_here items (x :: s)) as [gs'|] eqn:E.
    + intros [= <-]. by eapply match_here_groups.
    + intros H Hg Hc. right. by apply IH.
Qed.

(** X6: a label taken from a title block has no hyphen in it and no white
    space at either end, and it is made of characters of the page. *)
Theorem extracted_label_is_trimmed fs page content t :
  read_text fs page = Ok content →
  extract_title_label fs page = Ok (Some t) →
  (hyphen ∉ t)
  ∧ (∀ c, head t = Some c → is_space c = false)
  ∧ (∀ c, last t = Some c → is_space c = false)
  ∧ (∀ c, c ∈ t → c ∈ content).
Proof.
  intros Hr. rewrite (extract_title_label_readable _ _ _ Hr).
  destruct (re_search title_pattern content) as [m|] eqn:Hm; [|done].
  case_bool_decide as Hne; [done|]. intros [= <-]. unfold title_before_dash.
  destruct (split1_item0 hyphen (strip (group1 m))) as [Hh Hp].
  split; [|split; [|split]].
  - intros Hin%strip_elem_of. done.
  - apply strip_head.
  - apply strip_last.
  - intros c Hin%strip_elem_of.
    assert (c ∈ group1 m) as Hg.
    { apply strip_elem_of. destruct Hp as [k ->]. apply elem_of_app. by left. }
    unfold group1 in Hg. destruct m as [|g gs]; [by apply elem_of_nil in Hg|].
    simpl in Hg. eapply re_search_groups; [done| |done]. by left.
Qed.

Lemma extracted_label_is_trimmed_witness :
  hyphen ∉ py "About".
Proof.
  refine (proj1 (extracted_label_is_trimmed site6 (PAGES_DIR ++ [py "team.html"])
                   _ (py "About") _ _)).
  - vm_compute. reflexivity.
  - vm_compute. reflexivity.
Defined.

(** ** The title pattern *)

Lemma strip_prefix_app l s : strip_prefix l (l ++ s) = Some s.
Proof. induction l as [|a l IH]; simpl; [done|]. by rewrite N.eqb_refl. Qed.

Lemma occurs_false l s pre post : occurs l s = false → s ≠ pre ++ l ++ post.
Proof.
  revert s. induction pre as [|c pre IH]; intros s Ho ->.
  - destruct (l ++ post) as [|x y] eqn:E; simpl in Ho;
      apply orb_false_iff in Ho as [Ho _]; unfold starts_with in Ho;
      rewrite <-E, strip_prefix_app in Ho;
      by rewrite bool_decide_eq_true_2 in Ho by by eexists.
  - simpl in Ho. apply orb_false_iff in Ho as [_ Ho]. by eapply IH.
Qed.

(** What a literal and a run of white space take from a text that goes on
    with a brace. *)
Lemma strip_prefix_before l u c rest s' :
  c ∉ l → strip_prefix l (u ++ c :: rest) = Some s' →
  ∃ u', u = l ++ u' ∧ s' = u' ++ c :: rest.
Proof.
  intros Hc. revert u. induction l as [|a l IH]; intros u; simpl.
  - intros [= <-]. by exists u.
  - destruct u as [|b u]; simpl.
    + destruct (N.eqb_spec a c) as [->|?]; [|done]. destruct Hc. by left.
    + destruct (N.eqb_spec a b) as [->|?]; [|done].
      intros (u' & -> & ->)%IH; [|intros ?; apply Hc; by right]. by exists u'.
Qed.

Lemma greedy_star_before {A} k (kont : pystr → option A) u c rest r :
  in_class k c = false →
  greedy_star k kont (u ++ c :: rest) = Some r →
  ∃ u1 u2, u = u1 ++ u2 ∧ kont (u2 ++ c :: rest) = Some r.
Proof.
  intros Hc. induction u as [|x u IH]; simpl.
  - rewrite Hc. intros H. by exists [], [].
  - destruct (in_class k x).
    + destruct (greedy_star k kont (u ++ c :: rest)) as [r'|] eqn:E.
      * intros [= <-]. destruct (IH eq_refl) as (u1 & u2 & -> & H).
        by exists (x :: u1), u2.
      * intros H. by exists [], (x :: u).
    + intros H. by exists [], (x :: u).
Qed.

(** An opening tag that starts before a brace has the word [block] before
    that brace. *)
Lemma match_block_before items u rest gs :
  u ≠ [] →
  match_here (Lit (py "{%") :: Star CSpace :: Lit (py "block") :: items)
    (u ++ brace :: rest) = Some gs →
  ∃ pre post, u = pre ++ py "block" ++ post.
Proof.
  intros Hu. change (py "{%") with [brace; percent].
  cbn [match_here strip_prefix].
  destruct u as [|c1 [|c2 u]]; [done| |]; cbn [app].
  - destruct (brace =? c1)%N; [|done]. done.
  - destruct (N.eqb_spec brace c1) as [<-|?]; [|done].
    destruct (N.eqb_spec percent c2) as [<-|?]; [|done].
    cbn [mbind option_bind].
    intros (u1 & u2 & -> & H)%greedy_star_before; [|done].
    destruct (strip_prefix (py "block") (u2 ++ brace :: rest)) as [s3|] eqn:E;
      [|done].
    apply strip_prefix_before in E as (u' & -> & _).
    + by exists (brace :: percent :: u1), u'.
    + vm_compute. intros H'.
      repeat (apply elem_of_cons in H' as [H'|H']; [discriminate H'|]).
      by apply elem_of_nil in H'.
Qed.

Lemma re_search_skip items before s :
  (∀ pre suf, before = pre ++ suf → suf ≠ [] → match_here items (suf ++ s) = None) →
  re_search items (before ++ s) = re_search items s.
Proof.
  induction before as [|c before IH]; intros H; [done|].
  change ((c :: before) ++ s) with (c :: (before ++ s)).
  cbn [re_search].
  assert (match_here items (c :: (before ++ s)) = None) as ->
    by (by apply (H [] (c :: before))).
  apply IH. intros pre suf -> Hs. by apply (H (c :: pre)).
Qed.

Lemma re_search_no_brace items s :
  brace ∉ s → re_search (Lit (py "{%") :: items) s = None.
Proof.
  intros Hb. change (py "{%") with [brace; percent].
  induction s as [|c s IH]; [done|].
  cbn [re_search match_here strip_prefix].
  destruct (N.eqb_spec brace c) as [<-|?]; [destruct Hb; by left|].
  cbn [mbind option_bind]. apply IH. intros ?. apply Hb. by right.
Qed.

Lemma lazy_star_unfold {A} k (kont : pystr → option A) acc s :
  lazy_star k kont acc s
  = match kont s with
    | Some r => Some (reverse acc, r)
    | None =>
        match s with
        | c :: s' => if in_class k c then lazy_star k kont (c :: acc) s' else None
        | [] => None
        end
    end.
Proof. by destruct s. Qed.

(** The lazy group takes the text up to the first place where the rest of
    the pattern matches. *)
Lemma lazy_star_any {A} (kont : pystr → option A) acc t rest r :
  (∀ pre suf, t = pre ++ suf → suf ≠ [] → kont (suf ++ rest) = None) →
  kont rest = Some r →
  lazy_star CAny kont acc (t ++ rest) = Some (reverse acc ++ t, r).
Proof.
  intros Hk Hr. revert acc. induction t as [|c t IH]; intros acc.
  - rewrite lazy_star_unfold. simpl. by rewrite Hr, app_nil_r.
  - rewrite lazy_star_unfold.
    assert (kont ((c :: t) ++ rest) = None) as -> by (by apply (Hk [] (c :: t))).
    cbn [app in_class]. rewrite IH.
    + by rewrite reverse_cons, <-app_assoc.
    + intros pre suf -> Hs. by apply (Hk (c :: pre)).
Qed.

Lemma match_endblock after :
  match_here endblock_items (endblock_tag ++ after) = Some [].
Proof. reflexivity. Qed.

(** The closing tag does not match inside a title without [{%]. *)
Lemma match_endblock_inside suf rest :
  suf ≠ [] → occurs [brace; percent] suf = false →
  match_here endblock_items (suf ++ brace :: rest) = None.
Proof.
  intros Hs Ho. unfold endblock_items. change (py "{%") with [brace; percent].
  cbn [match_here strip_prefix].
  destruct suf as [|c1 [|c2 suf]]; [done| |]; cbn [app].
  - by destruct (brace =? c1)%N.
  - destruct (N.eqb_spec brace c1) as [<-|?]; [|done].
    destruct (N.eqb_spec percent c2) as [<-|?]; [|done].
    exfalso. by eapply (occurs_false _ _ [] suf).
Qed.

Lemma occurs_suffix l pre suf : occurs l (pre ++ suf) = false → occurs l suf = false.
Proof.
  induction pre as [|c pre IH]; [done|]. simpl.
  intros [_ H]%orb_false_iff. by apply IH.
Qed.

Lemma match_block_title items s gs :
  match_here items s = Some gs →
  match_here (Lit (py "{%") :: Star CSpace :: Lit (py "block") :: Plus CSpace
              :: Lit (py "title") :: Star CSpace :: Lit (py "%}") :: items)
             (block_title_tag ++ s)
  = Some gs.
Proof.
  intros H. cbn [match_here]. revert H. generalize (match_here items).
  intros k H. vm_compute. by rewrite H.
Qed.

(** The first title block of a text: no [block] before its opening tag,
    no [{%] in the title. *)
Lemma re_search_title_block before t after :
  occurs (py "block") before = false → occurs (py "{%") t = false →
  re_search title_pattern (before ++ block_title_tag ++ t ++ endblock_tag ++ after)
  = Some [t].
Proof.
  intros Hb Ht. unfold title_pattern. rewrite re_search_skip.
  - assert (match_here (GroupLazyStar CAny :: endblock_items)
              (t ++ endblock_tag ++ after) = Some [t]) as Hg.
    { cbn [match_here].
      rewrite (lazy_star_any (match_here endblock_items) [] t
                 (endblock_tag ++ after) []); [done| |apply match_endblock].
      intros pre suf -> Hs. apply match_endblock_inside; [done|].
      by eapply occurs_suffix. }
    pose proof (match_block_title _ _ _ Hg) as Hm.
    unfold endblock_items in Hm.
    destruct (block_title_tag ++ t ++ endblock_tag ++ after) as [|c s] eqn:E;
      [discriminate E|].
    cbn [re_search]. by rewrite Hm.
  - intros pre suf -> Hs.
    destruct (match_here _ (suf ++ _)) as [gs|] eqn:E; [|done]. exfalso.
    change (block_title_tag ++ t ++ endblock_tag ++ after)
      with (brace :: (py "% block title %}" ++ t ++ endblock_tag ++ after)) in E.
    apply match_block_before in E as (pre' & post & ->); [|done].
    apply (occurs_false _ _ (pre ++ pre') post Hb).
    by rewrite (app_assoc pre pre').
Qed.

(** X7: on a page that has the tag [{% block title %}], without the word
    [block] before it, and after it a title without [{%] up to the tag
    [{% endblock %}], the label is the title up to its first hyphen,
    trimmed, or nothing if the title is blank. *)
Theorem extract_title_label_of_title_block fs page before t after :
  read_text fs page = Ok (before ++ block_title_tag ++ t ++ endblock_tag ++ after) →
  occurs (py "block") before = false →
  occurs (py "{%") t = false →
  extract_title_label fs page
  = Ok (if bool_decide (strip t = []) then None
        else Some (strip (item0 (split1 hyphen (strip t))))).
Proof.
  intros Hr Hb Ht. rewrite (extract_title_label_readable _ _ _ Hr).
  by rewrite re_search_title_block.
Qed.

Lemma extract_title_label_of_title_block_witness :
  extract_title_label site9 (PAGES_DIR ++ [py "projects.html"])
  = Ok (if bool_decide (strip (py "Work - {{ site_name }}") = []) then None
        else Some (strip (item0 (split1 hyphen (strip (py "Work - {{ site_name }}")))))).
Proof.
  apply (extract_title_label_of_title_block site9 (PAGES_DIR ++ [py "projects.html"])
           (py "{% extends 'base.html' %}" ++ [10%N])
           (py "Work - {{ site_name }}")
           (10%N :: py "{% block content %}<p>Things</p>{% endblock %}")).
  - vm_compute. reflexivity.
  - vm_compute. reflexivity.
  - vm_compute. reflexivity.
Defined.

(** X8: a page without any brace has no title block: the extraction gives
    nothing. *)
Theorem extract_title_label_without_tags fs page content :
  read_text fs page = Ok content → brace ∉ content →
  extract_title_label fs page = Ok None.
Proof.
  intros Hr Hb. rewrite (extract_title_label_readable _ _ _ Hr).
  unfold title_pattern. by rewrite re_search_no_brace.
Qed.

Lemma extract_title_label_without_tags_witness :
  extract_title_label site1 (PAGES_DIR ++ [py "about.html"]) = Ok None.
Proof.
  apply (extract_title_label_without_tags site1 (PAGES_DIR ++ [py "about.html"])
           (py "About us")).
  - vm_compute. reflexivity.
  - vm_compute. intros H. repeat (apply elem_of_cons in H as [H|H]; [discriminate H|]).
    by apply elem_of_nil in H.
Defined.

(** ** The pages written *)

(** A run that ends well, by its result alone. *)
Lemma run_Ok {A} (r : result A * filesystem) (a : A) : r.1 = Ok a → r = (Ok a, r.2).
Proof. destruct r as [x fs]. cbn [fst snd]. by intros ->. Qed.

Lemma render_page_Ok jinja env ctx page fs fs2 :
  render_page jinja env ctx page fs = (Ok (), fs2) →
  ∃ rel slug html,
    relative_to page PAGES_DIR = Ok rel ∧ page_slug rel = Ok slug
    ∧ jinja env (loader_view env fs) (as_posix rel)
        {| shared := ctx; active_nav := slug |} = inr html
    ∧ fs2 !! (BUILD_DIR ++ rel) = Some (File (Text html)).
Proof.
  unfold render_page, mbind, M_bind, lift, reads.
  destruct (relative_to page PAGES_DIR) as [rel|] eqn:Hrel; [|done].
  destruct (page_slug rel) as [slug|] eqn:Hslug; [|done].
  destruct (jinja env (loader_view env fs) (as_posix rel) _) as [msg|html] eqn:Hj;
    [done|].
  destruct (mkdir_parents (parent (BUILD_DIR ++ rel)) fs) as [[u|e] fs1]; [|done].
  intros Hw. exists rel, slug, html. split; [done|]. split; [done|]. split; [done|].
  unfold write_text in Hw. repeat case_match; simplify_eq.
  by rewrite lookup_insert_eq.
Qed.

(** Rendering a page leaves the entries that are there as they are, but
    for the file it writes. *)
Lemma render_page_preserves jinja env ctx page fs k e :
  fs !! k = Some e →
  (∀ rel, relative_to page PAGES_DIR = Ok rel → k ≠ BUILD_DIR ++ rel) →
  (render_page jinja env ctx page fs).2 !! k = Some e.
Proof.
  intros Hk Hne. unfold render_page, mbind, M_bind, lift, reads.
  destruct (relative_to page PAGES_DIR) as [rel|] eqn:Hrel; [|done].
  destruct (page_slug rel) as [slug|] eqn:Hslug; [|done].
  destruct (jinja env (loader_view env fs) (as_posix rel) _) as [msg|html] eqn:Hj;
    [done|].
  assert ((mkdir_parents (parent (BUILD_DIR ++ rel)) fs).2 !! k = Some e) as Hm.
  { unfold mkdir_parents.
    destruct (mkdir_from_lookup ROOT (parent (BUILD_DIR ++ rel)) fs k)
      as [->|(Hn & _)]; [done|congruence]. }
  destruct (mkdir_parents (parent (BUILD_DIR ++ rel)) fs) as [[u|e'] fs1];
    simpl in *; [|done].
  rewrite write_text_lookup; [done|]. by apply Hne.
Qed.

Lemma for_each_render_preserves jinja env ctx l fs k e :
  fs !! k = Some e →
  (∀ page rel, page ∈ l → relative_to page PAGES_DIR = Ok rel → k ≠ BUILD_DIR ++ rel) →
  (for_each (render_page jinja env ctx) l fs).2 !! k = Some e.
Proof.
  revert fs. induction l as [|page l IH]; intros fs Hk Hne; [done|].
  cbn [for_each]. unfold mbind, M_bind.
  pose proof (render_page_preserves jinja env ctx page fs k e Hk) as Hp.
  destruct (render_page jinja env ctx page fs) as [[u|e'] fs1]; simpl in *.
  - apply IH.
    + apply Hp. intros rel. apply Hne. by left.
    + intros page' rel Hin. apply Hne. by right.
  - apply Hp. intros rel. apply Hne. by left.
Qed.

(** The loader of [load_env] sees nothing of the output directory. *)
Lemma loader_view_frame fs fs' :
  (∀ k, ¬ BUILD_DIR `prefix_of` k → fs' !! k = fs !! k) →
  loader_view load_env fs' = loader_view load_env fs.
Proof.
  intros H. unfold loader_view. apply map_filter_strong_ext_1.
  intros k e. cbn [fst].
  assert (Exists (λ d, d `prefix_of` k) (loader_searchpath load_env) →
          ¬ BUILD_DIR `prefix_of` k) as Hout.
  { intros Hex [x ->]. unfold load_env in Hex. cbn in Hex.
    apply Exists_cons in Hex as [[y Hy]|Hex]; [discriminate Hy|].
    apply Exists_cons in Hex as [[y Hy]|Hex]; [discriminate Hy|].
    by apply Exists_nil in Hex. }
  split; intros [Hex Hl]; (split; [done|]).
  - by rewrite <-H by by apply Hout.
  - by rewrite H by by apply Hout.
Qed.

Lemma for_each_render_writes jinja ctx l fs1 fs' :
  NoDup l → fs1 !! BUILD_DIR = Some Dir →
  for_each (render_page jinja load_env ctx) l fs1 = (Ok (), fs') →
  ∀ page, page ∈ l →
    ∃ rel slug html,
      relative_to page PAGES_DIR = Ok rel ∧ page_slug rel = Ok slug
      ∧ jinja load_env (loader_view load_env fs1) (as_posix rel)
          {| shared := ctx; active_nav := slug |} = inr html
      ∧ fs' !! (BUILD_DIR ++ rel) = Some (File (Text html)).
Proof.
  revert fs1. induction l as [|p l IH]; intros fs1 Hnd Hb Hrun page Hin;
    [by apply elem_of_nil in Hin|].
  apply NoDup_cons in Hnd as [Hp Hnd].
  cbn [for_each] in Hrun. unfold mbind, M_bind in Hrun.
  pose proof (keeps_render_page jinja load_env ctx p fs1 Hb) as [Hb2 Ho2].
  destruct (render_page jinja load_env ctx p fs1) as [[[]|e] fs2] eqn:Hr; [|done].
  simpl in *.
  apply elem_of_cons in Hin as [->|Hin].
  - apply render_page_Ok in Hr as (rel & slug & html & Hrel & Hslug & Hj & Hw).
    exists rel, slug, html. split; [done|]. split; [done|]. split; [done|].
    pose proof (for_each_render_preserves jinja load_env ctx l fs2 _ _ Hw) as Hk.
    rewrite Hrun in Hk. apply Hk.
    intros page' rel' Hin' Hrel' Heq. apply (inj (app BUILD_DIR)) in Heq as <-.
    apply relative_to_Ok in Hrel, Hrel'. congruence.
  - destruct (IH fs2 Hnd Hb2 Hrun page Hin) as (rel & slug & html & ? & ? & Hj & ?).
    exists rel, slug, html. rewrite (loader_view_frame fs1 fs2) in Hj by done.
    done.
Qed.

Lemma render_pages_Ok db jinja env y fs fs' :
  render_pages db jinja env y fs = (Ok (), fs') →
  ∃ discovered nav,
    discover_pages fs = Ok discovered ∧ discovered ≠ []
    ∧ build_nav db fs [] discovered = Ok nav
    ∧ for_each (render_page jinja env (site_context nav y)) discovered fs = (Ok (), fs').
Proof.
  intros Hrun. unfold render_pages, mbind, M_bind, reads in Hrun.
  destruct (discover_pages fs) as [discovered|] eqn:Hd; [|done].
  destruct discovered as [|p l]; [done|].
  destruct (build_nav db fs [] (p :: l)) as [nav|] eqn:Hn; [|done].
  by exists (p :: l), nav.
Qed.

Lemma NoDup_discover_pages fs discovered :
  discover_pages fs = Ok discovered → NoDup discovered.
Proof.
  intros [_ ->]%discover_pages_Ok. unfold sorted.
  rewrite merge_sort_Permutation. apply NoDup_rglob.
Qed.

(** X9: a run of [render_pages] that ends well has written every page
    found, index pages too: at the path of the page below the output
    directory lies what the template engine made of the template named by
    that path, in the shared context of the build with the slug of the
    page as [active_nav]. *)
Theorem render_pages_writes_every_page db jinja y fs fs' :
  fs !! BUILD_DIR = Some Dir →
  render_pages db jinja load_env y fs = (Ok (), fs') →
  ∃ discovered nav,
    discover_pages fs = Ok discovered ∧ discovered ≠ []
    ∧ build_nav db fs [] discovered = Ok nav
    ∧ ∀ page, page ∈ discovered →
        ∃ rel slug html,
          relative_to page PAGES_DIR = Ok rel ∧ page_slug rel = Ok slug
          ∧ jinja load_env (loader_view load_env fs) (as_posix rel)
              {| shared := site_context nav y; active_nav := slug |} = inr html
          ∧ fs' !! (BUILD_DIR ++ rel) = Some (File (Text html)).
Proof.
  intros Hb (discovered & nav & Hd & Hne & Hn & Hrun)%render_pages_Ok.
  exists discovered, nav. split; [done|]. split; [done|]. split; [done|].
  apply (for_each_render_writes jinja (site_context nav y) discovered fs fs');
    [|done|done].
  by apply (NoDup_discover_pages fs).
Qed.

Lemma render_pages_writes_every_page_witness :
  ∃ discovered nav,
    discover_pages site1_clean = Ok discovered ∧ discovered ≠ []
    ∧ build_nav ascii_db site1_clean [] discovered = Ok nav
    ∧ ∀ page, page ∈ discovered →
        ∃ rel slug html,
          relative_to page PAGES_DIR = Ok rel ∧ page_slug rel = Ok slug
          ∧ mini_jinja load_env (loader_view load_env site1_clean) (as_posix rel)
              {| shared := site_context nav 2025; active_nav := slug |} = inr html
          ∧ (render_pages ascii_db mini_jinja load_env 2025 site1_clean).2
              !! (BUILD_DIR ++ rel) = Some (File (Text html)).
Proof.
  apply (render_pages_writes_every_page ascii_db mini_jinja 2025 site1_clean).
  - vm_compute. reflexivity.
  - apply run_Ok. vm_compute. reflexivity.
Defined.

(** ** The copy of the static files *)

Lemma blocked_fresh fs0 dst rel :
  (∀ r, r ≠ [] → fs0 !! (dst ++ r) = None) → blocked fs0 dst rel = false.
Proof.
  intros Hf. unfold blocked.
  destruct (existsb _ _) eqn:E; [|done].
  apply existsb_exists in E as (i & Hin & Hi).
  destruct rel as [|x rel]; [done|].
  rewrite Hf in Hi; done.
Qed.

(** In a well-formed file system the prefixes of an entry are directories. *)
Lemma well_formed_prefix_dir fs p ext e :
  well_formed fs → fs !! (p ++ ext) = Some e → ext ≠ [] → is_dir fs p = true.
Proof.
  intros Hwf. revert e. induction ext as [|x ext IH] using rev_ind; intros e He Hne;
    [done|].
  apply Hwf in He as [_ Hp]. simpl in Hp.
  unfold parent in Hp. rewrite app_assoc, removelast_last in Hp.
  destruct ext as [|y ext]; [by rewrite app_nil_r in Hp|].
  unfold is_dir in Hp. rewrite (bool_decide_eq_false_2 (_ = ROOT)) in Hp
    by (by destruct p).
  cbn [orb] in Hp. apply bool_decide_eq_true_1 in Hp.
  by apply (IH Dir).
Qed.

Lemma walkable_well_formed fs src rel e :
  well_formed fs → fs !! (src ++ rel) = Some e → rel ≠ [] → walkable fs src rel = true.
Proof.
  intros Hwf He Hne. unfold walkable. apply forallb_forall.
  intros i [_ Hi]%in_seq. simpl in Hi.
  apply (well_formed_prefix_dir fs _ (drop i rel) e); [done| |].
  - by rewrite <-app_assoc, take_drop.
  - intros Hd. apply (f_equal length) in Hd. rewrite length_drop in Hd.
    simpl in Hd. lia.
Qed.

Lemma walkable_insert fs q src rel :
  walkable fs src rel = true → walkable (<[q := Dir]> fs) src rel = true.
Proof.
  unfold walkable. rewrite !forallb_forall. intros H i Hi. specialize (H i Hi).
  unfold is_dir in *. apply orb_true_iff in H as [H|H]; apply orb_true_iff;
    [by left|right].
  apply bool_decide_eq_true_1 in H. apply bool_decide_eq_true_2.
  destruct (decide (q = src ++ take i rel)) as [->|Hne].
  - by rewrite lookup_insert_eq.
  - by rewrite lookup_insert_ne.
Qed.

Lemma copy_entry_fresh fs0 src dst errors fs kv :
  (∀ r, r ≠ [] → fs0 !! (dst ++ r) = None) →
  (∀ rel, below src kv.1 = Some rel → walkable fs0 src rel = true) →
  copy_entry fs0 src dst (errors, fs) kv = (errors, copy_plain src dst fs kv).
Proof.
  intros Hf Hw. unfold copy_entry, copy_plain.
  destruct (below src kv.1) as [rel|] eqn:E; [|done].
  rewrite (Hw rel eq_refl), blocked_fresh by done. cbn [negb orb].
  apply below_Some in E as [_ Hne]. rewrite (Hf rel Hne).
  by destruct kv.2.
Qed.

Lemma copy_fold_fresh fs0 src dst l errors fs :
  (∀ r, r ≠ [] → fs0 !! (dst ++ r) = None) →
  (∀ kv rel, kv ∈ l → below src kv.1 = Some rel → walkable fs0 src rel = true) →
  foldl (copy_entry fs0 src dst) (errors, fs) l
  = (errors, foldl (copy_plain src dst) fs l).
Proof.
  intros Hf. revert fs. induction l as [|kv l IH]; intros fs Hw; [done|].
  cbn [foldl]. rewrite copy_entry_fresh; [|done|].
  - apply IH. intros kv' rel Hin. apply Hw. by right.
  - intros rel. apply Hw. by left.
Qed.

Lemma copy_plain_other src dst l acc rel :
  (∀ e, rel ≠ [] → (src ++ rel, e) ∉ l) →
  foldl (copy_plain src dst) acc l !! (dst ++ rel) = acc !! (dst ++ rel).
Proof.
  revert acc. induction l as [|kv l IH]; intros acc Hn; [done|].
  cbn [foldl]. rewrite IH.
  - unfold copy_plain. destruct (below src kv.1) as [rel'|] eqn:E; [|done].
    apply below_Some in E as [Hk Hne].
    rewrite lookup_insert_ne; [done|].
    intros Heq%(inj (app dst)). subst rel'.
    apply (Hn kv.2 Hne). rewrite <-Hk. destruct kv. by left.
  - intros e Hne Hin. apply (Hn e Hne). by right.
Qed.

Lemma copy_plain_elem_of src dst l acc rel e :
  NoDup l.*1 → (src ++ rel, e) ∈ l → rel ≠ [] →
  foldl (copy_plain src dst) acc l !! (dst ++ rel) = Some e.
Proof.
  revert acc. induction l as [|kv l IH]; intros acc Hnd Hin Hne;
    [by apply elem_of_nil in Hin|].
  cbn [fmap list_fmap] in Hnd. apply NoDup_cons in Hnd as [Hk Hnd].
  apply elem_of_cons in Hin as [<-|Hin].
  - cbn [foldl]. rewrite copy_plain_other.
    + unfold copy_plain. cbn [fst snd].
      assert (below src (src ++ rel) = Some rel) as -> by by apply below_Some.
      by rewrite lookup_insert_eq.
    + intros e' _ Hin. apply Hk. cbn [fst]. apply list_elem_of_fmap.
      by exists (src ++ rel, e').
  - cbn [foldl]. by apply IH.
Qed.

Lemma mkdir_parents_two x y fs :
  fs !! [x] = Some Dir → fs !! [x; y] = None →
  mkdir_parents [x; y] fs = (Ok (), <[[x; y] := Dir]> fs).
Proof.
  intros Hx Hy. unfold mkdir_parents. cbn [mkdir_from].
  change (ROOT ++ [x]) with [x]. rewrite Hx.
  change ([x] ++ [y]) with [x; y]. by rewrite Hy.
Qed.

Lemma copy_static_files_fresh fs :
  well_formed fs →
  fs !! STATIC_DIR = Some Dir →
  fs !! BUILD_DIR = Some Dir →
  (∀ rel, fs !! (target_static_dir ++ rel) = None) →
  ∃ fs', copy_static_files fs = (Ok (), fs')
    ∧ (∀ rel, fs' !! (target_static_dir ++ rel) = fs !! (STATIC_DIR ++ rel))
    ∧ (∀ k, ¬ target_static_dir `prefix_of` k → fs' !! k = fs !! k).
Proof.
  intros Hwf Hs Hb Hfresh.
  set (dst := target_static_dir) in *.
  set (fs0 := <[dst := Dir]> fs).
  assert (∀ r, r ≠ [] → fs0 !! (dst ++ r) = None) as Hf0.
  { intros r Hr. unfold fs0. rewrite lookup_insert_ne; [done|].
    intros Heq. apply Hr. apply (inj (app dst)). by rewrite app_nil_r. }
  assert (∀ kv rel, kv ∈ map_to_list fs0 → below STATIC_DIR kv.1 = Some rel →
            walkable fs0 STATIC_DIR rel = true) as Hw.
  { intros [k e] rel Hin [Hk Hne]%below_Some. cbn [fst] in Hk. subst k.
    apply elem_of_map_to_list in Hin. unfold fs0 in *.
    apply walkable_insert.
    rewrite lookup_insert_ne in Hin.
    - by apply (walkable_well_formed fs _ _ e).
    - intros Heq. destruct rel; discriminate Heq. }
  assert (copy_static_files fs
          = (Ok (), foldl (copy_plain STATIC_DIR dst) fs0 (map_to_list fs0))) as Hrun.
  { unfold copy_static_files, path_exists.
    rewrite (bool_decide_eq_true_2 (is_Some (fs !! STATIC_DIR))) by by rewrite Hs.
    rewrite orb_true_r. cbn [negb]. fold target_static_dir. fold dst.
    unfold copytree. rewrite Hs.
    assert (mkdir_parents dst fs = (Ok (), fs0)) as ->.
    { apply (mkdir_parents_two (py "build") (py "static") fs Hb).
      by specialize (Hfresh []). }
    by rewrite (copy_fold_fresh fs0 STATIC_DIR dst _ [] fs0 Hf0 Hw). }
  eexists. split; [exact Hrun|]. split.
  - intros rel. destruct rel as [|x rel].
    + rewrite copy_plain_other by done. rewrite !app_nil_r.
      unfold fs0. by rewrite lookup_insert_eq.
    + destruct (fs !! (STATIC_DIR ++ x :: rel)) as [e|] eqn:E.
      * apply copy_plain_elem_of; [apply NoDup_fst_map_to_list| |done].
        apply elem_of_map_to_list. unfold fs0. rewrite lookup_insert_ne; [done|].
        discriminate.
      * rewrite copy_plain_other.
        { by apply Hf0. }
        intros e _ Hin%elem_of_map_to_list. unfold fs0 in Hin.
        rewrite lookup_insert_ne in Hin by discriminate. congruence.
  - intros k Hk.
    pose proof (copy_fold_lookup fs0 STATIC_DIR dst (map_to_list fs0) ([], fs0) k Hk)
      as Hl.
    rewrite (copy_fold_fresh fs0 STATIC_DIR dst _ [] fs0 Hf0 Hw) in Hl.
    cbn [snd] in Hl. rewrite Hl. unfold fs0. rewrite lookup_insert_ne; [done|].
    intros <-. by apply Hk.
Qed.

(** X10: where the project has a static directory and the output directory
    has none yet, [copy_static_files] ends well and leaves below
    [build/static] the tree below [static], entry for entry, and nothing
    else; the rest of the file system is as before. *)
Theorem copy_static_files_copies_tree fs :
  well_formed fs →
  fs !! STATIC_DIR = Some Dir →
  fs !! BUILD_DIR = Some Dir →
  (∀ rel, fs !! (target_static_dir ++ rel) = None) →
  ∃ fs', copy_static_files fs = (Ok (), fs')
    ∧ (∀ rel, fs' !! (target_static_dir ++ rel) = fs !! (STATIC_DIR ++ rel))
    ∧ (∀ k, ¬ target_static_dir `prefix_of` k → fs' !! k = fs !! k).
Proof. apply copy_static_files_fresh. Qed.

Lemma copy_static_files_copies_tree_witness :
  ∃ fs', copy_static_files site1_clean = (Ok (), fs')
    ∧ (∀ rel, fs' !! (target_static_dir ++ rel) = site1_clean !! (STATIC_DIR ++ rel))
    ∧ (∀ k, ¬ target_static_dir `prefix_of` k → fs' !! k = site1_clean !! k).
Proof.
  apply (copy_static_files_copies_tree site1_clean).
  - apply (bool_decide_unpack _). vm_compute. exact I.
  - vm_compute. reflexivity.
  - vm_compute. reflexivity.
  - intros rel.
    assert (site1_clean = <[BUILD_DIR := Dir]> (outside_build site1)) as ->.
    { unfold site1_clean. rewrite clean_build_directory_Ok; [done| |].
      - apply well_formed_site1.
      - intros c. vm_compute. discriminate. }
    rewrite lookup_insert_ne by (by destruct rel).
    rewrite outside_build_lookup. rewrite decide_True; [done|].
    by exists (py "static" :: rel).
Defined.

(** ** The output of a build *)

Lemma extract_title_label_frame fs fs' p :
  fs' !! p = fs !! p → extract_title_label fs' p = extract_title_label fs p.
Proof. intros H. unfold extract_title_label, read_text. by rewrite H. Qed.

Lemma nav_step_frame db fs fs' nav page :
  (∀ k, ¬ BUILD_DIR `prefix_of` k → fs' !! k = fs !! k) →
  nav_step db fs' nav page = nav_step db fs nav page.
Proof.
  intros H. unfold nav_step.
  destruct (relative_to page PAGES_DIR) as [rel|] eqn:Hrel; [|done].
  apply relative_to_Ok in Hrel as ->.
  by rewrite (extract_title_label_frame fs fs') by apply H, PAGES_not_in_BUILD.
Qed.

Lemma build_nav_frame db fs fs' nav l :
  (∀ k, ¬ BUILD_DIR `prefix_of` k → fs' !! k = fs !! k) →
  build_nav db fs' nav l = build_nav db fs nav l.
Proof.
  intros H. revert nav. induction l as [|p l IH]; intros nav; [done|].
  cbn [build_nav]. rewrite (nav_step_frame db fs fs') by done.
  destruct (nav_step db fs nav p); [|done]. cbn [mbind result_bind]. apply IH.
Qed.

(** [mkdir_from] makes nothing but directories on the way to its target. *)
Lemma mkdir_from_lookup_prefix made todo fs k e :
  (mkdir_from made todo fs).2 !! k = Some e →
  fs !! k = Some e ∨ (e = Dir ∧ k `prefix_of` made ++ todo).
Proof.
  revert made fs. induction todo as [|seg todo IH]; intros made fs; [by left|].
  cbn [mkdir_from].
  destruct (fs !! (made ++ [seg])) as [[c|]|] eqn:E; [by left| |].
  - intros [H|[-> H]]%IH; [by left|right]. by rewrite <-app_assoc in H.
  - intros [H|[-> H]]%IH.
    + destruct (decide (k = made ++ [seg])) as [->|Hne].
      * rewrite lookup_insert_eq in H. injection H as <-. right. split; [done|].
        exists todo. by rewrite <-app_assoc.
      * rewrite lookup_insert_ne in H by done. by left.
    + right. by rewrite <-app_assoc in H.
Qed.

Lemma removelast_prefix {A} (l : list A) : removelast l `prefix_of` l.
Proof.
  induction l as [|x l _] using rev_ind; [done|].
  rewrite removelast_last. by apply prefix_app_r.
Qed.

(** What a page leaves behind: its file and the directories above it. *)
Lemma render_page_lookup_inv jinja env ctx page fs k e :
  (render_page jinja env ctx page fs).2 !! k = Some e →
  fs !! k = Some e
  ∨ ∃ rel, relative_to page PAGES_DIR = Ok rel ∧ k `prefix_of` BUILD_DIR ++ rel
           ∧ (k ≠ BUILD_DIR ++ rel → e = Dir).
Proof.
  unfold render_page, mbind, M_bind, lift, reads.
  destruct (relative_to page PAGES_DIR) as [rel|] eqn:Hrel; [|by left].
  destruct (page_slug rel) as [slug|] eqn:Hslug; [|by left].
  destruct (jinja env (loader_view env fs) (as_posix rel) _) as [msg|html] eqn:Hj;
    [by left|].
  pose proof (mkdir_from_lookup_prefix ROOT (parent (BUILD_DIR ++ rel)) fs k e) as Hm.
  fold (mkdir_parents (parent (BUILD_DIR ++ rel))) in Hm.
  assert (k `prefix_of` parent (BUILD_DIR ++ rel) → k `prefix_of` BUILD_DIR ++ rel)
    as Hpre.
  { intros Hp. etrans; [done|]. apply removelast_prefix. }
  destruct (mkdir_parents (parent (BUILD_DIR ++ rel)) fs) as [[u|e'] fs1];
    cbn [snd] in *.
  - destruct (decide (k = BUILD_DIR ++ rel)) as [->|Hne].
    + intros _. right. exists rel. split; [done|]. split; [done|]. by intros [].
    + rewrite write_text_lookup by done.
      intros [H|[-> H]]%Hm; [by left|right]. exists rel. split; [done|].
      split; [by apply Hpre|done].
  - intros [H|[-> H]]%Hm; [by left|right]. exists rel. split; [done|].
    split; [by apply Hpre|done].
Qed.

Lemma for_each_render_lookup_inv jinja env ctx l fs k e :
  (for_each (render_page jinja env ctx) l fs).2 !! k = Some e →
  fs !! k = Some e
  ∨ ∃ page rel, page ∈ l ∧ relative_to page PAGES_DIR = Ok rel
                ∧ k `prefix_of` BUILD_DIR ++ rel
                ∧ (k ≠ BUILD_DIR ++ rel → e = Dir).
Proof.
  revert fs. induction l as [|page l IH]; intros fs; [by left|].
  cbn [for_each]. unfold mbind, M_bind.
  pose proof (render_page_lookup_inv jinja env ctx page fs k e) as Hp.
  assert (fs !! k = Some e
          ∨ (∃ rel, relative_to page PAGES_DIR = Ok rel ∧ k `prefix_of` BUILD_DIR ++ rel
                    ∧ (k ≠ BUILD_DIR ++ rel → e = Dir))
          → fs !! k = Some e
            ∨ ∃ page0 rel, page0 ∈ page :: l ∧ relative_to page0 PAGES_DIR = Ok rel
                           ∧ k `prefix_of` BUILD_DIR ++ rel
                           ∧ (k ≠ BUILD_DIR ++ rel → e = Dir)) as Hhere.
  { intros [H|(rel & ? & ?)]; [by left|right]. exists page, rel.
    split; [by left|done]. }
  destruct (render_page jinja env ctx page fs) as [[u|e'] fs1]; cbn [snd] in *.
  - intros [H|(page' & rel & Hin & Hrel & Hk)]%IH.
    + by apply Hhere, Hp.
    + right. exists page', rel. split; [by right|done].
  - intros H. by apply Hhere, Hp.
Qed.

Lemma well_formed_clean fs :
  well_formed fs → well_formed (<[BUILD_DIR := Dir]> (outside_build fs)).
Proof.
  intros Hwf k e Hk. destruct (decide (k = BUILD_DIR)) as [->|Hne]; [done|].
  rewrite lookup_insert_ne in Hk by done.
  rewrite outside_build_lookup in Hk. case_decide as Hp; [done|].
  apply Hwf in Hk as [Hr Hd]. split; [done|].
  unfold is_dir in *. apply orb_true_iff in Hd as [Hd|Hd]; apply orb_true_iff;
    [by left|right].
  apply bool_decide_eq_true_1 in Hd. apply bool_decide_eq_true_2.
  rewrite lookup_insert_ne.
  - rewrite outside_build_lookup, decide_False; [done|].
    intros Hq. apply Hp. etrans; [done|]. apply removelast_prefix.
  - intros Heq. apply Hp. rewrite Heq. apply removelast_prefix.
Qed.

(** The file system between the copy of the static files and the
    rendering, in a build of [fs]. *)
Lemma copy_static_files_after_clean fs fs2 :
  well_formed fs →
  copy_static_files (<[BUILD_DIR := Dir]> (outside_build fs)) = (Ok (), fs2) →
  build_frame fs fs2
  ∧ (∀ rel, fs2 !! (target_static_dir ++ rel) = fs !! (STATIC_DIR ++ rel))
  ∧ (∀ k, BUILD_DIR `prefix_of` k → k ≠ BUILD_DIR → ¬ target_static_dir `prefix_of` k →
          fs2 !! k = None).
Proof.
  intros Hwf Hrun.
  set (fs1 := <[BUILD_DIR := Dir]> (outside_build fs)) in *.
  assert (fs1 !! BUILD_DIR = Some Dir) as Hb1 by apply lookup_insert_eq.
  assert (∀ k, ¬ BUILD_DIR `prefix_of` k → fs1 !! k = fs !! k) as Hout.
  { intros k Hk. unfold fs1. rewrite lookup_insert_ne by (by intros <-).
    by rewrite outside_build_lookup, decide_False. }
  assert (∀ k, BUILD_DIR `prefix_of` k → k ≠ BUILD_DIR → fs1 !! k = None) as Hin.
  { intros k Hk Hne. unfold fs1. rewrite lookup_insert_ne by done.
    by rewrite outside_build_lookup, decide_True. }
  assert (∀ rel, fs1 !! (STATIC_DIR ++ rel) = fs !! (STATIC_DIR ++ rel)) as Hst.
  { intros rel. apply Hout. intros [x Hx]. discriminate Hx. }
  assert (∀ rel, fs1 !! (target_static_dir ++ rel) = None) as Hfresh.
  { intros rel. apply Hin; [by exists (py "static" :: rel)|discriminate]. }
  assert (build_frame fs fs2) as Hfr.
  { pose proof (keeps_copy_static_files fs1 Hb1) as [H1 H2].
    rewrite Hrun in H1, H2. cbn [snd] in *. split; [done|].
    intros k Hk. by rewrite H2, Hout. }
  split; [done|].
  destruct (fs !! STATIC_DIR) as [[c|]|] eqn:Hs.
  - exfalso. unfold copy_static_files, path_exists, copytree in Hrun.
    pose proof (Hst []) as H0. rewrite !app_nil_r in H0. rewrite H0, Hs in Hrun.
    rewrite (bool_decide_eq_true_2 (is_Some _)) in Hrun by done.
    by rewrite orb_true_r in Hrun.
  - destruct (copy_static_files_fresh fs1) as (fs' & Hrun' & Hc & Ho).
    + by apply well_formed_clean.
    + pose proof (Hst []) as H0. rewrite !app_nil_r in H0. by rewrite H0.
    + done.
    + done.
    + rewrite Hrun in Hrun'. injection Hrun' as <-. split.
      * intros rel. by rewrite Hc, Hst.
      * intros k Hk Hne Hnt. rewrite Ho by done. by apply Hin.
  - assert (fs2 = fs1) as ->.
    { unfold copy_static_files, path_exists in Hrun.
      pose proof (Hst []) as H0. rewrite !app_nil_r in H0. rewrite H0, Hs in Hrun.
      rewrite (bool_decide_eq_false_2 (STATIC_DIR = ROOT)) in Hrun by discriminate.
      rewrite (bool_decide_eq_false_2 (is_Some _)) in Hrun by (by intros [? ?]).
      cbn in Hrun. by injection Hrun. }
    split.
    + intros rel. rewrite Hfresh. symmetry.
      by apply well_formed_below_None.
    + intros k Hk Hne _. by apply Hin.
Qed.

(** The steps of a build that ends well. *)
Lemma main_Ok db jinja y fs fs' :
  well_formed fs →
  main db jinja y fs = (Ok (), fs') →
  ∃ fs2,
    copy_static_files (<[BUILD_DIR := Dir]> (outside_build fs)) = (Ok (), fs2)
    ∧ render_pages db jinja load_env y fs2 = (Ok (), fs').
Proof.
  intros Hwf Hrun. rewrite main_eq, clean_build_directory_eq in Hrun.
  assert ((copy_static_files ;; render_pages db jinja load_env y)
            (<[BUILD_DIR := Dir]> (outside_build fs)) = (Ok (), fs')) as Hrun'.
  { destruct (fs !! BUILD_DIR) as [[c|]|] eqn:E; [done|done|].
    by rewrite outside_build_absent. }
  rewrite seq_eq in Hrun'.
  destruct (copy_static_files _) as [[[]|e] fs2]; [|done].
  by exists fs2.
Qed.

(** X11: a build that ends well has put into the output directory every
    page found below the pages root, rendered from the templates of the
    project, with the navigation list of these pages and the slug of the
    page in the context, and a copy of every entry of the static
    directory, but where a page was written in its place. *)
Theorem build_output_has_pages_and_static db jinja y fs fs' :
  well_formed fs →
  main db jinja y fs = (Ok (), fs') →
  ∃ discovered nav,
    discover_pages fs = Ok discovered
    ∧ build_nav db fs [] discovered = Ok nav
    ∧ (∀ page, page ∈ discovered →
         ∃ rel slug html,
           relative_to page PAGES_DIR = Ok rel ∧ page_slug rel = Ok slug
           ∧ jinja load_env (loader_view load_env fs) (as_posix rel)
               {| shared := site_context nav y; active_nav := slug |} = inr html
           ∧ fs' !! (BUILD_DIR ++ rel) = Some (File (Text html)))
    ∧ (∀ rel e, fs !! (STATIC_DIR ++ rel) = Some e →
         PAGES_DIR ++ py "static" :: rel ∉ discovered →
         fs' !! (target_static_dir ++ rel) = Some e).
Proof.
  intros Hwf Hrun.
  destruct (main_Ok db jinja y fs fs' Hwf Hrun) as (fs2 & Hcopy & Hrender).
  destruct (copy_static_files_after_clean fs fs2 Hwf Hcopy) as ([Hb Hout] & Hst & _).
  apply render_pages_Ok in Hrender as (discovered & nav & Hd & Hne & Hn & Hfor).
  rewrite (discover_pages_frame fs fs2) in Hd by done.
  rewrite (build_nav_frame db fs fs2) in Hn by done.
  exists discovered, nav. split; [done|]. split; [done|]. split.
  - intros page Hin.
    destruct (for_each_render_writes jinja (site_context nav y) discovered fs2 fs'
                (NoDup_discover_pages fs _ Hd) Hb Hfor page Hin)
      as (rel & slug & html & ? & ? & Hj & ?).
    exists rel, slug, html. by rewrite (loader_view_frame fs fs2) in Hj.
  - intros rel e He Hnp.
    pose proof (for_each_render_preserves jinja load_env (site_context nav y)
                  discovered fs2 (target_static_dir ++ rel) e) as Hk.
    rewrite Hfor in Hk. apply Hk.
    + by rewrite Hst.
    + intros page rel' Hin Hrel Heq. apply Hnp.
      apply relative_to_Ok in Hrel as ->.
      change (target_static_dir ++ rel) with (BUILD_DIR ++ py "static" :: rel) in Heq.
      by apply (inj (app BUILD_DIR)) in Heq as ->.
Qed.

Lemma build_output_has_pages_and_static_witness :
  ∃ discovered nav,
    discover_pages site1 = Ok discovered
    ∧ build_nav ascii_db site1 [] discovered = Ok nav
    ∧ (∀ page, page ∈ discovered →
         ∃ rel slug html,
           relative_to page PAGES_DIR = Ok rel ∧ page_slug rel = Ok slug
           ∧ mini_jinja load_env (loader_view load_env site1) (as_posix rel)
               {| shared := site_context nav 2025; active_nav := slug |} = inr html
           ∧ (main ascii_db mini_jinja 2025 site1).2 !! (BUILD_DIR ++ rel)
             = Some (File (Text html)))
    ∧ (∀ rel e, site1 !! (STATIC_DIR ++ rel) = Some e →
         PAGES_DIR ++ py "static" :: rel ∉ discovered →
         (main ascii_db mini_jinja 2025 site1).2 !! (target_static_dir ++ rel) = Some e).
Proof.
  apply (build_output_has_pages_and_static ascii_db mini_jinja 2025 site1).
  - apply (bool_decide_unpack _). vm_compute. exact I.
  - apply run_Ok. vm_compute. reflexivity.
Defined.

(** X12: a build that ends well leaves nothing else in the output directory:
    an entry below it is a copy of an entry of the static directory, or
    lies on the way to a page that was written; whatever is not a page is
    then a directory. *)
Theorem build_output_has_nothing_else db jinja y fs fs' k e :
  well_formed fs →
  main db jinja y fs = (Ok (), fs') →
  fs' !! (BUILD_DIR ++ k) = Some e →
  (k = [] ∧ e = Dir)
  ∨ (∃ rel, k = py "static" :: rel ∧ fs !! (STATIC_DIR ++ rel) = Some e)
  ∨ (∃ discovered rel,
       discover_pages fs = Ok discovered ∧ PAGES_DIR ++ rel ∈ discovered
       ∧ k `prefix_of` rel ∧ (k ≠ rel → e = Dir)).
Proof.
  intros Hwf Hrun Hk.
  destruct (main_Ok db jinja y fs fs' Hwf Hrun) as (fs2 & Hcopy & Hrender).
  destruct (copy_static_files_after_clean fs fs2 Hwf Hcopy) as ([Hb Hout] & Hst & Hno).
  apply render_pages_Ok in Hrender as (discovered & nav & Hd & Hne & Hn & Hfor).
  rewrite (discover_pages_frame fs fs2) in Hd by done.
  assert (fs2 !! (BUILD_DIR ++ k) = Some e
          → (k = [] ∧ e = Dir)
            ∨ ∃ rel, k = py "static" :: rel ∧ fs !! (STATIC_DIR ++ rel) = Some e)
    as Hbefore.
  { intros H2. destruct k as [|x k].
    - left. rewrite app_nil_r in H2. split; [done|]. congruence.
    - right. destruct (decide (x = py "static")) as [->|Hx].
      + exists k. split; [done|]. rewrite <-Hst. exact H2.
      + rewrite Hno in H2; [done|by eexists|discriminate|].
        intros [z Hz]. injection Hz as ? ?. by apply Hx. }
  pose proof (for_each_render_lookup_inv jinja load_env (site_context nav y)
                discovered fs2 (BUILD_DIR ++ k) e) as Hinv.
  rewrite Hfor in Hinv.
  destruct (Hinv Hk) as [H2|(page & rel & Hin & Hrel & Hpre & Hdir)].
  - destruct (Hbefore H2) as [?|?]; [by left|by right; left].
  - right. right. exists discovered, rel.
    apply relative_to_Ok in Hrel as ->.
    split; [done|]. split; [done|]. split.
    + by apply prefix_app_inv in Hpre.
    + intros Hne'. apply Hdir. by intros ?%(inj (app BUILD_DIR)).
Qed.

Lemma build_output_has_nothing_else_witness :
  (main ascii_db mini_jinja 2025 site1).2 !! (BUILD_DIR ++ [py "blog"]) = Some Dir
  ∧ (([py "blog"] = [] ∧ Dir = Dir)
     ∨ (∃ rel, [py "blog"] = py "static" :: rel
               ∧ site1 !! (STATIC_DIR ++ rel) = Some Dir)
     ∨ (∃ discovered rel,
          discover_pages site1 = Ok discovered ∧ PAGES_DIR ++ rel ∈ discovered
          ∧ [py "blog"] `prefix_of` rel ∧ ([py "blog"] ≠ rel → Dir = Dir))).
Proof.
  split; [vm_compute; reflexivity|].
  apply (build_output_has_nothing_else ascii_db mini_jinja 2025 site1
           (main ascii_db mini_jinja 2025 site1).2 [py "blog"] Dir).
  - apply (bool_decide_unpack _). vm_compute. exact I.
  - apply run_Ok. vm_compute. reflexivity.
  - vm_compute. reflexivity.
Defined.

(** ** A page that cannot be read *)

Lemma clean_build_directory_frame fs fs1 :
  clean_build_directory fs = (Ok (), fs1) → build_frame fs fs1.
Proof.
  rewrite clean_build_directory_eq.
  destruct (fs !! BUILD_DIR) as [[c|]|] eqn:E; [done| |]; intros [= <-].
  - split; [by rewrite lookup_insert_eq|]. intros k Hk.
    rewrite lookup_insert_ne by (by intros <-).
    by rewrite outside_build_lookup, decide_False.
  - split; [by rewrite lookup_insert_eq|]. intros k Hk.
    by rewrite lookup_insert_ne by (by intros <-).
Qed.

(** The navigation loop raises if a page found, not an index, cannot be
    read. *)
Lemma build_nav_unreadable db fs discovered page e :
  discover_pages fs = Ok discovered → page ∈ discovered →
  path_name page ≠ py "index.html" → read_text fs page = Raise e →
  ∃ e' bad, build_nav db fs [] discovered = Raise e'
            ∧ bad ∈ discovered ∧ path_name bad ≠ py "index.html"
            ∧ read_text fs bad = Raise e'.
Proof.
  intros Hd Hin Hname Hr.
  destruct (build_nav_readable db fs discovered []) as [Hiff Hraise].
  { apply Forall_forall. intros p Hp. by eapply discovered_page_has_slug. }
  destruct (build_nav db fs [] discovered) as [nav|e'] eqn:Hn.
  - destruct (proj1 Hiff (ex_intro _ nav eq_refl) page Hin Hname) as [c Hc].
    congruence.
  - destruct (Hraise e' eq_refl) as (bad & ? & ? & ?). by exists e', bad.
Qed.

Lemma render_pages_nav_raises db jinja env y fs discovered e :
  discover_pages fs = Ok discovered → discovered ≠ [] →
  build_nav db fs [] discovered = Raise e →
  render_pages db jinja env y fs = (Raise e, fs).
Proof.
  intros Hd Hne Hn. unfold render_pages, mbind, M_bind, reads.
  rewrite Hd. destruct discovered as [|p l]; [done|]. by rewrite Hn.
Qed.

(** A build whose navigation loop raises ends with an exception, after
    the clean step and the copy of the static files, with no page
    rendered. *)
Lemma main_nav_raises db jinja y fs discovered e :
  discover_pages fs = Ok discovered → discovered ≠ [] →
  build_nav db fs [] discovered = Raise e →
  ∃ e', (main db jinja y fs).1 = Raise e'
        ∧ (main db jinja y fs).2
          = ((clean_build_directory ;; copy_static_files) fs).2
        ∧ (((clean_build_directory ;; copy_static_files) fs).1 = Ok () → e' = e).
Proof.
  intros Hd Hne Hn. rewrite main_eq, (seq_eq clean_build_directory).
  destruct (clean_build_directory fs) as [[[]|e1] fs1] eqn:Hc;
    [|by exists e1].
  apply clean_build_directory_frame in Hc as [Hb1 Ho1].
  rewrite seq_eq.
  pose proof (keeps_copy_static_files fs1 Hb1) as [Hb2 Ho2].
  destruct (copy_static_files fs1) as [[[]|e2] fs2]; cbn [snd] in *;
    [|by exists e2].
  assert (∀ k, ¬ BUILD_DIR `prefix_of` k → fs2 !! k = fs !! k) as Ho.
  { intros k Hk. by rewrite Ho2, Ho1. }
  rewrite (render_pages_nav_raises db jinja load_env y fs2 discovered e).
  - by exists e.
  - by rewrite (discover_pages_frame fs fs2).
  - done.
  - by rewrite (build_nav_frame db fs fs2).
Qed.

(** C3 (as the code has it): on a page whose source can be read as UTF-8
    text the extraction does not raise; when no title block is found, or
    the block is empty, it gives no override, and the label of the page is
    then the one derived from the slug. A page that cannot be read makes
    the extraction raise what the read raised; nothing handles the
    exception: if the page is one of the pages found and not an index
    page, the navigation loop raises the error of such a read,
    [render_pages] raises it with nothing rendered, and the build ends
    with an exception, the file system being as the clean step and the
    copy of the static files left it. *)
Theorem extract_title_label_total_on_readable db jinja y fs nav page content :
  read_text fs page = Ok content →
  (∃ o, extract_title_label fs page = Ok o
     ∧ (re_search title_pattern content = None → o = None)
     ∧ (∀ m, re_search title_pattern content = Some m →
             strip (group1 m) = [] → o = None)
     ∧ (o = None → ∀ rel slug,
          relative_to page PAGES_DIR = Ok rel →
          page_slug rel = Ok slug →
          path_name rel ≠ py "index.html" →
          nav_step db fs nav page
          = Ok (nav ++ [ {| nl_id := slug;
                            nl_label := with_icon slug (page_label db slug);
                            nl_href := as_posix rel |} ])))
  ∧ (∀ fs' page' e,
       read_text fs' page' = Raise e →
       extract_title_label fs' page' = Raise e
       ∧ ∀ discovered,
           discover_pages fs' = Ok discovered → page' ∈ discovered →
           path_name page' ≠ py "index.html" →
           ∃ e' bad,
             bad ∈ discovered ∧ path_name bad ≠ py "index.html"
             ∧ read_text fs' bad = Raise e'
             ∧ build_nav db fs' [] discovered = Raise e'
             ∧ render_pages db jinja load_env y fs' = (Raise e', fs')
             ∧ ∃ e'', (main db jinja y fs').1 = Raise e''
                      ∧ (main db jinja y fs').2
                        = ((clean_build_directory ;; copy_static_files) fs').2
                      ∧ (((clean_build_directory ;; copy_static_files) fs').1 = Ok ()
                         → e'' = e')).
Proof.
  intros Hr. split.
  - eexists. split; [by apply extract_title_label_readable|].
    split; [|split].
    + by intros ->.
    + intros m -> E. by rewrite bool_decide_eq_true_2.
    + intros Ho rel slug Hrel Hslug Hname.
      erewrite nav_step_link; [|done..|by apply extract_title_label_readable].
      by rewrite Ho.
  - intros fs' page' e Hr'. split; [by apply extract_title_label_unreadable|].
    intros discovered Hd Hin Hname.
    destruct (build_nav_unreadable db fs' discovered page' e Hd Hin Hname Hr')
      as (e' & bad & Hn & Hbad & Hbname & Hbr).
    assert (discovered ≠ []) as Hne by (by intros ->; apply elem_of_nil in Hin).
    exists e', bad. split; [done|]. split; [done|]. split; [done|].
    split; [done|]. split; [by apply (render_pages_nav_raises _ _ _ _ _ discovered)|].
    by apply (main_nav_raises db jinja y fs' discovered).
Qed.

Lemma extract_title_label_total_witness :
  read_text site1 (PAGES_DIR ++ [py "about.html"]) = Ok (py "About us")
  ∧ extract_title_label site1 (PAGES_DIR ++ [py "about.html"]) = Ok None
  ∧ (main ascii_db mini_jinja 2025 site4).1
    = Raise (UnicodeDecodeError (PAGES_DIR ++ [py "about.html"])).
Proof.
  split; [vm_compute; reflexivity|].
  destruct (extract_title_label_total_on_readable ascii_db mini_jinja 2025 site1 []
              (PAGES_DIR ++ [py "about.html"]) (py "About us"))
    as [(o & Ho & Hnone & _) Habort].
  - vm_compute. reflexivity.
  - split.
    + rewrite Ho. f_equal. apply Hnone. vm_compute. reflexivity.
    + destruct (Habort site4 (PAGES_DIR ++ [py "about.html"])
                  (UnicodeDecodeError (PAGES_DIR ++ [py "about.html"])))
        as [_ Hbuild]; [vm_compute; reflexivity|].
      destruct (Hbuild [PAGES_DIR ++ [py "about.html"]; PAGES_DIR ++ [py "index.html"]])
        as (e' & bad & Hbad & Hname & Hread & _ & _ & e'' & Hmain & _ & He).
      * vm_compute. reflexivity.
      * by left.
      * vm_compute. discriminate.
      * rewrite Hmain. f_equal. rewrite He by (vm_compute; reflexivity).
        apply elem_of_cons in Hbad as [->|Hbad].
        -- vm_compute in Hread. by injection Hread.
        -- apply list_elem_of_singleton in Hbad as ->. by destruct Hname.
Defined.

(** ** The default label *)

Lemma ascii_lower_not_upper c : ascii_is_lower c = true → ascii_is_upper c = false.
Proof.
  unfold ascii_is_lower, ascii_is_upper.
  intros [H1 H2]%andb_true_iff. apply N.leb_le in H1.
  apply andb_false_iff. right. apply N.leb_gt. lia.
Qed.

Lemma ascii_lower_lt c : ascii_is_lower c = true → (c < 128)%N ∧ c ≠ hyphen.
Proof.
  unfold ascii_is_lower, hyphen.
  intros [H1 H2]%andb_true_iff. apply N.leb_le in H1, H2. lia.
Qed.

Lemma do_title_lower_word data i b w rest :
  Forall (λ c, ascii_is_lower c = true) w →
  ∃ j b', do_title ascii_db data i b (w ++ rest)
          = (if b then w else capitalize w) ++ do_title ascii_db data j b' rest
          ∧ (w = [] → j = i ∧ b' = b).
Proof.
  intros Hw. revert i b. induction Hw as [|c w Hc Hw IH]; intros i b.
  - exists i, b. by destruct b.
  - destruct (IH (S i) true) as (j & b' & E & _).
    exists j, b'. split; [|done].
    cbn [app do_title ascii_db is_cased to_title_full lower_ucs4].
    rewrite Hc, (ascii_lower_not_upper c Hc). cbn [orb]. rewrite E.
    by destruct b.
Qed.

Lemma do_title_space data i b rest :
  do_title ascii_db data i b (space :: rest)
  = space :: do_title ascii_db data (S i) false rest.
Proof. by destruct b. Qed.

Lemma title_words data i (words : list pystr) :
  Forall (Forall (λ c, ascii_is_lower c = true)) words →
  do_title ascii_db data i false (join [space] words)
  = join [space] (capitalize <$> words).
Proof.
  intros Hws. revert i. induction Hws as [|w ws Hw Hws IH]; intros i; [done|].
  destruct ws as [|w2 ws].
  - cbn [join fmap list_fmap].
    destruct (do_title_lower_word data i false w [] Hw) as (j & b' & E & _).
    rewrite app_nil_r in E. by rewrite E, app_nil_r.
  - change (join [space] (w :: w2 :: ws)) with (w ++ space :: join [space] (w2 :: ws)).
    destruct (do_title_lower_word data i false w (space :: join [space] (w2 :: ws)) Hw)
      as (j & b' & E & _).
    rewrite E, do_title_space, IH. done.
Qed.

Lemma replace_lower_word w :
  Forall (λ c, ascii_is_lower c = true) w → replace hyphen space w = w.
Proof.
  intros Hw. unfold replace. induction Hw as [|c w Hc Hw IH]; [done|].
  cbn [fmap list_fmap] in *. rewrite IH.
  destruct (ascii_lower_lt c Hc) as [_ Hne].
  by apply N.eqb_neq in Hne as ->.
Qed.

Lemma replace_join_words (words : list pystr) :
  Forall (Forall (λ c, ascii_is_lower c = true)) words →
  replace hyphen space (join [hyphen] words) = join [space] words.
Proof.
  intros Hws. induction Hws as [|w ws Hw Hws IH]; [done|].
  destruct ws as [|w2 ws].
  - by apply replace_lower_word.
  - change (join [hyphen] (w :: w2 :: ws)) with (w ++ hyphen :: join [hyphen] (w2 :: ws)).
    change (join [space] (w :: w2 :: ws)) with (w ++ space :: join [space] (w2 :: ws)).
    pose proof (replace_lower_word w Hw) as Ew.
    unfold replace in *. rewrite fmap_app, fmap_cons, IH, Ew.
    by rewrite N.eqb_refl.
Qed.

Lemma join_space_ascii (words : list pystr) :
  Forall (Forall (λ c, ascii_is_lower c = true)) words →
  Forall (λ c, (c < 128)%N) (join [space] words).
Proof.
  intros Hws. induction Hws as [|w ws Hw Hws IH]; [done|].
  assert (Forall (λ c, (c < 128)%N) w) as Hw'.
  { eapply Forall_impl; [done|]. intros c Hc. by apply ascii_lower_lt. }
  destruct ws as [|w2 ws]; [done|].
  change (join [space] (w :: w2 :: ws)) with (w ++ space :: join [space] (w2 :: ws)).
  apply Forall_app. split; [done|]. constructor; [done|]. apply IH.
Qed.

(** X13: the default label of a slug made of words in lower-case ASCII
    letters joined by hyphens is these words, each with its first letter
    in upper case, joined by spaces. *)
Theorem page_label_capitalizes_words db (words : list pystr) :
  extends_ascii db →
  Forall (Forall (λ c, ascii_is_lower c = true)) words →
  page_label db (join [hyphen] words) = join [space] (capitalize <$> words).
Proof.
  intros Hdb Hws. unfold page_label, title.
  rewrite replace_join_words by done.
  rewrite do_title_ascii by (done || by apply join_space_ascii).
  by apply title_words.
Qed.

Lemma page_label_capitalizes_words_witness :
  page_label ascii_db (py "my-first-post") = py "My First Post".
Proof.
  apply (page_label_capitalizes_words ascii_db [py "my"; py "first"; py "post"]).
  - intros c _. done.
  - apply (bool_decide_unpack _). vm_compute. exact I.
Defined.

(** * Properties of the watcher *)

Module WatchProofs.
Import Watch.

Lemma builds_app tr1 tr2 : builds (tr1 ++ tr2) = builds tr1 + builds tr2.
Proof. unfold builds. by rewrite filter_app, length_app. Qed.

Lemma builds_run_build exe uv rc : builds (run_build exe uv rc).2 = 1.
Proof. unfold run_build; simpl. by case_bool_decide. Qed.

(** A turn of the loop runs the builder once if the snapshot changed and
    not at all otherwise. *)
Lemma builds_poll exe st t uv rc :
  builds (trace (poll exe st t uv rc))
  = builds (trace st) + (if bool_decide (snapshot t ≠ prev st) then 1 else 0).
Proof.
  unfold poll. case_bool_decide; cbn [trace].
  - by rewrite !builds_app, builds_run_build.
  - by rewrite builds_app.
Qed.

Lemma prev_poll exe st t uv rc : prev (poll exe st t uv rc) = snapshot t.
Proof.
  unfold poll. case_bool_decide as H; simpl; [done|].
  destruct (decide (snapshot t = prev st)); [done|]. by destruct H.
Qed.

Lemma walk_mtimes_lookup t base p m :
  walk_mtimes t base !! p = Some m
  ↔ visited t base p = true ∧ t !! p = Some (RegularFile (Some m)).
Proof.
  unfold walk_mtimes. rewrite lookup_omap_Some. split.
  - intros (s & Hs & Hf). apply map_lookup_filter_Some in Hf as [Hl Hv].
    simpl in Hv. destruct s as [[m'|]|]; simplify_eq.
    split; [by apply Is_true_true|done].
  - intros [Hv Hl]. exists (RegularFile (Some m)). split; [done|].
    apply map_lookup_filter_Some. split; [done|]. simpl. by rewrite Hv.
Qed.

Lemma snapshot_fold_lookup t bases acc p m :
  (∀ m', acc !! p = Some m' → t !! p = Some (RegularFile (Some m'))) →
  foldl (λ mtimes base,
           if isdir t base then walk_mtimes t base ∪ mtimes else mtimes)
        acc bases !! p = Some m
  ↔ acc !! p = Some m
    ∨ t !! p = Some (RegularFile (Some m))
      ∧ ∃ base, base ∈ bases ∧ isdir t base = true ∧ visited t base p = true.
Proof.
  revert acc. induction bases as [|b bases IH]; intros acc Hacc; simpl.
  - split; [by left|]. intros [?|[_ (?&[]%elem_of_nil&_)]]. done.
  - rewrite IH; clear IH.
    + destruct (isdir t b) eqn:Hb.
      * rewrite lookup_union_Some_raw, walk_mtimes_lookup. split.
        -- intros [[[Hv Hl]|[_ Ha]]|[Hl (base&?&?&?)]].
           ++ right. split; [done|]. exists b. by rewrite elem_of_cons; auto.
           ++ by left.
           ++ right. split; [done|]. exists base. rewrite elem_of_cons; auto.
        -- intros [Ha|[Hl (base&[->|?]%elem_of_cons&?&?)]].
           ++ left. destruct (walk_mtimes t b !! p) as [m'|] eqn:E; [|by right].
              left. apply walk_mtimes_lookup in E as [Hv Hl].
              apply Hacc in Ha. by simplify_eq.
           ++ left. by left.
           ++ right. split; [done|]. by exists base.
      * split.
        -- intros [?|[Hl (base&?&?&?)]]; [by left|].
           right. split; [done|]. exists base. rewrite elem_of_cons; auto.
        -- intros [?|[Hl (base&[->|?]%elem_of_cons&?&?)]];
             [by left|congruence|].
           right. split; [done|]. by exists base.
    + intros m'. destruct (isdir t b); [|by apply Hacc].
      rewrite lookup_union_Some_raw, walk_mtimes_lookup.
      intros [[_ ?]|[_ ?]]; [done|by apply Hacc].
Qed.

Lemma snapshot_lookup t p m :
  snapshot t !! p = Some m
  ↔ t !! p = Some (RegularFile (Some m))
    ∧ ∃ base, base ∈ WATCH_DIRS ∧ isdir t base = true ∧ visited t base p = true.
Proof.
  unfold snapshot. rewrite snapshot_fold_lookup.
  - rewrite lookup_empty. split; [by intros [?|?]|by right].
  - intros m'. by rewrite lookup_empty.
Qed.

(** Changing the time of a regular file changes no directory. *)
Lemma isdir_touch t p m0 m1 q :
  t !! p = Some (RegularFile m0) →
  isdir (<[p := RegularFile m1]> t) q = isdir t q.
Proof.
  intros Hp. unfold isdir. f_equal.
  destruct (decide (q = p)) as [->|Hne].
  - rewrite lookup_insert_eq, Hp. by rewrite !bool_decide_eq_false_2.
  - by rewrite lookup_insert_ne.
Qed.

Lemma visited_touch t p m0 m1 base q :
  t !! p = Some (RegularFile m0) →
  visited (<[p := RegularFile m1]> t) base q = visited t base q.
Proof.
  intros Hp. unfold visited. destruct (below base q) as [rel|]; [|done].
  f_equal. apply forallb_pointwise. intros i. by eapply isdir_touch.
Qed.

(** The snapshot after a watched file was touched has the new time. *)
Lemma snapshot_touch t p m m' :
  snapshot t !! p = Some m →
  snapshot (<[p := RegularFile (Some m')]> t) !! p = Some m'.
Proof.
  rewrite !snapshot_lookup. intros [Hl (base & Hb & Hd & Hv)].
  split; [by rewrite lookup_insert_eq|].
  exists base. split; [done|].
  by erewrite isdir_touch, visited_touch.
Qed.

Lemma snapshot_touch_ne t p m m' :
  snapshot t !! p = Some m → m' ≠ m →
  snapshot (<[p := RegularFile (Some m')]> t) ≠ snapshot t.
Proof.
  intros Hs Hne Heq. apply (snapshot_touch _ _ _ m') in Hs as Hs'.
  rewrite Heq, Hs in Hs'. congruence.
Qed.

(** The loop never leaves on a tick. *)
Lemma loop_ticks exe st obs :
  KeyboardInterrupt ∉ obs → ∃ st', loop exe st obs = Polling st'.
Proof.
  revert st. induction obs as [|o obs IH]; intros st Hni; simpl; [by eexists|].
  destruct o as [t uv rc|].
  - apply IH. intros ?. apply Hni. by right.
  - destruct Hni. by left.
Qed.

Lemma builds_loop exe st obs :
  builds (trace (outcome_state (loop exe st obs)))
  = builds (trace st) + changes (prev st) obs.
Proof.
  revert st. induction obs as [|o obs IH]; intros st; simpl; [lia|].
  destruct o as [t uv rc|]; simpl.
  - rewrite IH, builds_poll, prev_poll. lia.
  - rewrite builds_app. by cbn.
Qed.

Lemma trace_poll_prefix exe st t uv rc :
  trace st `prefix_of` trace (poll exe st t uv rc).
Proof. unfold poll. case_bool_decide; cbn [trace]; by eexists. Qed.

Lemma trace_loop_prefix exe st obs :
  trace st `prefix_of` trace (outcome_state (loop exe st obs)).
Proof.
  revert st. induction obs as [|o obs IH]; intros st; simpl; [done|].
  destruct o as [t uv rc|]; simpl.
  - etrans; [apply trace_poll_prefix|apply IH].
  - by eexists.
Qed.

Lemma loop_app exe st obs1 obs2 :
  KeyboardInterrupt ∉ obs1 →
  loop exe st (obs1 ++ obs2)
  = loop exe (outcome_state (loop exe st obs1)) obs2.
Proof.
  revert st. induction obs1 as [|o obs1 IH]; intros st Hni; simpl; [done|].
  destruct o as [t uv rc|].
  - apply IH. intros ?. apply Hni. by right.
  - destruct Hni. by left.
Qed.

Lemma changes_same s obs :
  (∀ t uv rc, Tick t uv rc ∈ obs → snapshot t = s) → changes s obs = 0.
Proof.
  induction obs as [|o obs IH]; intros Hall; simpl; [done|].
  destruct o as [t uv rc|]; [|done].
  assert (snapshot t = s) as -> by (eapply Hall; by left).
  rewrite bool_decide_eq_false_2 by (by intros []).
  apply IH. intros ????. eapply Hall. by right.
Qed.

(** C2: at every turn of the loop the builder is run if and only if the
    new snapshot differs from the previous one, and then once; two
    snapshots are equal when they have the same paths and the same time
    for each. So a turn that finds the time of a watched file changed
    runs the builder exactly once, the next turn on the same tree does
    not run it again, and a turn that finds the snapshot as it was runs
    nothing. *)
Theorem watcher_rebuilds_iff_snapshot_changed exe st t uv rc :
  let st' := poll exe st t uv rc in
  (builds (trace st') = builds (trace st) + 1 ↔ snapshot t ≠ prev st)
  ∧ (builds (trace st') = builds (trace st) ↔ snapshot t = prev st)
  ∧ (snapshot t = prev st
     ↔ dom (snapshot t) = dom (prev st)
       ∧ ∀ p m, snapshot t !! p = Some m → prev st !! p = Some m)
  ∧ (∀ p m m' uv' rc',
       prev st = snapshot t → snapshot t !! p = Some m → m' ≠ m →
       let touched := <[p := RegularFile (Some m')]> t in
       let st1 := poll exe st touched uv rc in
       builds (trace st1) = builds (trace st) + 1
       ∧ builds (trace (poll exe st1 touched uv' rc')) = builds (trace st1)).
Proof.
  cbn zeta. rewrite builds_poll. split; [|split; [|split]].
  - case_bool_decide; split; [done|lia|lia|done].
  - case_bool_decide as H; split; try lia.
    + intros E. by destruct H.
    + intros _. destruct (decide (snapshot t = prev st)); [done|by destruct H].
  - split; [by intros ->|]. intros [Hd Hv]. apply map_eq. intros p.
    destruct (snapshot t !! p) as [m|] eqn:E.
    + symmetry. by apply Hv.
    + symmetry. apply not_elem_of_dom. rewrite <-Hd. by apply not_elem_of_dom.
  - intros p m m' uv' rc' Hprev Hp Hne. split.
    + rewrite builds_poll, bool_decide_eq_true_2; [done|].
      rewrite Hprev. by eapply snapshot_touch_ne.
    + rewrite builds_poll, prev_poll, bool_decide_eq_false_2; [lia|].
      by intros [].
Qed.

(** C9: whatever the exit codes of the builder, the loop goes on polling
    as long as no interrupt arrives; the number of builder runs is the
    number of snapshot changes, the same for every exit code, so that a
    change seen after a failed build runs the builder again; and a run
    that ends with a non-zero code is reported in the log. *)
Theorem watcher_survives_failed_builds exe st obs :
  KeyboardInterrupt ∉ obs →
  ∃ st', loop exe st obs = Polling st'
    ∧ builds (trace st') = builds (trace st) + changes (prev st) obs
    ∧ ∀ before t uv rc after,
        obs = before ++ Tick t uv rc :: after →
        snapshot t ≠ prev (outcome_state (loop exe st before)) →
        rc ≠ 0%Z →
        failure_line rc ∈ trace st'
        ∧ ∀ t2 uv2 rc2 rest, after = Tick t2 uv2 rc2 :: rest →
            snapshot t2 ≠ snapshot t →
            builds (trace (outcome_state
              (loop exe st (before ++ [Tick t uv rc; Tick t2 uv2 rc2]))))
            = builds (trace (outcome_state (loop exe st before))) + 2.
Proof.
  intros Hni. destruct (loop_ticks exe st obs Hni) as [st' Hst'].
  exists st'. split; [done|]. split.
  { pose proof (builds_loop exe st obs) as H. by rewrite Hst' in H. }
  intros before t uv rc after -> Hch Hrc.
  assert (KeyboardInterrupt ∉ before) as Hnb.
  { intros ?. apply Hni. apply elem_of_app. by left. }
  split.
  - rewrite loop_app in Hst' by done. simpl in Hst'.
    pose proof (trace_loop_prefix exe
      (poll exe (outcome_state (loop exe st before)) t uv rc) after) as Hp.
    rewrite Hst' in Hp. simpl in Hp. destruct Hp as [k ->].
    apply elem_of_app. left. unfold poll.
    rewrite bool_decide_eq_true_2 by done. cbn [trace].
    apply elem_of_app. right. unfold run_build. cbn [snd].
    rewrite bool_decide_eq_false_2 by done.
    unfold failure_line. set_solver.
  - intros t2 uv2 rc2 rest -> Hch2.
    rewrite loop_app by done. simpl.
    rewrite !builds_poll, !prev_poll.
    rewrite !bool_decide_eq_true_2 by done. lia.
Qed.

(** C10: when the loop is entered no builder has run and [prev] is the
    snapshot of the tree found at startup; the builder runs of a run of
    the watcher are the snapshot changes counted from that snapshot on;
    so as long as the polls find the snapshot of startup again, whatever
    files it holds, nothing is built. *)
Theorem watcher_no_build_at_startup exe t0 obs :
  builds (trace (outcome_state (main exe t0 []))) = 0
  ∧ prev (outcome_state (main exe t0 [])) = snapshot t0
  ∧ builds (trace (outcome_state (main exe t0 obs))) = changes (snapshot t0) obs
  ∧ ((∀ t uv rc, Tick t uv rc ∈ obs → snapshot t = snapshot t0) →
     builds (trace (outcome_state (main exe t0 obs))) = 0).
Proof.
  unfold main. rewrite !builds_loop. cbn [prev trace].
  repeat split; try done.
  intros Hall. by rewrite changes_same.
Qed.

Lemma watcher_rebuilds_iff_snapshot_changed_witness :
  builds (trace (poll (py "python3") baseline1 tree2 true 0)) = 1
  ∧ builds (trace (poll (py "python3")
                     (poll (py "python3") baseline1 tree2 true 0) tree2 false 0)) = 1.
Proof.
  refine (proj2 (proj2 (proj2
    (watcher_rebuilds_iff_snapshot_changed (py "python3") baseline1 tree1 true 0)))
    index1 100%Z 101%Z false 0%Z _ _ _).
  - reflexivity.
  - vm_compute. reflexivity.
  - discriminate.
Defined.

Lemma watcher_survives_failed_builds_witness :
  ∃ st', loop (py "python3") baseline1 run1 = Polling st' ∧ builds (trace st') = 2.
Proof.
  destruct (watcher_survives_failed_builds (py "python3") baseline1 run1)
    as (st' & Hl & Hb & _).
  - intros H. unfold run1 in H.
    repeat (apply elem_of_cons in H as [H|H]; [discriminate H|]).
    by apply elem_of_nil in H.
  - exists st'. split; [exact Hl|]. rewrite Hb. vm_compute. reflexivity.
Defined.

Lemma watcher_no_build_at_startup_witness :
  builds (trace (outcome_state
    (main (py "python3") tree1 [Tick tree1 true 0; Tick tree1 false 1]))) = 0.
Proof.
  refine (proj2 (proj2 (proj2
    (watcher_no_build_at_startup (py "python3") tree1
       [Tick tree1 true 0; Tick tree1 false 1]))) _).
  intros t uv rc H.
  repeat (apply elem_of_cons in H as [H|H]; [by injection H as -> _ _|]).
  by apply elem_of_nil in H.
Defined.

(** The cache directory and the output directory are not watched. *)
Example snapshot_tree1 :
  snapshot tree1
  = list_to_map
      [ ([py "pages"; py "index.html"], 100%Z);
        ([py "pages"; py "blog"; py "post.html"], 120%Z);
        ([py "static"; py "styles.css"], 90%Z) ].
Proof. vm_compute. reflexivity. Qed.

Example main_run1_builds :
  builds (trace (outcome_state (main (py "python3") tree1 run1))) = 2.
Proof. vm_compute. reflexivity. Qed.

(** ** More on the snapshot *)

Lemma forallb_elem_of {A} (f : A → bool) (l : list A) :
  forallb f l = true ↔ ∀ x, x ∈ l → f x = true.
Proof. rewrite forallb_forall. by setoid_rewrite list_elem_of_In. Qed.

Lemma elem_of_removelast {A} (l : list A) d :
  d ∈ removelast l ↔ ∃ j, l !! j = Some d ∧ j < pred (length l).
Proof. by rewrite removelast_firstn_len, elem_of_take. Qed.

Lemma elem_of_removelast_take {A} (l : list A) i d :
  d ∈ removelast (take i l) → d ∈ removelast l.
Proof.
  rewrite !elem_of_removelast. intros (j & Hj & Hlt).
  rewrite length_take in Hlt. exists j. split; [|lia].
  rewrite lookup_take_lt in Hj; [done|lia].
Qed.

(** The walk reaches a path: in logical form. *)
Lemma visited_true t base p :
  visited t base p = true
  ↔ ∃ rel, p = base ++ rel ∧ rel ≠ []
           ∧ (∀ i, i < length rel → isdir t (base ++ take i rel) = true)
           ∧ (∀ d, d ∈ removelast rel → d ∉ pruned).
Proof.
  unfold visited. split.
  - destruct (below base p) as [rel|] eqn:Hb; [|done].
    apply below_Some in Hb as [-> Hne]. intros [Hd Hp]%andb_true_iff.
    exists rel. split; [done|]. split; [done|]. split.
    + intros i Hi. rewrite forallb_elem_of in Hd. apply Hd.
      apply elem_of_seq. lia.
    + intros d Hin. rewrite forallb_elem_of in Hp.
      specialize (Hp d Hin). by apply bool_decide_eq_true in Hp.
  - intros (rel & -> & Hne & Hd & Hp).
    assert (below base (base ++ rel) = Some rel) as -> by by apply below_Some.
    apply andb_true_iff. split; apply forallb_elem_of.
    + intros i Hi%elem_of_seq. apply Hd. lia.
    + intros d Hin. apply bool_decide_eq_true. by apply Hp.
Qed.

Lemma snapshot_eq t1 t2 :
  (∀ p m,
     (t1 !! p = Some (RegularFile (Some m))
      ∧ ∃ base, base ∈ WATCH_DIRS ∧ isdir t1 base = true ∧ visited t1 base p = true)
     ↔ (t2 !! p = Some (RegularFile (Some m))
        ∧ ∃ base, base ∈ WATCH_DIRS ∧ isdir t2 base = true ∧ visited t2 base p = true)) →
  snapshot t1 = snapshot t2.
Proof.
  intros H. apply map_eq. intros p. apply option_eq. intros m.
  by rewrite !snapshot_lookup.
Qed.

Lemma isdir_agree t1 t2 p : t1 !! p = t2 !! p → isdir t1 p = isdir t2 p.
Proof. intros E. unfold isdir. by rewrite E. Qed.

Lemma snapshot_agree_1 t1 t2 p m :
  (∀ q, watched q → t1 !! q = t2 !! q) →
  t1 !! p = Some (RegularFile (Some m))
  ∧ (∃ base, base ∈ WATCH_DIRS ∧ isdir t1 base = true ∧ visited t1 base p = true) →
  t2 !! p = Some (RegularFile (Some m))
  ∧ (∃ base, base ∈ WATCH_DIRS ∧ isdir t2 base = true ∧ visited t2 base p = true).
Proof.
  intros Hag [Hl (base & Hb & Hd & Hv)].
  apply visited_true in Hv as (rel & -> & Hne & Hdirs & Hpr).
  assert (∀ i, watched (base ++ take i rel)) as Hw.
  { intros i. exists base, (take i rel). split; [done|]. split; [done|].
    intros d Hin. apply Hpr. by eapply elem_of_removelast_take. }
  assert (watched (base ++ rel)) as Hwp by (by exists base, rel).
  split; [by rewrite <-Hag|]. exists base. split; [done|]. split.
  - specialize (Hw 0). rewrite take_0, app_nil_r in Hw.
    by rewrite <-(isdir_agree t1 t2) by by apply Hag.
  - apply visited_true. exists rel. split; [done|]. split; [done|].
    split; [|done]. intros i Hi.
    rewrite <-(isdir_agree t1 t2) by (by apply Hag). by apply Hdirs.
Qed.

(** X14: the snapshot depends on nothing but the entries of the watched
    directories that are not inside a pruned directory. Writing
    anywhere else, the output directory of the builder or a bytecode
    cache for instance, leaves the snapshot as it is, and the next turn
    of the loop builds nothing. *)
Theorem snapshot_depends_on_watched_only exe st t1 t2 uv rc :
  (∀ q, watched q → t1 !! q = t2 !! q) →
  snapshot t1 = snapshot t2
  ∧ (prev st = snapshot t1 →
     builds (trace (poll exe st t2 uv rc)) = builds (trace st)).
Proof.
  intros Hag.
  assert (snapshot t1 = snapshot t2) as Heq.
  { apply snapshot_eq. intros p m. split; apply snapshot_agree_1; [done|].
    intros q Hq. symmetry. by apply Hag. }
  split; [done|]. intros Hp. rewrite builds_poll.
  rewrite bool_decide_eq_false_2; [lia|]. intros H. apply H. congruence.
Qed.

Lemma not_watched_build rest : ¬ watched ([py "build"] ++ rest).
Proof.
  intros (base & rel & Hb & Hp & _). unfold WATCH_DIRS in Hb.
  repeat (apply elem_of_cons in Hb as [->|Hb]; [discriminate Hp|]).
  by apply elem_of_nil in Hb.
Qed.

Lemma snapshot_depends_on_watched_only_witness :
  snapshot tree1 = snapshot tree3.
Proof.
  refine (proj1 (snapshot_depends_on_watched_only (py "python3") baseline1
                   tree1 tree3 true 0 _)).
  intros q Hq. unfold tree3.
  rewrite lookup_insert_ne.
  2:{ intros <-. by apply (not_watched_build [py "about.html"]). }
  rewrite lookup_insert_ne; [done|]. intros <-.
  destruct Hq as (base & rel & Hb & Hp & Hpr). unfold WATCH_DIRS in Hb.
  apply elem_of_cons in Hb as [->|Hb].
  - injection Hp as <-. apply (Hpr (py "__pycache__")).
    + simpl. by left.
    + unfold pruned. right. by left.
  - apply elem_of_cons in Hb as [->|Hb]; [discriminate Hp|].
    by apply elem_of_nil in Hb.
Defined.

(** X15: what is in a snapshot: the regular files, with their times, that
    lie below a watched directory, every directory on the way down from
    it being there and none of them below it having a pruned name; a
    file inside a directory called [build] or [__pycache__] is never in
    it. *)
Theorem snapshot_holds_the_walked_files t p m :
  (snapshot t !! p = Some m
   ↔ t !! p = Some (RegularFile (Some m))
     ∧ ∃ base rel, base ∈ WATCH_DIRS ∧ p = base ++ rel ∧ rel ≠ []
         ∧ (∀ i, i < length rel → isdir t (base ++ take i rel) = true)
         ∧ (∀ d, d ∈ removelast rel → d ∉ pruned))
  ∧ (∀ base dirs d rest,
       base ∈ WATCH_DIRS → d ∈ pruned → rest ≠ [] →
       snapshot t !! (base ++ dirs ++ [d] ++ rest) = None).
Proof.
  split.
  - rewrite snapshot_lookup. split.
    + intros [Hl (base & Hb & Hd & Hv)]. split; [done|].
      apply visited_true in Hv as (rel & -> & ? & ? & ?). by exists base, rel.
    + intros [Hl (base & rel & Hb & -> & Hne & Hd & Hp)]. split; [done|].
      exists base. split; [done|]. split.
      * destruct rel as [|x rel]; [done|].
        specialize (Hd 0). simpl in Hd. rewrite app_nil_r in Hd. apply Hd. lia.
      * apply visited_true. by exists rel.
  - intros base dirs d rest Hb Hd Hrest.
    destruct (snapshot t !! _) as [m'|] eqn:E; [|done]. exfalso.
    apply snapshot_lookup in E as [_ (base' & Hb' & _ & Hv)].
    apply visited_true in Hv as (rel & Hp & _ & _ & Hpr).
    assert (base' = base ∧ rel = dirs ++ [d] ++ rest) as [-> ->].
    { unfold WATCH_DIRS in Hb, Hb'.
      repeat (apply elem_of_cons in Hb as [->|Hb]);
        repeat (apply elem_of_cons in Hb' as [->|Hb']);
        try (by apply elem_of_nil in Hb); try (by apply elem_of_nil in Hb');
        by simplify_eq. }
    apply (Hpr d); [|done]. apply elem_of_removelast.
    exists (length dirs). split.
    + by rewrite lookup_app_r, Nat.sub_diag by done.
    + rewrite !length_app. destruct rest; [done|]. simpl. lia.
Qed.

Lemma snapshot_holds_the_walked_files_witness :
  snapshot tree1 !! [py "pages"; py "blog"; py "post.html"] = Some 120%Z
  ∧ snapshot tree1 !! [py "pages"; py "__pycache__"; py "x.pyc"] = None.
Proof.
  split.
  - apply (proj1 (snapshot_holds_the_walked_files tree1
                    [py "pages"; py "blog"; py "post.html"] 120%Z)).
    split; [vm_compute; reflexivity|].
    exists [py "pages"], [py "blog"; py "post.html"].
    split; [by left|]. split; [reflexivity|]. split; [discriminate|]. split.
    + intros i Hi. cbn [length] in Hi.
      destruct i as [|[|i]]; [vm_compute; reflexivity..|lia].
    + intros d Hd. cbn [removelast] in Hd.
      apply list_elem_of_singleton in Hd as ->.
      apply (bool_decide_unpack _). vm_compute. exact I.
  - apply (proj2 (snapshot_holds_the_walked_files tree1 [] 0%Z)
             [py "pages"] [] (py "__pycache__") [py "x.pyc"]).
    + by left.
    + right. by left.
    + discriminate.
Defined.

(** A file that is gone when its time is asked for counts as a file that
    is not there. *)
Lemma isdir_not_directory t s p q :
  s ≠ Directory → t !! p ≠ Some Directory →
  isdir (<[p := s]> t) q = isdir t q.
Proof.
  intros Hs Hp. unfold isdir. f_equal.
  destruct (decide (q = p)) as [->|Hne].
  - rewrite lookup_insert_eq. rewrite !bool_decide_eq_false_2; congruence.
  - by rewrite lookup_insert_ne.
Qed.

Lemma isdir_delete t p q :
  t !! p ≠ Some Directory → isdir (delete p t) q = isdir t q.
Proof.
  intros Hp. unfold isdir. f_equal.
  destruct (decide (q = p)) as [->|Hne].
  - rewrite lookup_delete_eq. rewrite !bool_decide_eq_false_2; congruence.
  - by rewrite lookup_delete_ne.
Qed.

Lemma visited_isdir_ext t1 t2 base p :
  (∀ q, isdir t1 q = isdir t2 q) → visited t1 base p = visited t2 base p.
Proof.
  intros H. unfold visited. destruct (below base p); [|done].
  f_equal. by apply forallb_pointwise.
Qed.

Lemma snapshot_eq_isdir t1 t2 :
  (∀ q, isdir t1 q = isdir t2 q) →
  (∀ q m, t1 !! q = Some (RegularFile (Some m))
          ↔ t2 !! q = Some (RegularFile (Some m))) →
  snapshot t1 = snapshot t2.
Proof.
  intros Hd Hl. apply snapshot_eq. intros p m.
  split; intros [Hp (base & Hb & Hi & Hv)]; (split; [by apply Hl|]);
    exists base; (split; [done|]).
  - by rewrite <-Hd, <-(visited_isdir_ext t1 t2 base p Hd).
  - by rewrite Hd, (visited_isdir_ext t1 t2 base p Hd).
Qed.

(** X16: the race with a file that vanishes between the walk and the
    [getmtime] call: the snapshot is the one of the tree without that
    file. *)
Theorem snapshot_skips_vanished_file t p :
  t !! p ≠ Some Directory →
  snapshot (<[p := RegularFile None]> t) = snapshot (delete p t)
  ∧ snapshot (<[p := RegularFile None]> t) !! p = None.
Proof.
  intros Hp.
  assert (∀ q, isdir (<[p := RegularFile None]> t) q = isdir (delete p t) q) as Hd.
  { intros q. by rewrite isdir_not_directory, isdir_delete. }
  assert (snapshot (<[p := RegularFile None]> t) = snapshot (delete p t)) as Heq.
  { apply snapshot_eq_isdir; [done|]. intros q m.
    destruct (decide (q = p)) as [->|Hne].
    - by rewrite lookup_insert_eq, lookup_delete_eq.
    - by rewrite lookup_insert_ne, lookup_delete_ne. }
  split; [done|]. rewrite Heq.
  destruct (snapshot (delete p t) !! p) as [m|] eqn:E; [|done].
  apply snapshot_lookup in E as [E _]. by rewrite lookup_delete_eq in E.
Qed.

Lemma snapshot_skips_vanished_file_witness :
  snapshot (<[index1 := RegularFile None]> tree1) = snapshot (delete index1 tree1).
Proof.
  refine (proj1 (snapshot_skips_vanished_file tree1 index1 _)).
  vm_compute. discriminate.
Defined.

(** X17: a file that appears in a directory the walk goes through, and a
    watched file that disappears, change the snapshot: the turn of the
    loop that finds either runs the builder once. *)
Theorem watcher_sees_new_and_removed_files exe st t p m uv rc :
  prev st = snapshot t →
  (snapshot t !! p = Some m →
   builds (trace (poll exe st (delete p t) uv rc)) = builds (trace st) + 1)
  ∧ (∀ base, t !! p = None → base ∈ WATCH_DIRS → isdir t base = true →
             visited t base p = true →
     builds (trace (poll exe st (<[p := RegularFile (Some m)]> t) uv rc))
     = builds (trace st) + 1).
Proof.
  intros Hprev. split.
  - intros Hs. rewrite builds_poll, bool_decide_eq_true_2; [done|].
    rewrite Hprev. intros Heq. rewrite <-Heq in Hs.
    apply snapshot_lookup in Hs as [Hs _]. by rewrite lookup_delete_eq in Hs.
  - intros base Hn Hb Hd Hv. rewrite builds_poll, bool_decide_eq_true_2; [done|].
    rewrite Hprev. intros Heq.
    assert (snapshot (<[p := RegularFile (Some m)]> t) !! p = Some m) as Hs.
    { apply snapshot_lookup. split; [by rewrite lookup_insert_eq|].
      assert (∀ q, isdir (<[p := RegularFile (Some m)]> t) q = isdir t q) as Hi.
      { intros q. apply isdir_not_directory; [done|]. by rewrite Hn. }
      exists base. split; [done|].
      by rewrite Hi, (visited_isdir_ext _ t base p Hi). }
    rewrite Heq in Hs. apply snapshot_lookup in Hs as [Hs _]. congruence.
Qed.

Lemma watcher_sees_new_and_removed_files_witness :
  builds (trace (poll (py "python3") baseline1 (delete index1 tree1) true 0)) = 1
  ∧ builds (trace (poll (py "python3") baseline1
                     (<[contact1 := RegularFile (Some 200%Z)]> tree1) true 0)) = 1.
Proof.
  destruct (watcher_sees_new_and_removed_files (py "python3") baseline1 tree1
              index1 100%Z true 0%Z eq_refl) as [H1 _].
  destruct (watcher_sees_new_and_removed_files (py "python3") baseline1 tree1
              contact1 200%Z true 0%Z eq_refl) as [_ H2].
  split.
  - apply H1. vm_compute. reflexivity.
  - apply (H2 [py "pages"]).
    + vm_compute. reflexivity.
    + unfold WATCH_DIRS. by left.
    + vm_compute. reflexivity.
    + vm_compute. reflexivity.
Defined.

Lemma sleeps_poll exe st t uv rc :
  length (filter is_sleep (trace (poll exe st t uv rc)))
  = S (length (filter is_sleep (trace st))).
Proof.
  assert (length (filter is_sleep [Sleep]) = 1) as H1 by done.
  assert (length (filter is_sleep (run_build exe uv rc).2) = 0) as H0.
  { unfold run_build. cbn [snd]. by case_bool_decide. }
  unfold poll. case_bool_decide; cbn [trace].
  - rewrite !filter_app, !length_app, H1, H0. lia.
  - rewrite filter_app, length_app, H1. lia.
Qed.

(** X19: between two turns of the loop [prev] is the snapshot taken last,
    whether it was found changed or not, and the loop has slept once for
    every snapshot it took. *)
Theorem watcher_prev_is_last_snapshot exe st obs t :
  KeyboardInterrupt ∉ obs →
  last_tree obs = Some t →
  let st' := outcome_state (loop exe st obs) in
  prev st' = snapshot t
  ∧ length (filter is_sleep (trace st'))
    = length (filter is_sleep (trace st)) + length obs.
Proof.
  intros Hni Hl. cbn zeta. unfold last_tree in Hl.
  destruct (last obs) as [[t' uv rc|]|] eqn:E; simplify_eq.
  apply last_Some in E as [obs' ->].
  assert (KeyboardInterrupt ∉ obs') as Hni'.
  { intros ?. apply Hni. apply elem_of_app. by left. }
  rewrite loop_app by done. simpl. split; [apply prev_poll|].
  rewrite sleeps_poll, length_app. simpl.
  clear Hni. revert st. induction obs' as [|o obs' IH]; intros st; simpl; [lia|].
  destruct o as [t1 uv1 rc1|].
  - rewrite IH, sleeps_poll; [lia|]. intros ?. apply Hni'. by right.
  - destruct Hni'. by left.
Qed.

Lemma watcher_prev_is_last_snapshot_witness :
  prev (outcome_state (loop (py "python3") baseline1 run1)) = snapshot tree1.
Proof.
  refine (proj1 (watcher_prev_is_last_snapshot (py "python3") baseline1 run1 tree1 _ _)).
  - intros H. unfold run1 in H.
    repeat (apply elem_of_cons in H as [H|H]; [discriminate H|]).
    by apply elem_of_nil in H.
  - reflexivity.
Defined.

(** ** The interrupt

    [KeyboardInterrupt] is raised where the signal finds the program:
    in [time.sleep], in [snapshot], in [subprocess.run], or between two
    statements. Nothing in [main] or [run_build] handles it; the
    handler at the end of the file prints the last line. *)

(** [run] and [main_run] are [loop] and [main] where the interrupt
    arrives between two turns. *)
Lemma run_moment_of exe st obs : run exe st (moment_of <$> obs) = loop exe st obs.
Proof.
  revert st. induction obs as [|[t uv rc|] obs IH]; intros st; [done| |done].
  cbn [fmap list_fmap moment_of run loop]. apply IH.
Qed.

Lemma main_run_moment_of exe t0 obs :
  main_run exe (Loop t0 (moment_of <$> obs)) = main exe t0 obs.
Proof. apply run_moment_of. Qed.

Lemma run_whole exe st before rest :
  Forall (λ m, is_whole m = true) before →
  run exe st before = Polling (outcome_state (run exe st before))
  ∧ run exe st (before ++ rest) = run exe (outcome_state (run exe st before)) rest.
Proof.
  intros H. revert st. induction H as [|m before Hm H IH]; intros st; [done|].
  destruct m as [t uv rc| |]; [|done..].
  cbn [app run]. apply IH.
Qed.

Lemma take_run_build exe uv rc n :
  n ≤ 2 → take n (run_build exe uv 0).2 = take n (run_build exe uv rc).2.
Proof. intros Hn. destruct n as [|[|[|n]]]; [done..|lia]. Qed.

(** The line on the result of a build is none of the first two
    events of [run_build]. *)
Lemma result_line_not_before exe uv rc r n :
  n ≤ 2 → last (run_build exe uv rc).2 = Some r →
  r ∉ Sleep :: take n (run_build exe uv 0).2.
Proof.
  intros Hn Hr.
  assert (r = Print (py "[watch] Build completed.")
          ∨ r = Print (py "[watch] Build failed with code "
                       ++ str_of_int rc ++ py ".")) as Hcases.
  { unfold run_build in Hr. cbn [snd] in Hr.
    assert (∀ a b c : event, last [a; b; c] = Some c) as Hl by done.
    rewrite Hl in Hr. injection Hr as <-.
    case_bool_decide; [by left|by right]. }
  assert (∀ x, r ≠ Print (py "[watch] Running: " ++ x)) as Hne.
  { intros x Hx.
    apply (f_equal (λ e, match e with Print l => take 9 l | _ => [] end)) in Hx.
    destruct Hcases as [->| ->]; vm_compute in Hx; discriminate Hx. }
  intros Hin. apply elem_of_cons in Hin as [->|Hin]; [by destruct Hcases|].
  unfold run_build in Hin. cbn [snd] in Hin.
  destruct n as [|[|[|n]]]; [| | |lia]; cbn [take] in Hin.
  - by apply elem_of_nil in Hin.
  - apply list_elem_of_singleton in Hin. by apply Hne in Hin.
  - apply elem_of_cons in Hin as [Hin|Hin]; [by apply Hne in Hin|].
    apply list_elem_of_singleton in Hin as ->. by destruct Hcases.
Qed.

(** X18: the interrupt ends the watcher wherever it arrives in the loop:
    before [time.sleep] is called, in it, in [snapshot], after the
    assignment of [prev], after the line [Running], or in
    [subprocess.run]. What would be observed afterwards plays no part;
    the trace is the one of the turns that ran to their end, then the
    part of the interrupted turn that was done, then the stop line; that
    part is a prefix of what the whole turn would have done, whatever the
    exit code, and never has the line on the result of the build; a
    builder was started in it only if the interrupt came in
    [subprocess.run] with the snapshot changed. An interrupt that
    arrives before the loop leaves the stop line, after the banner if it
    was printed, and no build. *)
Theorem watcher_stops_on_interrupt exe st before m after :
  Forall (λ m, is_whole m = true) before → is_whole m = false →
  let st' := outcome_state (run exe st before) in
  (∃ part p,
     run exe st (before ++ m :: after)
     = Stopped {| prev := p; trace := trace st' ++ part ++ [stop_line] |}
     ∧ builds part
       = match m with
         | Cut t _ InSubprocess => if bool_decide (snapshot t ≠ prev st') then 1 else 0
         | _ => 0
         end
     ∧ match m with
       | Cut t uv s =>
           (p = prev st' ∨ p = snapshot t)
           ∧ ∀ rc, (trace st' ++ part) `prefix_of` trace (poll exe st' t uv rc)
                   ∧ ∀ r, last (run_build exe uv rc).2 = Some r → r ∉ part
       | _ => p = prev st' ∧ part = []
       end)
  ∧ (∀ banner_printed, ∃ tr,
       main_run exe (Early banner_printed)
       = Stopped {| prev := ∅; trace := tr ++ [stop_line] |}
       ∧ tr `prefix_of` [banner] ∧ builds tr = 0).
Proof.
  intros Hb Hm st'. split.
  2:{ intros printed. exists (if printed then [banner] else []).
      split; [done|]. destruct printed; (split; [|reflexivity]).
      - done.
      - by exists [banner]. }
  destruct (run_whole exe st before (m :: after) Hb) as [_ ->]. fold st'.
  destruct m as [t uv rc|t uv s|]; [done| |].
  2:{ exists [], (prev st'). by rewrite app_nil_l. }
  cbn [run]. unfold cut_turn, halt.
  assert (∀ n, n ≤ 2 →
            ∀ rc, (trace st' ++ [Sleep] ++ take n (run_build exe uv 0).2)
                  `prefix_of` trace st' ++ [Sleep] ++ (run_build exe uv rc).2) as Hpre.
  { intros n Hn rc. rewrite (take_run_build exe uv rc n Hn).
    apply prefix_app, prefix_app, prefix_take. }
  assert (∀ rc, (trace st' ++ [Sleep]) `prefix_of` trace (poll exe st' t uv rc))
    as Hsleep.
  { intros rc. unfold poll. case_bool_decide; cbn [trace]; [|done].
    apply prefix_app, prefix_app_r. done. }
  assert (∀ rc r, last (run_build exe uv rc).2 = Some r → r ∉ [Sleep]) as Hnot0.
  { intros rc r Hr. apply (result_line_not_before exe uv rc r 0); [lia|done]. }
  case_bool_decide as Hch.
  - assert (∀ rc, trace (poll exe st' t uv rc)
                  = trace st' ++ [Sleep] ++ (run_build exe uv rc).2) as Hpoll.
    { intros rc. unfold poll. by rewrite bool_decide_eq_true_2. }
    destruct s; cbn [prev trace].
    + exists [Sleep], (prev st'). split; [by rewrite <-!app_assoc|]. split; [reflexivity|].
      split; [by left|]. intros rc. split; [apply Hsleep|apply Hnot0].
    + exists [Sleep], (snapshot t). split; [by rewrite <-!app_assoc|]. split; [reflexivity|].
      split; [by right|]. intros rc. split; [apply Hsleep|apply Hnot0].
    + exists ([Sleep] ++ take 1 (run_build exe uv 0).2), (snapshot t).
      split; [by rewrite <-!app_assoc|]. split; [reflexivity|].
      split; [by right|]. intros rc. split.
      * rewrite Hpoll. apply Hpre. lia.
      * intros r Hr. apply (result_line_not_before exe uv rc r 1); [lia|done].
    + exists ([Sleep] ++ take 2 (run_build exe uv 0).2), (snapshot t).
      split; [by rewrite <-!app_assoc|]. split; [reflexivity|].
      split; [by right|]. intros rc. split.
      * rewrite Hpoll. apply Hpre. lia.
      * intros r Hr. apply (result_line_not_before exe uv rc r 2); [lia|done].
  - exists [Sleep], (prev st'). cbn [prev trace]. split; [by rewrite <-!app_assoc|].
    split; [by destruct s|]. split; [by left|].
    intros rc. split; [apply Hsleep|apply Hnot0].
Qed.

(** The builder is interrupted at its second run. *)
Lemma watcher_stops_on_interrupt_witness :
  ∃ part p,
    run (py "python3") baseline1
      ([Whole tree2 true 0; Whole tree2 true 0] ++ Cut tree1 false InSubprocess
         :: [Whole tree2 true 0])
    = Stopped {| prev := p;
                 trace := trace (outcome_state
                                   (run (py "python3") baseline1
                                      [Whole tree2 true 0; Whole tree2 true 0]))
                          ++ part ++ [stop_line] |}
    ∧ builds part = 1.
Proof.
  destruct (watcher_stops_on_interrupt (py "python3") baseline1
              [Whole tree2 true 0; Whole tree2 true 0]
              (Cut tree1 false InSubprocess) [Whole tree2 true 0])
    as [(part & p & Hrun & Hbuilds & _) _].
  - by repeat constructor.
  - reflexivity.
  - exists part, p. split; [exact Hrun|]. rewrite Hbuilds.
    vm_compute. reflexivity.
Defined.
End WatchProofs.
